(** * eino-rag: the retrieval decision engine

    A shallow embedding of the query router ([intelligent_query_router.go]),
    the hybrid retrieval merge ([hybrid_retrieval.go]), the graph query
    classifier and graph search entry point ([graph_reterval.go]) and the
    keyword index ([GraphIndexingModule]).

    Conventions of the embedding.
    - A Go [string] is a sequence of bytes: Rocq's [string], whose literals
      hold the UTF-8 bytes of the source text.
    - A Go [int] is a 64-bit two's complement integer: a [Z] kept in range by
      [wrap64] wherever the code does arithmetic on it.
    - A [float64] is modelled by the rational number it denotes ([Q]).  The
      only comparisons against a literal that binary64 rounds (0.3) apply to
      the quotients k/9 and k/8; module [Binary64] evaluates them in IEEE 754
      arithmetic and they agree with the rational ones.
    - A [*schema.Document] is modelled by the document it points to: the
      retrievals allocate a document and an annotation map for every result,
      so no two positions of the merged lists share a document.
    - A Go slice that the code distinguishes from [nil] is a [slice]; a
      [map] is a [gmap], and [range] over a map receives its entries in an
      order chosen by the runtime, an explicit argument here.
    - A call that panics yields [Panic]; an [error] result is an
      [option string] ([None] is Go's [nil]). *)

From Stdlib Require Import ZArith QArith Qminmax Lia Lqa Permutation.
From Stdlib Require Floats Uint63.
From stdpp Require Import gmap strings list fin_maps pretty.
From stdpp Require Import sorting.

Open Scope Z_scope.

(** ** Go runtime values *)

Module Go.

(** 64-bit two's complement wrap-around of Go's [int]. *)
Definition wrap64 (z : Z) : Z := (z + 2 ^ 63) mod 2 ^ 64 - 2 ^ 63.

Definition in_int (z : Z) : Prop := - 2 ^ 63 <= z < 2 ^ 63.

(** [x++] *)
Definition incr (x : Z) : Z := wrap64 (x + 1).

(** [a - b] *)
Definition sub (a b : Z) : Z := wrap64 (a - b).

(** [a / b] for a non-zero constant divisor: truncated division. *)
Definition quot (a b : Z) : Z := wrap64 (Z.quot a b).

(** [float64(n)] *)
Definition float64 (n : Z) : Q := inject_Z n.

(** [a > b] on [float64] *)
Definition fgt (a b : Q) : bool := negb (Qle_bool a b).

(** [a < b] and [a <= b] on [float64] *)
Definition flt (a b : Q) : bool := negb (Qle_bool b a).
Definition fle (a b : Q) : bool := Qle_bool a b.

(** The ways in which the modelled code can panic. *)
Inductive panic : Type :=
| IndexOutOfRange          (* s[i] with i outside [0, len(s)) *)
| SliceBoundsOutOfRange    (* s[:k] with k < 0 or k > cap(s) *)
| NilMapWrite              (* assignment to an entry of a nil map *)
| NilDereference.          (* method call through a nil interface *)

(** The outcome of running a piece of Go code. *)
Inductive outcome (A : Type) : Type :=
| Ok (a : A)
| Panic (p : panic).
Arguments Ok {A} a.
Arguments Panic {A} p.

Definition bind {A B} (m : outcome A) (k : A -> outcome B) : outcome B :=
  match m with
  | Ok a => k a
  | Panic p => Panic p
  end.

Definition returns {A} (m : outcome A) : Prop := exists a, m = Ok a.

(** An [error] value: [None] is [nil]. *)
Definition error : Type := option string.

(** A slice value.  [NilSlice] is the zero value of a slice type;
    [Slice l c] has elements [l] and capacity [c]. *)
Inductive slice (A : Type) : Type :=
| NilSlice
| Slice (elems : list A) (capacity : nat).
Arguments NilSlice {A}.
Arguments Slice {A} elems capacity.

Definition elems {A} (s : slice A) : list A :=
  match s with
  | NilSlice => []
  | Slice l _ => l
  end.

Definition cap {A} (s : slice A) : nat :=
  match s with
  | NilSlice => 0%nat
  | Slice _ c => c
  end.

Definition is_nil {A} (s : slice A) : bool :=
  match s with
  | NilSlice => true
  | Slice _ _ => false
  end.

(** [len(s)] *)
Definition len {A} (s : slice A) : Z := Z.of_nat (length (elems s)).

(** A composite literal [[]T{x1, ..., xn}]: never nil, capacity n. *)
Definition lit {A} (l : list A) : slice A := Slice l (length l).

(** [append(s, x)].  When the backing array is full the runtime allocates
    a new one: of the requested length when that exceeds twice the old
    capacity, of twice the old capacity otherwise (the rule for slices
    below 256 elements whose byte size is a malloc size class, which
    holds for the one-, two- and four-element slices of strings and
    pointers built here).  Capacities matter to [slice_to] alone. *)
Definition grow (oldcap newlen : nat) : nat :=
  if (oldcap + oldcap <? newlen)%nat then newlen else (oldcap + oldcap)%nat.

Definition append1 {A} (s : slice A) (x : A) : slice A :=
  let l := elems s in
  let c := cap s in
  if (length l <? c)%nat then Slice (l ++ [x]) c
  else Slice (l ++ [x]) (grow c (S (length l))).

(** [append(s, xs...)] *)
Definition append {A} (s : slice A) (xs : list A) : slice A :=
  match xs with
  | [] => s
  | _ =>
      let l := elems s in
      let c := cap s in
      let n := (length l + length xs)%nat in
      if (n <=? c)%nat then Slice (l ++ xs) c
      else Slice (l ++ xs) (grow c n)
  end.

(** [s[:k]]: the bound is checked against the capacity, not the length;
    positions between the length and the capacity hold zero values
    ([dflt]). *)
Definition slice_to {A} (dflt : A) (s : slice A) (k : Z) : outcome (slice A) :=
  if (k <? 0) || (Z.of_nat (cap s) <? k) then Panic SliceBoundsOutOfRange
  else
    match s with
    | NilSlice => Ok NilSlice
    | Slice l c =>
        let n := Z.to_nat k in
        Ok (Slice (take n l ++ replicate (n - length l) dflt) c)
    end.

(** The lengths and capacities of the slices that grow from nil by
    appending one element at a time: capacity 1, 2 and 4 for the first
    three appends. *)
Definition appended {A} (s : slice A) : Prop :=
  ((length (elems s) <= 2)%nat /\ cap s = length (elems s)) \/
  (3 <= length (elems s) <= cap s)%nat.

End Go.

Export Go.

(** [outcome] is a monad; stdpp's [x ← m; k] sequences two steps and stops
    at the first panic. *)
#[global] Instance outcome_ret : MRet Go.outcome := fun A a => Go.Ok a.
#[global] Instance outcome_bind : MBind Go.outcome :=
  fun A B k m => Go.bind m k.

(** ** The parts of package [strings] and [fmt] the code calls *)

Module Strings.

(** [strings.Contains(s, substr)]: [substr] occurs in [s] as a run of
    consecutive bytes. *)
Fixpoint Contains (s substr : string) : bool :=
  if String.prefix substr s then true
  else
    match s with
    | EmptyString => false
    | String _ rest => Contains rest substr
    end.

Definition byte_of (a : Ascii.ascii) : Z := Z.of_N (Ascii.N_of_ascii a).

(** [len(s)] of a string: its number of bytes. *)
Definition strlen (s : string) : Z := Z.of_nat (String.length s).

(** [s[:k]] for 0 <= k <= len(s) *)
Fixpoint prefix_bytes (k : nat) (s : string) : string :=
  match k, s with
  | S k', String a rest => String a (prefix_bytes k' rest)
  | _, _ => EmptyString
  end.

(** Width in bytes of the white space character ([unicode.IsSpace]) whose
    UTF-8 encoding starts [s], or 0 when [s] does not start with one.  The
    white space characters are U+0009..U+000D, U+0020, U+0085, U+00A0,
    U+1680, U+2000..U+200A, U+2028, U+2029, U+202F, U+205F and U+3000. *)
Definition spaceWidth (s : string) : nat :=
  match map byte_of (String.list_ascii_of_string (prefix_bytes 3 s)) with
  | b0 :: tl =>
      if ((9 <=? b0) && (b0 <=? 13)) || (b0 =? 32) then 1%nat
      else
        match tl with
        | b1 :: tl' =>
            if (b0 =? 194) && ((b1 =? 133) || (b1 =? 160)) then 2%nat
            else
              match tl' with
              | b2 :: _ =>
                  if (b0 =? 225) && (b1 =? 154) && (b2 =? 128) then 3%nat
                  else if (b0 =? 226) && (b1 =? 128)
                          && (((128 <=? b2) && (b2 <=? 138))
                              || (b2 =? 168) || (b2 =? 169) || (b2 =? 175))
                  then 3%nat
                  else if (b0 =? 226) && (b1 =? 129) && (b2 =? 159) then 3%nat
                  else if (b0 =? 227) && (b1 =? 128) && (b2 =? 128) then 3%nat
                  else 0%nat
              | [] => 0%nat
              end
        | [] => 0%nat
        end
  | [] => 0%nat
  end.

(** One flag per byte of [s]: [true] when the byte belongs to a white
    space character.  [skip] counts the bytes that remain of a white space
    character already recognised. *)
Fixpoint spaceFlags (s : string) (skip : nat) : list bool :=
  match s with
  | EmptyString => []
  | String _ rest =>
      match skip with
      | S k => true :: spaceFlags rest k
      | O =>
          match spaceWidth s with
          | O => false :: spaceFlags rest 0
          | S k => true :: spaceFlags rest k
          end
      end
  end.

Definition flush (cur : string) : list string :=
  match cur with
  | EmptyString => []
  | _ => [cur]
  end.

(** [strings.Fields(s)]: the maximal runs of bytes outside white space,
    in order.  [cur] is the field being read. *)
Fixpoint fieldsFrom (s : string) (flags : list bool) (cur : string) : list string :=
  match s, flags with
  | String a rest, true :: fl => flush cur ++ fieldsFrom rest fl EmptyString
  | String a rest, false :: fl => fieldsFrom rest fl (cur +:+ String a EmptyString)
  | _, _ => flush cur
  end.

Definition Fields (s : string) : list string :=
  fieldsFrom s (spaceFlags s 0) EmptyString.

(** Digits of [n] in base 16, as [%x] prints a non-negative integer. *)
Definition hexDigit (d : N) : Ascii.ascii :=
  if (d <? 10)%N then Ascii.ascii_of_N (48 + d) else Ascii.ascii_of_N (87 + d).

Fixpoint hexPos (fuel : nat) (n : N) (acc : string) : string :=
  match fuel with
  | O => acc
  | S fuel' =>
      let acc' := String (hexDigit (n mod 16)%N) acc in
      if (n <? 16)%N then acc' else hexPos fuel' (n / 16)%N acc'
  end.

(** [fmt.Sprintf("%x", n)] for n >= 0 *)
Definition Sprintf_x (n : Z) : string :=
  hexPos (S (N.to_nat (N.log2 (Z.to_N n)))) (Z.to_N n) EmptyString.

(** [fmt.Sprintf("%d", n)] *)
Definition Sprintf_d (n : Z) : string := pretty n.

End Strings.

(** ** Documents

    [schema.Document] of the eino framework: an identifier, the text and an
    open annotation map whose values are of any type. *)

Inductive value : Type :=
| VNil
| VStr (s : string)
| VInt (n : Z)
| VFloat (q : Q)
| VBool (b : bool)
| VStrings (l : list string).

Record Document : Type := mkDocument {
  ID : string;
  Content : string;
  MetaData : option (gmap string value)   (* [None] is the nil map *)
}.

(** [doc.MetaData[key]]: reading a nil map finds nothing. *)
Definition getMeta (doc : Document) (key : string) : option value :=
  match MetaData doc with
  | Some m => m !! key
  | None => None
  end.

(** [doc.MetaData[key] = v]: writing to a nil map panics. *)
Definition setMeta (key : string) (v : value) (doc : Document) : outcome Document :=
  match MetaData doc with
  | Some m => Ok (mkDocument (ID doc) (Content doc) (Some (<[key := v]> m)))
  | None => Panic NilMapWrite
  end.

(** [if doc.MetaData == nil { doc.MetaData = make(map[string]interface{}) }] *)
Definition ensureMeta (doc : Document) : Document :=
  match MetaData doc with
  | Some _ => doc
  | None => mkDocument (ID doc) (Content doc) (Some ∅)
  end.

(** [for i := 0; i < n; i++ { body }], started at index [i]. *)
Fixpoint forRange {S : Type} (n i : nat) (body : nat -> S -> outcome S) (st : S)
  : outcome S :=
  match n with
  | O => Ok st
  | Datatypes.S n' => st' ← body i st; forRange n' (Datatypes.S i) body st'
  end.

(** ** Query analysis and routing statistics ([intelligent_query_router.go]) *)

Module Router.

Import Strings.

(** [type SearchStrategy string] *)
Definition SearchStrategy : Type := string.
Definition HybridTraditional : SearchStrategy := "hybrid_traditional".
Definition GraphRAG : SearchStrategy := "graph_rag".
Definition Combined : SearchStrategy := "combined".

Record QueryAnalysis : Type := mkQueryAnalysis {
  QueryComplexity : Q;
  RelationshipIntensity : Q;
  ReasoningRequired : bool;
  EntityCount : Z;
  RecommendedStrategy : SearchStrategy;
  Confidence : Q;
  Reasoning : string
}.

Record RouteStatistics : Type := mkRouteStatistics {
  TraditionalCount : Z;
  GraphRAGCount : Z;
  CombinedCount : Z;
  TotalQueries : Z;
  TraditionalRatio : Q;
  GraphRAGRatio : Q;
  CombinedRatio : Q
}.

(** The statistics of [NewIntelligentQueryRouter]: the four counters are
    set to 0 and the ratios keep their zero value. *)
Definition newRouteStats : RouteStatistics :=
  mkRouteStatistics 0 0 0 0 0%Q 0%Q 0%Q.

Definition complexityKeywords : list string :=
  ["为什么"; "如何"; "关系"; "影响"; "原因"; "比较"; "区别"; "分析"; "推理"].

Definition relationKeywords : list string :=
  ["配"; "搭配"; "组合"; "相关"; "联系"; "连接"; "适合"; "匹配"].

(** [for _, keyword := range keywords { if strings.Contains(query, keyword) { count++ } }] *)
Fixpoint countKeywords (query : string) (keywords : list string) (count : Z) : Z :=
  match keywords with
  | [] => count
  | keyword :: rest =>
      countKeywords query rest
        (if Contains query keyword then incr count else count)
  end.

Definition ruleBasedAnalysis (query : string) : QueryAnalysis :=
  let complexityCount := countKeywords query complexityKeywords 0 in
  let complexity :=
    (float64 complexityCount / float64 (Z.of_nat (length complexityKeywords)))%Q in
  let relationCount := countKeywords query relationKeywords 0 in
  let relationIntensity :=
    (float64 relationCount / float64 (Z.of_nat (length relationKeywords)))%Q in
  let words := Fields query in
  let entityCount := Z.of_nat (length words) in
  let reasoningRequired :=
    fgt complexity (3 # 10) || fgt relationIntensity (3 # 10) in
  if fgt complexity (1 # 2) || fgt relationIntensity (1 # 2) then
    mkQueryAnalysis complexity relationIntensity reasoningRequired entityCount
      GraphRAG (8 # 10)
      "查询涉及复杂关系或推理，适合使用图RAG检索"
  else if fgt complexity (3 # 10) || fgt relationIntensity (3 # 10) then
    mkQueryAnalysis complexity relationIntensity reasoningRequired entityCount
      Combined (7 # 10)
      "查询具有中等复杂度，建议组合使用多种检索策略"
  else
    mkQueryAnalysis complexity relationIntensity reasoningRequired entityCount
      HybridTraditional (6 # 10)
      "查询相对简单，使用传统混合检索即可满足需求".

(** [AnalyzeQuery] hands the query to the rule based analysis and returns
    a nil error. *)
Definition AnalyzeQuery (query : string) : QueryAnalysis * error :=
  (ruleBasedAnalysis query, None).

(** [updateRouteStats]: the total always grows; the [switch] has no
    default branch, a strategy outside the three constants touches no
    strategy counter. *)
Definition updateRouteStats (st : RouteStatistics) (strategy : SearchStrategy)
  : RouteStatistics :=
  let total := incr (TotalQueries st) in
  let '(trad, graph, comb) :=
    if String.eqb strategy HybridTraditional then
      (incr (TraditionalCount st), GraphRAGCount st, CombinedCount st)
    else if String.eqb strategy GraphRAG then
      (TraditionalCount st, incr (GraphRAGCount st), CombinedCount st)
    else if String.eqb strategy Combined then
      (TraditionalCount st, GraphRAGCount st, incr (CombinedCount st))
    else
      (TraditionalCount st, GraphRAGCount st, CombinedCount st) in
  if fgt (float64 total) 0 then
    mkRouteStatistics trad graph comb total
      (float64 trad / float64 total)%Q
      (float64 graph / float64 total)%Q
      (float64 comb / float64 total)%Q
  else
    mkRouteStatistics trad graph comb total
      (TraditionalRatio st) (GraphRAGRatio st) (CombinedRatio st).

(** [GetRouteStatistics] copies the seven fields. *)
Definition GetRouteStatistics (st : RouteStatistics) : RouteStatistics :=
  mkRouteStatistics (TraditionalCount st) (GraphRAGCount st) (CombinedCount st)
    (TotalQueries st) (TraditionalRatio st) (GraphRAGRatio st) (CombinedRatio st).

(** [postProcessResults]: every document receives the three routing
    annotations, a nil annotation map being allocated first. *)
Definition postProcessDoc (analysis : QueryAnalysis) (doc : Document) : Document :=
  let doc := ensureMeta doc in
  match MetaData doc with
  | Some m =>
      mkDocument (ID doc) (Content doc)
        (Some (<["route_confidence" := VFloat (Confidence analysis)]>
               (<["query_complexity" := VFloat (QueryComplexity analysis)]>
                (<["route_strategy" := VStr (RecommendedStrategy analysis)]> m))))
  | None => doc
  end.

Definition postProcessResults (documents : slice Document) (analysis : QueryAnalysis)
  : slice Document :=
  match documents with
  | NilSlice => NilSlice
  | Slice l c => Slice (map (postProcessDoc analysis) l) c
  end.

End Router.

(** ** The thresholds of the analysis in binary64 *)

Module Binary64.

(** [float64(n)] for 0 <= n < 2^63 *)
Definition ofInt (n : Z) : PrimFloat.float := PrimFloat.of_uint63 (Uint63.of_Z n).

(** [float64(k) / float64(n)] *)
Definition quotient (k n : Z) : PrimFloat.float :=
  PrimFloat.div (ofInt k) (ofInt n).

(** The constants 0.3 and 0.5: the binary64 numbers nearest to 3/10 and
    1/2. *)
Definition threeTenths : PrimFloat.float := PrimFloat.div (ofInt 3) (ofInt 10).
Definition half : PrimFloat.float := PrimFloat.div (ofInt 1) (ofInt 2).

(** For [k] keywords found out of [n], both comparisons of the analysis
    give in binary64 what they give on the rationals. *)
Definition agrees (n : Z) (k : nat) : bool :=
  let x := quotient (Z.of_nat k) n in
  let q := (float64 (Z.of_nat k) / float64 n)%Q in
  Bool.eqb (PrimFloat.ltb threeTenths x) (fgt q (3 # 10))
  && Bool.eqb (PrimFloat.ltb half x) (fgt q (1 # 2)).

End Binary64.

(** ** The hybrid retrieval merge ([hybrid_retrieval.go]) *)

(** Stand-in for the nil pointer that fills the positions of a
    [[]*schema.Document] between its length and its capacity. *)
Definition nilDocument : Document := mkDocument EmptyString EmptyString None.

Module Hybrid.

Import Strings.

(** [seenDocIDs] is a [map[string]bool] in which only [true] is ever
    stored: a set of identifiers. *)
Record mergeState : Type := mkMergeState {
  seenDocIDs : gset string;
  mergedDocs : slice Document
}.

Section Search.

(** [fmt.Sprintf("%v", x)] for an annotation value. *)
Variable Sprintf_v : value -> string.

(** The two retrievals merged by [HybridSearch]; both read the graph
    store and the entity cache. *)
Variable DualLevelRetrieval : string -> Z -> outcome (slice Document * error).
Variable VectorSearchEnhanced : string -> Z -> outcome (slice Document * error).

(** The identifier under which a document is deduplicated: the rendering
    of its [node_id] annotation or, without one, its position in its own
    list. *)
Definition docID (pfx : string) (i : nat) (doc : Document) : string :=
  match getMeta doc "node_id" with
  | Some nodeID => Sprintf_v nodeID
  | None => pfx +:+ Sprintf_d (Z.of_nat i)
  end.

Definition dualFinalScore (doc : Document) : value :=
  match getMeta doc "relevance_score" with
  | Some score => score
  | None => VFloat 0
  end.

Definition similarity (scoreFloat : Q) : Q :=
  if fle scoreFloat 1 then
    let similarityScore := (1 - scoreFloat)%Q in
    if flt similarityScore 0 then 0%Q else similarityScore
  else 0%Q.

Definition vectorFinalScore (doc : Document) : value :=
  match getMeta doc "score" with
  | Some (VFloat scoreFloat) => VFloat (similarity scoreFloat)
  | Some _ => VFloat 0
  | None => VFloat 0
  end.

(** The body of [if !seenDocIDs[docID] { ... }]. *)
Definition emit (docID method : string) (finalScore : Document -> value)
    (doc : Document) (st : mergeState) : outcome mergeState :=
  let seen := {[docID]} ∪ seenDocIDs st in
  doc ← setMeta "search_method" (VStr method) doc;
  doc ← setMeta "round_robin_order" (VInt (len (mergedDocs st))) doc;
  doc ← setMeta "final_score" (finalScore doc) doc;
  Ok (mkMergeState seen (append1 (mergedDocs st) doc)).

Definition dualStep (dualDocs : slice Document) (i : nat) (st : mergeState)
  : outcome mergeState :=
  match elems dualDocs !! i with
  | Some doc =>
      let id := docID "dual_" i doc in
      if decide (id ∈ seenDocIDs st) then Ok st
      else emit id "dual_level" dualFinalScore doc st
  | None => Ok st
  end.

Definition vectorStep (vectorDocs : slice Document) (i : nat) (st : mergeState)
  : outcome mergeState :=
  match elems vectorDocs !! i with
  | Some doc =>
      let id := docID "vector_" i doc in
      if decide (id ∈ seenDocIDs st) then Ok st
      else emit id "vector_enhanced" vectorFinalScore doc st
  | None => Ok st
  end.

(** Step 3 of [HybridSearch] and the final truncation. *)
Definition mergeRoundRobin (dualDocs vectorDocs : slice Document) (topK : Z)
  : outcome (slice Document) :=
  let maxLen :=
    if len dualDocs <? len vectorDocs
    then length (elems vectorDocs) else length (elems dualDocs) in
  st ← forRange maxLen 0
         (fun i st => st ← dualStep dualDocs i st; vectorStep vectorDocs i st)
         (mkMergeState ∅ NilSlice);
  let finalDocs := mergedDocs st in
  if topK <? len finalDocs then slice_to nilDocument finalDocs topK
  else Ok finalDocs.

Definition HybridSearch (query : string) (topK : Z)
  : outcome (slice Document * error) :=
  '(dualDocs, err) ← DualLevelRetrieval query topK;
  let dualDocs := match err with Some _ => lit [] | None => dualDocs end in
  '(vectorDocs, err) ← VectorSearchEnhanced query topK;
  let vectorDocs := match err with Some _ => lit [] | None => vectorDocs end in
  finalDocs ← mergeRoundRobin dualDocs vectorDocs topK;
  Ok (finalDocs, None).

End Search.

End Hybrid.

(** ** Graph query understanding and graph search ([graph_reterval.go]) *)

Module GraphRAG.

(** A [(T, error)] pair of which the callers use one component. *)
Inductive result (A : Type) : Type :=
| Val (a : A)
| Err (e : string).
Arguments Val {A} a.
Arguments Err {A} e.

(** [type QueryType string] *)
Definition QueryType : Type := string.
Definition EntityRelation : QueryType := "entity_relation".
Definition MultiHop : QueryType := "multi_hop".
Definition Subgraph : QueryType := "subgraph".
Definition PathFinding : QueryType := "path_finding".
Definition Clustering : QueryType := "clustering".

Record GraphQuery : Type := mkGraphQuery {
  QueryType_ : QueryType;
  SourceEntities : list string;
  TargetEntities : list string;
  RelationTypes : list string;
  MaxDepth : Z;
  MaxNodes : Z;
  Constraints : option (gmap string value)
}.

(** The structure the answer of the language model is decoded into. *)
Module QueryAnalysisResult.
Record t : Type := mk {
  QueryType : string;
  SourceEntities : list string;
  TargetEntities : list string;
  RelationTypes : list string;
  MaxDepth : Z;
  Reasoning : string
}.
End QueryAnalysisResult.

Inductive Driver : Type := Neo4jDriver.

(** The fields of [GraphRAGRetrieval] the search reads; [driver] is [None]
    until [Initialize] has connected to the graph store. *)
Record GraphRAGRetrieval : Type := mkGraphRAGRetrieval {
  driver : option Driver
}.

Section Retrieval.

(** The collaborators: the prompt template, the language model, the
    JSON decoder of [encoding/json], the two graph traversals followed
    by their conversion to documents, and the sort of [sort.Slice]. *)
Variable Messages : Type.
Variable Format : string -> result Messages.
Variable Generate : Messages -> result string.
Variable Unmarshal : string -> result QueryAnalysisResult.t.
Variable pathDocuments : GraphQuery -> string -> result (list Document).
Variable subgraphDocuments : GraphQuery -> string -> result (list Document).
Variable rankByGraphRelevance : list Document -> list Document.

(** The plan returned when the model or the decoder fails. *)
Definition fallbackPlan (query : string) : GraphQuery :=
  mkGraphQuery Subgraph [query] [] [] 2 50 None.

Definition UnderstandGraphQuery (query : string) : option GraphQuery * error :=
  match Format query with
  | Err e => (None, Some ("模板格式化失败: " +:+ e))
  | Val messages =>
      match Generate messages with
      | Err _ => (Some (fallbackPlan query), None)
      | Val content =>
          match Unmarshal content with
          | Err _ => (Some (fallbackPlan query), None)
          | Val result =>
              let t := QueryAnalysisResult.QueryType result in
              let queryType :=
                if String.eqb t "entity_relation" then EntityRelation
                else if String.eqb t "multi_hop" then MultiHop
                else if String.eqb t "subgraph" then Subgraph
                else if String.eqb t "path_finding" then PathFinding
                else if String.eqb t "clustering" then Clustering
                else Subgraph in
              let maxDepth :=
                if QueryAnalysisResult.MaxDepth result =? 0 then 2
                else QueryAnalysisResult.MaxDepth result in
              (Some (mkGraphQuery queryType
                       (QueryAnalysisResult.SourceEntities result)
                       (QueryAnalysisResult.TargetEntities result)
                       (QueryAnalysisResult.RelationTypes result)
                       maxDepth 50 None),
               None)
          end
      end
  end.

(** Step 2 of [GraphRAGSearch]: a failed traversal is logged and
    contributes nothing. *)
Definition collect (graphQuery : GraphQuery) (query : string) : slice Document :=
  let t := QueryType_ graphQuery in
  if String.eqb t MultiHop || String.eqb t PathFinding then
    match pathDocuments graphQuery query with
    | Val docs => append NilSlice docs
    | Err _ => NilSlice
    end
  else if String.eqb t Subgraph then
    match subgraphDocuments graphQuery query with
    | Val docs => append NilSlice docs
    | Err _ => NilSlice
    end
  else if String.eqb t EntityRelation then
    match pathDocuments graphQuery query with
    | Val docs => append NilSlice docs
    | Err _ => NilSlice
    end
  else NilSlice.

Definition rank (results : slice Document) : slice Document :=
  match results with
  | NilSlice => NilSlice
  | Slice l c => Slice (rankByGraphRelevance l) c
  end.

Definition GraphRAGSearch (g : GraphRAGRetrieval) (query : string) (topK : Z)
  : outcome (slice Document * error) :=
  match driver g with
  | None => Ok (lit [], None)
  | Some _ =>
      match UnderstandGraphQuery query with
      | (_, Some e) => Ok (NilSlice, Some ("查询意图理解失败: " +:+ e))
      | (None, None) => Panic NilDereference
      | (Some graphQuery, None) =>
          let results := rank (collect graphQuery query) in
          let topK := if len results <? topK then len results else topK in
          results ← slice_to nilDocument results topK;
          Ok (results, None)
      end
  end.

End Retrieval.

End GraphRAG.

(** ** Dispatch of a routed query ([intelligent_query_router.go]) *)

Module Dispatch.

Import Strings Router.

(** The calls the router makes to its two retrieval modules. *)
Inductive call : Type :=
| CallHybridSearch (query : string) (topK : Z)
| CallGraphRAGSearch (query : string) (topK : Z).

(** A computation together with the calls it made, in order. *)
Definition traced (A : Type) : Type := (list call * outcome A)%type.

#[global] Instance traced_ret : MRet traced := fun A a => ([], Ok a).
#[global] Instance traced_bind : MBind traced :=
  fun A B k m =>
    match m with
    | (calls, Ok a) => let '(calls', r) := k a in (calls ++ calls', r)
    | (calls, Panic p) => (calls, Panic p)
    end.

Definition untraced {A} (m : outcome A) : traced A := ([], m).

(** [min] *)
Definition min (a b : Z) : Z := if a <? b then a else b.

(** [hashString]: reading [s[0]] of the empty string panics. *)
Definition hashString (s : string) : outcome string :=
  match s with
  | EmptyString => Panic IndexOutOfRange
  | String c _ => Ok (Sprintf_x (Z.lxor (strlen s) (byte_of c)))
  end.

(** [hashString(doc.Content[:min(100, len(doc.Content))])] *)
Definition contentHash (doc : Document) : outcome string :=
  hashString
    (prefix_bytes (Z.to_nat (min 100 (strlen (Content doc)))) (Content doc)).

(** [seenContents] is a [map[string]bool] holding only [true]. *)
Record combineState : Type := mkCombineState {
  seenContents : gset string;
  combinedDocs : slice Document
}.

Definition combineStep (source : string) (docs : slice Document) (i : nat)
    (st : combineState) : outcome combineState :=
  match elems docs !! i with
  | Some doc =>
      hash ← contentHash doc;
      if decide (hash ∈ seenContents st) then Ok st
      else
        let seen := {[hash]} ∪ seenContents st in
        doc ← setMeta "search_source" (VStr source) (ensureMeta doc);
        Ok (mkCombineState seen (append1 (combinedDocs st) doc))
  | None => Ok st
  end.

(** The merge of [executeCombinedSearch] and its truncation. *)
Definition mergeCombined (graphDocs traditionalDocs : slice Document) (topK : Z)
  : outcome (slice Document) :=
  let maxLen :=
    if len traditionalDocs <? len graphDocs
    then length (elems graphDocs) else length (elems traditionalDocs) in
  st ← forRange maxLen 0
         (fun i st =>
            st ← combineStep "graph_rag" graphDocs i st;
            combineStep "traditional" traditionalDocs i st)
         (mkCombineState ∅ NilSlice);
  let combinedDocs := combinedDocs st in
  if topK <? len combinedDocs then slice_to nilDocument combinedDocs topK
  else Ok combinedDocs.

(** The split of [topK] between the two retrievals of the combined
    strategy: [traditionalK := topK / 2], raised to 1 when below, and
    [graphK := topK - traditionalK]. *)
Definition traditionalShare (topK : Z) : Z :=
  let traditionalK := quot topK 2 in
  if traditionalK <? 1 then 1 else traditionalK.

Definition graphShare (topK : Z) : Z := sub topK (traditionalShare topK).

Section Routing.

(** [r.traditionalRetrieval.HybridSearch] and
    [r.graphRAGRetrieval.GraphRAGSearch]. *)
Variable HybridSearch : string -> Z -> outcome (slice Document * error).
Variable GraphRAGSearch : string -> Z -> outcome (slice Document * error).

Definition callHybridSearch (query : string) (topK : Z)
  : traced (slice Document * error) :=
  ([CallHybridSearch query topK], HybridSearch query topK).

Definition callGraphRAGSearch (query : string) (topK : Z)
  : traced (slice Document * error) :=
  ([CallGraphRAGSearch query topK], GraphRAGSearch query topK).

Definition executeCombinedSearch (query : string) (topK : Z)
  : traced (slice Document * error) :=
  let traditionalK := traditionalShare topK in
  let graphK := graphShare topK in
  '(traditionalDocs, err1) ← callHybridSearch query traditionalK;
  let traditionalDocs :=
    match err1 with Some _ => lit [] | None => traditionalDocs end in
  '(graphDocs, err2) ← callGraphRAGSearch query graphK;
  let graphDocs :=
    match err2 with Some _ => lit [] | None => graphDocs end in
  combinedDocs ← untraced (mergeCombined graphDocs traditionalDocs topK);
  mret (combinedDocs, None).

(** The [switch] of [RouteQuery]. *)
Definition dispatch (strategy : SearchStrategy) (query : string) (topK : Z)
  : traced (slice Document * error) :=
  if String.eqb strategy HybridTraditional then callHybridSearch query topK
  else if String.eqb strategy GraphRAG then callGraphRAGSearch query topK
  else if String.eqb strategy Combined then executeCombinedSearch query topK
  else callHybridSearch query topK.

(** [RouteQuery].  The statistics are updated before the dispatch and
    stay updated whatever the dispatch does. *)
Definition RouteQuery (stats : RouteStatistics) (query : string) (topK : Z)
  : RouteStatistics * traced (slice Document * QueryAnalysis * error) :=
  let '(analysis, err) := AnalyzeQuery query in
  let analysis :=
    match err with Some _ => ruleBasedAnalysis query | None => analysis end in
  let stats := updateRouteStats stats (RecommendedStrategy analysis) in
  (stats,
   '(documents, err) ← dispatch (RecommendedStrategy analysis) query topK;
   documents ←
     match err with
     | Some _ =>
         '(documents, _) ← callHybridSearch query topK;
         mret documents
     | None => mret documents
     end;
   let documents := postProcessResults documents analysis in
   mret (documents, analysis, None)).

End Routing.

(** The statistics of a router after a sequence of [RouteQuery] calls, each
    given by its query and its [topK]. *)
Definition statsAfter (HybridSearch GraphRAGSearch : string -> Z -> outcome (slice Document * error))
    (calls : list (string * Z)) (stats : RouteStatistics) : RouteStatistics :=
  foldl (fun stats '(query, topK) =>
           fst (RouteQuery HybridSearch GraphRAGSearch stats query topK))
    stats calls.

(** The total is the sum of the three strategy counters, and every ratio is
    its counter divided by the total, or 0 while the total is 0. *)
Definition consistent (st : RouteStatistics) : Prop :=
  TotalQueries st = TraditionalCount st + GraphRAGCount st + CombinedCount st /\
  (TotalQueries st = 0 ->
     TraditionalRatio st = 0%Q /\ GraphRAGRatio st = 0%Q /\ CombinedRatio st = 0%Q) /\
  (TotalQueries st <> 0 ->
     TraditionalRatio st
       = (float64 (TraditionalCount st) / float64 (TotalQueries st))%Q /\
     GraphRAGRatio st
       = (float64 (GraphRAGCount st) / float64 (TotalQueries st))%Q /\
     CombinedRatio st
       = (float64 (CombinedCount st) / float64 (TotalQueries st))%Q).

(** What is known of the statistics after [n] routed queries. *)
Definition counted (n : Z) (st : RouteStatistics) : Prop :=
  TotalQueries st = n /\
  0 <= TraditionalCount st /\ 0 <= GraphRAGCount st /\ 0 <= CombinedCount st /\
  consistent st.

(** No counter of [st'] is below its value in [st]. *)
Definition grown (st st' : RouteStatistics) : Prop :=
  TraditionalCount st <= TraditionalCount st' /\
  GraphRAGCount st <= GraphRAGCount st' /\
  CombinedCount st <= CombinedCount st' /\
  TotalQueries st <= TotalQueries st'.

End Dispatch.

(** ** The enhanced vector search ([hybrid_retrieval.go]) *)

Module VectorSearch.

Import Strings GraphRAG.

Record RetrievalResult : Type := mkRetrievalResult {
  rContent : string;
  NodeID : string;
  NodeType : string;
  RelevanceScore : Q;
  RetrievalLevel : string;
  Metadata : option (gmap string value)
}.

(** [strings.Join(elems, sep)] *)
Fixpoint Join (l : list string) (sep : string) : string :=
  match l with
  | [] => EmptyString
  | [s] => s
  | s :: rest => s +:+ sep +:+ Join rest sep
  end.

Definition newline : string := String (Ascii.ascii_of_nat 10) EmptyString.

Section Enhanced.

(** [strings.ToLower] *)
Variable ToLower : string -> string.

(** The graph store connection of the hybrid module. *)
Variable driver : option Driver.

(** The [name] column of the records the neighbour query returns for a
    node and a limit, or the error of the session. *)
Variable runNeighborQuery : string -> Z -> result (list value).

(** The loop of [getNodeNeighbors] over the records. *)
Fixpoint neighborNames (records : list value) (neighbors : slice string)
  : slice string :=
  match records with
  | [] => neighbors
  | VStr nameStr :: rest =>
      if String.eqb nameStr EmptyString then neighborNames rest neighbors
      else neighborNames rest (append1 neighbors nameStr)
  | _ :: rest => neighborNames rest neighbors
  end.

Definition getNodeNeighbors (nodeID : string) (maxNeighbors : Z)
  : outcome (slice string * error) :=
  match driver with
  | None => Panic NilDereference
  | Some _ =>
      match runNeighborQuery nodeID maxNeighbors with
      | Err e => Ok (NilSlice, Some e)
      | Val records => Ok (neighborNames records NilSlice, None)
      end
  end.

Definition matches (entity : RetrievalResult) (query : string) : bool :=
  Contains (ToLower (rContent entity)) (ToLower query).

(** The body of the loop over [h.entityCache] for a matching entity. *)
Definition enhance (nodeID : string) (entity : RetrievalResult)
  : outcome RetrievalResult :=
  '(neighbors, _) ← getNodeNeighbors nodeID 3;
  content ←
    (if 0 <? Go.len neighbors then
       shown ← slice_to EmptyString neighbors 3;
       Ok (rContent entity +:+ newline +:+ "相关信息: "
           +:+ Join (elems shown) ", ")
     else Ok (rContent entity));
  Ok (mkRetrievalResult content nodeID (NodeType entity) (8 # 10) "vector"
        (Metadata entity)).

(** [for nodeID, entity := range h.entityCache], the entries arriving
    in the order [entries]; the loop ends early once [topK] results
    are collected. *)
Fixpoint scanCache (entries : list (string * RetrievalResult)) (query : string)
    (topK : Z) (mockResults : slice RetrievalResult)
  : outcome (slice RetrievalResult) :=
  match entries with
  | [] => Ok mockResults
  | (nodeID, entity) :: rest =>
      if matches entity query then
        r ← enhance nodeID entity;
        let mockResults := append1 mockResults r in
        if topK <=? Go.len mockResults then Ok mockResults
        else scanCache rest query topK mockResults
      else scanCache rest query topK mockResults
  end.

(** The conversion of one result to a document. *)
Definition toDocument (r : RetrievalResult) : Document :=
  let recipeName :=
    match default ∅ (Metadata r) !! "name" with
    | Some (VStr nameStr) => nameStr
    | _ => "未知菜品"
    end in
  let metadata := default ∅ (Metadata r) in
  let metadata := <["recipe_name" := VStr recipeName]> metadata in
  let metadata := <["score" := VFloat (RelevanceScore r)]> metadata in
  let metadata := <["search_type" := VStr "vector_enhanced"]> metadata in
  mkDocument EmptyString (rContent r) (Some metadata).

Definition VectorSearchEnhancedIn (entries : list (string * RetrievalResult))
    (query : string) (topK : Z) : outcome (slice Document * error) :=
  mockResults ← scanCache entries query topK NilSlice;
  Ok (foldl append1 NilSlice (map toDocument (elems mockResults)), None).

(** [VectorSearchEnhanced] on an entity cache: one run for each order
    in which the runtime may hand out the entries of the map. *)
Definition VectorSearchEnhanced (entityCache : gmap string RetrievalResult)
    (query : string) (topK : Z) (r : outcome (slice Document * error)) : Prop :=
  exists entries,
    entries ≡ₚ map_to_list entityCache /\
    r = VectorSearchEnhancedIn entries query topK.

(** The neighbour names [getNodeNeighbors] hands to the search for a
    node, the nil slice when the query fails. *)
Definition neighborsOf (nodeID : string) : slice string :=
  match runNeighborQuery nodeID 3 with
  | Err _ => NilSlice
  | Val records => neighborNames records NilSlice
  end.

(** The node has one or two neighbours. *)
Definition fewNeighbors (nodeID : string) : Prop :=
  (1 <= length (elems (neighborsOf nodeID)) <= 2)%nat.

End Enhanced.

End VectorSearch.

(** ** The keyword index ([GraphIndexingModule]) *)

Module KeywordIndex.

Record EntityKeyValue : Type := mkEntityKeyValue {
  EntityName : string;
  eIndexKeys : list string;
  eValueContent : string;
  EntityType : string;
  eMetadata : option (gmap string value)
}.

Record RelationKeyValue : Type := mkRelationKeyValue {
  RelationID : string;
  rIndexKeys : list string;
  rValueContent : string;
  RelationType : string;
  SourceEntity : string;
  TargetEntity : string;
  rMetadata : option (gmap string value)
}.

Record GraphIndexingModule : Type := mkGraphIndexingModule {
  entityKVStore : gmap string EntityKeyValue;
  relationKVStore : gmap string RelationKeyValue;
  keyToEntities : gmap string (list string);
  keyToRelations : gmap string (list string)
}.

(** [m[key] = append(m[key], id)]; a missing key reads as the nil slice. *)
Definition addKey (id : string) (m : gmap string (list string)) (key : string)
  : gmap string (list string) :=
  <[key := default [] (m !! key) ++ [id]]> m.

(** [for _, key := range keys { m[key] = append(m[key], id) }] *)
Definition addKeys (m : gmap string (list string)) (id : string)
    (keys : list string) : gmap string (list string) :=
  foldl (addKey id) m keys.

(** The two loops of [rebuildKeyMappings], the entries of each store
    arriving in the given order. *)
Definition rebuildEntities (entries : list (string * EntityKeyValue))
  : gmap string (list string) :=
  foldl (fun m '(entityID, entityKV) => addKeys m entityID (eIndexKeys entityKV))
    ∅ entries.

Definition rebuildRelations (entries : list (string * RelationKeyValue))
  : gmap string (list string) :=
  foldl (fun m '(relationID, relationKV) =>
           addKeys m relationID (rIndexKeys relationKV))
    ∅ entries.

Definition rebuildKeyMappingsIn (entities : list (string * EntityKeyValue))
    (relations : list (string * RelationKeyValue)) (g : GraphIndexingModule)
  : GraphIndexingModule :=
  mkGraphIndexingModule (entityKVStore g) (relationKVStore g)
    (rebuildEntities entities) (rebuildRelations relations).

(** [rebuildKeyMappings]: [g'] is a state the rebuild of [g] can end in,
    for some order in which the runtime hands out the entries of the two
    stores. *)
Definition rebuildKeyMappings (g g' : GraphIndexingModule) : Prop :=
  exists entities relations,
    entities ≡ₚ map_to_list (entityKVStore g) /\
    relations ≡ₚ map_to_list (relationKVStore g) /\
    g' = rebuildKeyMappingsIn entities relations g.

(** [GetEntitiesByKey] and [GetRelationsByKey]; an identifier without an
    entry in the store is skipped. *)
Definition GetEntitiesByKey (g : GraphIndexingModule) (key : string)
  : list EntityKeyValue :=
  omap (fun entityID => entityKVStore g !! entityID)
    (default [] (keyToEntities g !! key)).

Definition GetRelationsByKey (g : GraphIndexingModule) (key : string)
  : list RelationKeyValue :=
  omap (fun relationID => relationKVStore g !! relationID)
    (default [] (keyToRelations g !! key)).

(** The identifiers a rebuild files under [key]: the identifier of every
    entry, once for each occurrence of [key] among its index keys, in the
    order of the entries. *)
Definition idsFor {V : Type} (keysOf : V -> list string) (key : string)
    (entries : list (string * V)) : list string :=
  entries ≫= (fun '(id, kv) => List.filter (String.eqb key) (keysOf kv) ≫= (fun _ => [id])).

(** Two states hold the same key to identifier mappings. *)
Definition sameMappings (g1 g2 : GraphIndexingModule) : Prop :=
  forall key,
    keyToEntities g1 !! key = keyToEntities g2 !! key /\
    keyToRelations g1 !! key = keyToRelations g2 !! key.

(** Two states file the same identifiers under every key, each as often in
    one as in the other, and so return the same entries for every key up to
    their order. *)
Definition sameMappingsUpToOrder (g1 g2 : GraphIndexingModule) : Prop :=
  forall key,
    default [] (keyToEntities g1 !! key) ≡ₚ default [] (keyToEntities g2 !! key) /\
    default [] (keyToRelations g1 !! key) ≡ₚ default [] (keyToRelations g2 !! key) /\
    (is_Some (keyToEntities g1 !! key) <-> is_Some (keyToEntities g2 !! key)) /\
    (is_Some (keyToRelations g1 !! key) <-> is_Some (keyToRelations g2 !! key)) /\
    GetEntitiesByKey g1 key ≡ₚ GetEntitiesByKey g2 key /\
    GetRelationsByKey g1 key ≡ₚ GetRelationsByKey g2 key.

End KeywordIndex.

(** ** Reference definitions

    The notions the specification uses to describe the code: the round
    robin interleaving of two streams, the deduplication that keeps the
    first item of every key, the number of cue words a query contains and
    the number of white space separated tokens of a query. *)

Module Reference.

Import Strings.

(** Which of the two merged lists an item comes from. *)
Inductive source : Type := First | Second.

(** An item of a stream: its source, its position there, the document. *)
Record item : Type := mkItem {
  itemSource : source;
  itemPos : nat;
  itemDoc : Document
}.

Definition stream (src : source) (docs : list Document) : list item :=
  imap (fun i doc => mkItem src i doc) docs.

(** Position 0 of the first stream, position 0 of the second, position 1
    of the first, and so on; when one stream ends the other goes on
    alone. *)
Fixpoint interleave {A : Type} (xs ys : list A) : list A :=
  match xs, ys with
  | x :: xs', y :: ys' => x :: y :: interleave xs' ys'
  | [], _ => ys
  | _, [] => xs
  end.

(** Drop every item whose key an earlier item (or [seen]) already has. *)
Fixpoint skipSeen {A : Type} (key : A -> string) (seen : gset string) (l : list A)
  : list A :=
  match l with
  | [] => []
  | x :: rest =>
      if decide (key x ∈ seen) then skipSeen key seen rest
      else x :: skipSeen key ({[key x]} ∪ seen) rest
  end.

(** The first [topK] items of the round robin interleaving that carry a
    key not met before. *)
Definition roundRobin (key : item -> string) (first second : list Document)
    (topK : Z) : list item :=
  take (Z.to_nat topK)
    (skipSeen key ∅ (interleave (stream First first) (stream Second second))).

(** Running a step over a list, stopping at the first panic. *)
Fixpoint foldM {S X : Type} (step : X -> S -> outcome S) (l : list X) (st : S)
  : outcome S :=
  match l with
  | [] => Ok st
  | x :: rest => st' ← step x st; foldM step rest st'
  end.

(** The number of keywords of [keywords] that occur in [query]. *)
Definition hits (query : string) (keywords : list string) : nat :=
  length (List.filter (Contains query) keywords).

(** The number of maximal runs of bytes outside white space. *)
Fixpoint countRuns (inField : bool) (flags : list bool) : nat :=
  match flags with
  | [] => O
  | true :: rest => countRuns false rest
  | false :: rest => ((if inField then 0 else 1) + countRuns true rest)%nat
  end.

Definition tokenCount (s : string) : nat := countRuns false (spaceFlags s 0).

(** [max(0, x)] *)
Definition max0 (x : Q) : Q := Qmax 0 x.

End Reference.

(** ** The two merges, item by item

    What each merge does with one item of the interleaved streams, the
    identifier it deduplicates on and the document it emits. *)

Module MergeModel.

Import Strings Reference Hybrid Dispatch.

Section HybridItems.

Variable Sprintf_v : value -> string.

Definition hybridPrefix (src : source) : string :=
  match src with First => "dual_" | Second => "vector_" end.

Definition hybridMethod (src : source) : string :=
  match src with First => "dual_level" | Second => "vector_enhanced" end.

Definition hybridScore (src : source) (doc : Document) : value :=
  match src with
  | First => dualFinalScore doc
  | Second => vectorFinalScore doc
  end.

(** The identifier [HybridSearch] deduplicates an item on. *)
Definition hybridKey (it : item) : string :=
  docID Sprintf_v (hybridPrefix (itemSource it)) (itemPos it) (itemDoc it).

(** The document [HybridSearch] emits for an item that becomes element [j]
    of the merged list. *)
Definition hybridOut (j : nat) (it : item) : Document :=
  let doc := itemDoc it in
  mkDocument (ID doc) (Content doc)
    (Some (<["final_score" := hybridScore (itemSource it) doc]>
           (<["round_robin_order" := VInt (Z.of_nat j)]>
            (<["search_method" := VStr (hybridMethod (itemSource it))]>
             (default ∅ (MetaData doc)))))).

(** One item of the loop of [HybridSearch]. *)
Definition hybridItem (it : item) (st : mergeState) : outcome mergeState :=
  if decide (hybridKey it ∈ seenDocIDs st) then Ok st
  else emit (hybridKey it) (hybridMethod (itemSource it))
         (hybridScore (itemSource it)) (itemDoc it) st.

End HybridItems.

(** The content hash of a document, the empty string standing for the panic on an
    empty content. *)
Definition contentKey (doc : Document) : string :=
  match contentHash doc with
  | Ok hash => hash
  | Panic _ => EmptyString
  end.

Definition combinedSource (src : source) : string :=
  match src with First => "graph_rag" | Second => "traditional" end.

Definition combinedKey (it : item) : string := contentKey (itemDoc it).

(** The document [executeCombinedSearch] emits for an item. *)
Definition combinedOut (it : item) : Document :=
  let doc := itemDoc it in
  mkDocument (ID doc) (Content doc)
    (Some (<["search_source" := VStr (combinedSource (itemSource it))]>
           (default ∅ (MetaData doc)))).

(** One item of the loop of [executeCombinedSearch]. *)
Definition combinedItem (it : item) (st : combineState) : outcome combineState :=
  hash ← contentHash (itemDoc it);
  if decide (hash ∈ seenContents st) then Ok st
  else
    doc ← setMeta "search_source" (VStr (combinedSource (itemSource it)))
            (ensureMeta (itemDoc it));
    Ok (mkCombineState ({[hash]} ∪ seenContents st)
          (append1 (combinedDocs st) doc)).

(** The origin of a document: its [node_id] annotation. *)
Definition originId (doc : Document) : option value := getMeta doc "node_id".

(** The item's document carries an annotation map. *)
Definition annotated (it : item) : Prop := MetaData (itemDoc it) <> None.

(** The item's document has some content. *)
Definition nonempty (it : item) : Prop := Content (itemDoc it) <> EmptyString.

(** No two documents of a list share an origin. *)
Definition distinctOrigins (docs : list Document) : Prop :=
  forall i j v,
    i <> j -> (originId <$> docs) !! i = Some (Some v) ->
    (originId <$> docs) !! j <> Some (Some v).

(** A merge that deduplicates on the origin, as the merge of [HybridSearch]
    does: its result never holds two documents of one origin, and holds, in
    order, the documents of the first [topK] items of the round robin
    interleaving whose identifier was not met before. *)
Definition mergesByOrigin (Sprintf_v : value -> string)
    (merge : slice Document -> slice Document -> Z -> outcome (slice Document))
  : Prop :=
  forall first second topK out,
    merge first second topK = Ok out ->
    distinctOrigins (elems out) /\
    Content <$> elems out
    = (fun it => Content (itemDoc it))
        <$> roundRobin (hybridKey Sprintf_v) (elems first) (elems second) topK.

(** The score the specification asks of an emitted document: the relevance
    score of a dual level document as it is, the similarity
    max(0, 1 - distance) of a vector document, 0 without a usable score. *)
Definition normalised (src : source) (doc : Document) (final : value) : Prop :=
  match src with
  | First =>
      final = default (VFloat 0) (getMeta doc "relevance_score")
  | Second =>
      exists f, final = VFloat f /\
        (f == match getMeta doc "score" with
              | Some (VFloat distance) => max0 (1 - distance)
              | _ => 0
              end)%Q
  end.

End MergeModel.

(** ** Concrete inputs

    The inputs at which the properties below are exercised. *)

Module Examples.

Import Strings Router Dispatch Reference MergeModel.

(** A retrieval module that finds nothing. *)
Definition findsNothing (query : string) (topK : Z)
  : outcome (slice Document * error) := Ok (NilSlice, None).

(** One relation cue out of eight: routed to the hybrid retrieval. *)
Definition simpleQuery : string := "鸡肉配什么蔬菜？".

(** Three relation cues: routed to the combined strategy. *)
Definition mediumQuery : string := "搭配 组合 相关".

(** Five relation cues: routed to the graph retrieval. *)
Definition relationalQuery : string := "配搭配组合相关联系".

(** A rendering of annotation values that prints strings, integers,
    booleans and nil as [%v] does. *)
Definition render (v : value) : string :=
  match v with
  | VStr s => s
  | VInt n => Sprintf_d n
  | VBool true => "true"
  | VBool false => "false"
  | VNil => "<nil>"
  | VFloat _ => "float"
  | VStrings _ => "strings"
  end.

(** A formatter that succeeds, used only where the template is never
    reached, and one that fails, as formatting the templates of the
    repository does. *)
Definition formats (query : string) : GraphRAG.result unit := GraphRAG.Val tt.
Definition formatFails (query : string) : GraphRAG.result unit :=
  GraphRAG.Err "missing variable".

Definition doubleQuote : string := String (Ascii.ascii_of_nat 34) EmptyString.

(** The answer [{"max_depth": -1}] of the language model. *)
Definition negativeDepthAnswer : string :=
  "{" +:+ doubleQuote +:+ "max_depth" +:+ doubleQuote +:+ ": -1}".

Definition modelUnavailable (messages : unit) : GraphRAG.result string :=
  GraphRAG.Err "deadline exceeded".

(** A decoder that knows the answer above, in which every field but the
    depth keeps its zero value, and rejects any other text. *)
Definition decode (content : string)
  : GraphRAG.result GraphRAG.QueryAnalysisResult.t :=
  if String.eqb content negativeDepthAnswer then
    GraphRAG.Val (GraphRAG.QueryAnalysisResult.mk EmptyString [] [] [] (-1) EmptyString)
  else GraphRAG.Err "invalid character".

Definition noDocuments (graphQuery : GraphRAG.GraphQuery) (query : string)
  : GraphRAG.result (list Document) := GraphRAG.Val [].

Definition keepOrder (documents : list Document) : list Document := documents.

(** A graph retrieval module that was never connected to the graph store,
    and a connected one. *)
Definition unconnected : GraphRAG.GraphRAGRetrieval :=
  GraphRAG.mkGraphRAGRetrieval None.
Definition connected : GraphRAG.GraphRAGRetrieval :=
  GraphRAG.mkGraphRAGRetrieval (Some GraphRAG.Neo4jDriver).

(** The graph search of the repository on these collaborators. *)
Definition graphSearch (format : string -> GraphRAG.result unit)
    (g : GraphRAG.GraphRAGRetrieval) : string -> Z -> outcome (slice Document * error) :=
  GraphRAG.GraphRAGSearch unit format modelUnavailable decode
    noDocuments noDocuments keepOrder g.

(** The hybrid search of the repository when both retrievals find
    nothing. *)
Definition hybridSearch : string -> Z -> outcome (slice Document * error) :=
  Hybrid.HybridSearch render findsNothing findsNothing.

(** Two entities indexed under the same key. *)
Definition chickenA : KeywordIndex.EntityKeyValue :=
  KeywordIndex.mkEntityKeyValue "鸡肉" ["鸡肉"] "食材名称: 鸡肉" "Ingredient" None.
Definition chickenB : KeywordIndex.EntityKeyValue :=
  KeywordIndex.mkEntityKeyValue "鸡肉" ["鸡肉"] "食材名称: 鸡肉" "Ingredient" None.

Definition twoChickens : KeywordIndex.GraphIndexingModule :=
  KeywordIndex.mkGraphIndexingModule
    (<["i1" := chickenA]> {["i2" := chickenB]}) ∅ ∅ ∅.

(** An entity cache with one entity, and a graph store in which that
    entity has a single neighbour. *)
Definition tofu : VectorSearch.RetrievalResult :=
  VectorSearch.mkRetrievalResult "名称: 麻婆豆腐" "n7" "Recipe" (8 # 10) "entity" None.

Definition tofuCache : gmap string VectorSearch.RetrievalResult := {["n7" := tofu]}.

Definition oneNeighbor (nodeID : string) (limit : Z) : GraphRAG.result (list value) :=
  GraphRAG.Val [VStr "豆腐"].

Definition threeNeighbors (nodeID : string) (limit : Z)
  : GraphRAG.result (list value) :=
  GraphRAG.Val [VStr "豆腐"; VStr "花椒"; VStr "牛肉"].

Definition sameCase (s : string) : string := s.

Definition withNode (nodeID content : string) (score : Q) : Document :=
  mkDocument EmptyString content
    (Some (<["relevance_score" := VFloat score]> {["node_id" := VStr nodeID]})).

Definition withScore (content : string) (score : Q) : Document :=
  mkDocument EmptyString content (Some {["score" := VFloat score]}).

(** Two documents of different origins whose contents have the same length
    and first byte, and a third that shares the origin of the first. *)
Definition porkA : Document := withNode "n1" "ab" (9 # 10).
Definition porkB : Document := withNode "n2" "ac" (85 # 100).
Definition porkC : Document := withNode "n1" "bcd" (7 # 10).

(** Scenario C of the specification: three dual level documents, four
    vector documents, one of which has the origin of a dual level one. *)
Definition dualThree : slice Document :=
  lit [withNode "r1" "红烧肉" (9 # 10); withNode "r2" "回锅肉" (9 # 10);
       withNode "r3" "鱼香肉丝" (85 # 100)].

Definition vectorFour : slice Document :=
  lit [withScore "宫保鸡丁" (8 # 10);
       mkDocument EmptyString "回锅肉 做法"
         (Some (<["score" := VFloat (8 # 10)]> {["node_id" := VStr "r2"]}));
       withScore "麻婆豆腐" (8 # 10); withScore "水煮鱼" (12 # 10)].

End Examples.

(** ** Building the keyword index ([GraphIndexingModule]) *)

Module IndexBuild.

Import Strings KeywordIndex.

(** [NewGraphIndexingModule]: the four maps are allocated empty. *)
Definition NewGraphIndexingModule : GraphIndexingModule :=
  mkGraphIndexingModule ∅ ∅ ∅ ∅.

(** The loop of [uniqueStrings]; [seen] is a [map[string]bool] holding
    only [true], [result] starts as the nil slice. *)
Fixpoint uniqueFrom (seen : gset string) (strs : list string) (result : slice string)
  : slice string :=
  match strs with
  | [] => result
  | str :: rest =>
      if decide (str ∈ seen) then uniqueFrom seen rest result
      else uniqueFrom ({[str]} ∪ seen) rest (append1 result str)
  end.

Definition uniqueStrings (strs : list string) : slice string :=
  uniqueFrom ∅ strs NilSlice.

(** [Recipe], [Ingredient] and [CookingStep] are three structs with the
    same three fields, read through the interface [GraphEntity]. *)
Record GraphEntity : Type := mkGraphEntity {
  NodeID : string;
  Name : string;
  Properties : option (gmap string value)
}.

Module Relationship.
Record t : Type := mk {
  SourceID : string;
  RelationType : string;
  TargetID : string
}.
End Relationship.

(** The one field of [Config] the index reads. *)
Record Config : Type := mkConfig {
  Constraints : option (gmap string value)
}.

Section Build.

(** [fmt.Sprintf("%v", x)] for a property value, and the [interface{}]
    value that holds a property map. *)
Variable Sprintf_v : value -> string.
Variable ofProperties : option (gmap string value) -> value.

(** [g.config], a pointer that may be nil. *)
Variable config : option Config.

(** The prompt template, the language model and the JSON decoder that
    [llmEnhanceRelationKeys] calls; [g.llmClient] is taken to hold a
    client, the call on a nil interface would panic. *)
Variable Messages : Type.
Variable Format : gmap string value -> GraphRAG.result Messages.
Variable Generate : Messages -> GraphRAG.result string.
Variable Unmarshal : string -> GraphRAG.result (list string).

(** [if v, exists := props[key]; exists { contentParts = append(contentParts, label + v) }] *)
Definition part (label : string) (props : option (gmap string value)) (key : string)
  : list string :=
  match default ∅ props !! key with
  | Some v => [label +:+ Sprintf_v v]
  | None => []
  end.

Definition entityMetadata (entity : GraphEntity) : option (gmap string value) :=
  Some (<["node_id" := VStr (NodeID entity)]>
         {["properties" := ofProperties (Properties entity)]}).

Definition recipeKV (recipe : GraphEntity) : EntityKeyValue :=
  let entityID := NodeID recipe in
  let entityName :=
    if String.eqb (Name recipe) EmptyString then "菜谱_" +:+ entityID
    else Name recipe in
  let props := Properties recipe in
  let contentParts :=
    ["菜品名称: " +:+ entityName]
    ++ part "描述: " props "description"
    ++ part "分类: " props "category"
    ++ part "菜系: " props "cuisineType"
    ++ part "难度: " props "difficulty"
    ++ part "制作时间: " props "cookingTime" in
  mkEntityKeyValue entityName [entityName]
    (VectorSearch.Join contentParts VectorSearch.newline) "Recipe"
    (entityMetadata recipe).

Definition ingredientKV (ingredient : GraphEntity) : EntityKeyValue :=
  let entityID := NodeID ingredient in
  let entityName :=
    if String.eqb (Name ingredient) EmptyString then "食材_" +:+ entityID
    else Name ingredient in
  let props := Properties ingredient in
  let contentParts :=
    ["食材名称: " +:+ entityName]
    ++ part "类别: " props "category"
    ++ part "营养信息: " props "nutrition"
    ++ part "储存方式: " props "storage" in
  mkEntityKeyValue entityName [entityName]
    (VectorSearch.Join contentParts VectorSearch.newline) "Ingredient"
    (entityMetadata ingredient).

Definition stepKV (step : GraphEntity) : EntityKeyValue :=
  let entityID := NodeID step in
  let entityName := "步骤_" +:+ entityID in
  let props := Properties step in
  let contentParts :=
    ["烹饪步骤: " +:+ entityName]
    ++ part "步骤描述: " props "description"
    ++ part "步骤顺序: " props "order"
    ++ part "技巧: " props "technique"
    ++ part "时间: " props "time" in
  mkEntityKeyValue entityName [entityName]
    (VectorSearch.Join contentParts VectorSearch.newline) "CookingStep"
    (entityMetadata step).

(** [g.entityKVStore[entityID] = entityKV] followed by
    [g.keyToEntities[entityName] = append(g.keyToEntities[entityName], entityID)]. *)
Definition storeEntity (toKV : GraphEntity -> EntityKeyValue)
    (g : GraphIndexingModule) (entity : GraphEntity) : GraphIndexingModule :=
  let entityKV := toKV entity in
  mkGraphIndexingModule
    (<[NodeID entity := entityKV]> (entityKVStore g))
    (relationKVStore g)
    (addKey (NodeID entity) (keyToEntities g) (EntityName entityKV))
    (keyToRelations g).

(** [CreateEntityKeyValues]: the three loops; the map it returns is
    [g.entityKVStore] itself. *)
Definition CreateEntityKeyValues (g : GraphIndexingModule)
    (recipes ingredients cookingSteps : list GraphEntity) : GraphIndexingModule :=
  let g := foldl (storeEntity recipeKV) g recipes in
  let g := foldl (storeEntity ingredientKV) g ingredients in
  foldl (storeEntity stepKV) g cookingSteps.

(** The entries [CreateEntityKeyValues] writes to the entity store, in the
    order in which it writes them. *)
Definition created (recipes ingredients cookingSteps : list GraphEntity)
  : list (string * EntityKeyValue) :=
  ((fun recipe => (NodeID recipe, recipeKV recipe)) <$> recipes)
  ++ ((fun ingredient => (NodeID ingredient, ingredientKV ingredient)) <$> ingredients)
  ++ ((fun step => (NodeID step, stepKV step)) <$> cookingSteps).

(** The [values] handed to the template of [llmEnhanceRelationKeys]: five
    variables, none of them the [role] its system message names. *)
Definition relationValues (sourceEntity targetEntity : EntityKeyValue)
    (relationType : string) : gmap string value :=
  <["source_name" := VStr (EntityName sourceEntity)]>
    (<["source_type" := VStr (EntityType sourceEntity)]>
      (<["target_name" := VStr (EntityName targetEntity)]>
        (<["target_type" := VStr (EntityType targetEntity)]>
          {["relation_type" := VStr relationType]}))).

Definition llmEnhanceRelationKeys (sourceEntity targetEntity : EntityKeyValue)
    (relationType : string) : list string :=
  let values := relationValues sourceEntity targetEntity relationType in
  match Format values with
  | GraphRAG.Err _ => []
  | GraphRAG.Val messages =>
      match Generate messages with
      | GraphRAG.Err _ => []
      | GraphRAG.Val content =>
          match Unmarshal content with
          | GraphRAG.Err _ => []
          | GraphRAG.Val keywords => keywords
          end
      end
  end.

Definition generateRelationIndexKeys (sourceEntity targetEntity : EntityKeyValue)
    (relationType : string) : slice string :=
  let keys := [relationType] in
  let keys :=
    if String.eqb relationType "REQUIRES" then
      keys ++ ["食材搭配"; "烹饪原料"; EntityName sourceEntity +:+ "_食材";
               EntityName targetEntity]
    else if String.eqb relationType "HAS_STEP" then
      keys ++ ["制作步骤"; "烹饪过程"; EntityName sourceEntity +:+ "_步骤";
               "制作方法"]
    else if String.eqb relationType "BELONGS_TO_CATEGORY" then
      keys ++ ["菜品分类"; "美食类别"; EntityName targetEntity]
    else keys in
  let keys :=
    match config with
    | Some c =>
        match default ∅ (Constraints c) !! "enable_llm_relation_keys" with
        | Some (VBool true) =>
            keys ++ llmEnhanceRelationKeys sourceEntity targetEntity relationType
        | _ => keys
        end
    | None => keys
    end in
  uniqueStrings keys.

(** [fmt.Sprintf("rel_%d_%s_%s", i, rel.SourceID, rel.TargetID)] *)
Definition relationIDOf (i : nat) (rel : Relationship.t) : string :=
  "rel_" +:+ Sprintf_d (Z.of_nat i) +:+ "_" +:+ Relationship.SourceID rel
  +:+ "_" +:+ Relationship.TargetID rel.

(** The body of the loop of [CreateRelationKeyValues] for the
    relationship at position [i]. *)
Definition storeRelation (g : GraphIndexingModule) (i : nat) (rel : Relationship.t)
  : GraphIndexingModule :=
  let relationID := relationIDOf i rel in
  match entityKVStore g !! Relationship.SourceID rel,
        entityKVStore g !! Relationship.TargetID rel with
  | Some sourceEntity, Some targetEntity =>
      let contentParts :=
        ["关系类型: " +:+ Relationship.RelationType rel;
         "源实体: " +:+ EntityName sourceEntity +:+ " ("
           +:+ EntityType sourceEntity +:+ ")";
         "目标实体: " +:+ EntityName targetEntity +:+ " ("
           +:+ EntityType targetEntity +:+ ")"] in
      let indexKeys :=
        elems (generateRelationIndexKeys sourceEntity targetEntity
                 (Relationship.RelationType rel)) in
      let relationKV :=
        mkRelationKeyValue relationID indexKeys
          (VectorSearch.Join contentParts VectorSearch.newline)
          (Relationship.RelationType rel)
          (Relationship.SourceID rel) (Relationship.TargetID rel)
          (Some (<["source_name" := VStr (EntityName sourceEntity)]>
                  (<["target_name" := VStr (EntityName targetEntity)]>
                    {["created_from_graph" := VBool true]}))) in
      mkGraphIndexingModule (entityKVStore g)
        (<[relationID := relationKV]> (relationKVStore g))
        (keyToEntities g)
        (addKeys (keyToRelations g) relationID indexKeys)
  | _, _ => g
  end.

(** [for i, rel := range relationships], from position [i] on. *)
Fixpoint storeRelations (g : GraphIndexingModule) (i : nat)
    (relationships : list Relationship.t) : GraphIndexingModule :=
  match relationships with
  | [] => g
  | rel :: rest => storeRelations (storeRelation g i rel) (S i) rest
  end.

Definition CreateRelationKeyValues (g : GraphIndexingModule)
    (relationships : list Relationship.t) : GraphIndexingModule :=
  storeRelations g 0 relationships.

End Build.

(** Writing a list of entries to the entity store, each filed under its
    name. *)
Definition storeEntries (g : GraphIndexingModule)
    (entries : list (string * EntityKeyValue)) : GraphIndexingModule :=
  foldl (fun g '(entityID, entityKV) =>
           mkGraphIndexingModule
             (<[entityID := entityKV]> (entityKVStore g))
             (relationKVStore g)
             (addKey entityID (keyToEntities g) (EntityName entityKV))
             (keyToRelations g))
    g entries.

(** Every entry of the entity store is filed under its own name, and every
    entry of the relation store under each of its index keys. *)
Definition filed (g : GraphIndexingModule) : Prop :=
  (forall entityID entityKV,
     entityKVStore g !! entityID = Some entityKV ->
     entityID ∈ default [] (keyToEntities g !! EntityName entityKV)) /\
  (forall relationID relationKV key,
     relationKVStore g !! relationID = Some relationKV ->
     key ∈ rIndexKeys relationKV ->
     relationID ∈ default [] (keyToRelations g !! key)).

(** *** [DeduplicateEntitiesAndRelations] *)

(** [nameToEntities] and [relationSignatureToIDs]: the identifiers of the
    entries of a store, grouped by a key of the entry, the entries arriving
    in the given order. *)
Definition groupIDs {V : Type} (keyOf : V -> string) (entries : list (string * V))
  : gmap string (list string) :=
  foldl (fun m '(id, kv) => addKey id m (keyOf kv)) ∅ entries.

(** [fmt.Sprintf("\n\n补充信息: %s", content)] *)
Definition supplement (content : string) : string :=
  VectorSearch.newline +:+ VectorSearch.newline +:+ "补充信息: " +:+ content.

(** [ids[1:]] under the guard [len(ids) > 1]. *)
Definition duplicates (ids : list string) : list string :=
  match ids with
  | _ :: (_ :: _) as rest => rest
  | _ => []
  end.

(** The body of the inner loop over the duplicates of [primaryID]: both
    entries are read through their pointers, the content of the duplicate
    is added to the primary entry in place, and the duplicate is marked. *)
Definition mergeDuplicate (primaryID entityID : string)
    (st : gmap string EntityKeyValue * list string)
  : outcome (gmap string EntityKeyValue * list string) :=
  let '(store, entitiesToRemove) := st in
  match store !! primaryID, store !! entityID with
  | Some primaryEntity, Some duplicateEntity =>
      let merged :=
        mkEntityKeyValue (EntityName primaryEntity) (eIndexKeys primaryEntity)
          (eValueContent primaryEntity +:+ supplement (eValueContent duplicateEntity))
          (EntityType primaryEntity) (eMetadata primaryEntity) in
      Ok (<[primaryID := merged]> store, entitiesToRemove ++ [entityID])
  | _, _ => Panic NilDereference
  end.

Definition mergeGroup (group : string * list string)
    (st : gmap string EntityKeyValue * list string)
  : outcome (gmap string EntityKeyValue * list string) :=
  let entityIDs := snd group in
  match entityIDs with
  | primaryID :: _ :: _ =>
      Reference.foldM (mergeDuplicate primaryID) (duplicates entityIDs) st
  | _ => Ok st
  end.

(** The entity half: the groups of [nameToEntities] arrive in the order
    [groups]; the marked entries are deleted at the end. *)
Definition dedupEntities (groups : list (string * list string))
    (store : gmap string EntityKeyValue) : outcome (gmap string EntityKeyValue) :=
  '(store, entitiesToRemove) ← Reference.foldM mergeGroup groups (store, []);
  Ok (foldl (fun store entityID => delete entityID store) store entitiesToRemove).

(** [fmt.Sprintf("%s_%s_%s", SourceEntity, TargetEntity, RelationType)] *)
Definition signature (relationKV : RelationKeyValue) : string :=
  SourceEntity relationKV +:+ "_" +:+ TargetEntity relationKV +:+ "_"
  +:+ RelationType relationKV.

(** The relation half: the first identifier of every signature is kept. *)
Definition dedupRelations (groups : list (string * list string))
    (store : gmap string RelationKeyValue) : gmap string RelationKeyValue :=
  let relationsToRemove := groups ≫= (fun group => duplicates (snd group)) in
  foldl (fun store relationID => delete relationID store) store relationsToRemove.

(** [DeduplicateEntitiesAndRelations]: [r] is an outcome the call can have
    on [g], for some order in which the runtime hands out the entries of
    the maps it ranges over. *)
Definition DeduplicateEntitiesAndRelations (g : GraphIndexingModule)
    (r : outcome GraphIndexingModule) : Prop :=
  exists entries groups relationEntries relationGroups,
    entries ≡ₚ map_to_list (entityKVStore g) /\
    groups ≡ₚ map_to_list (groupIDs EntityName entries) /\
    relationEntries ≡ₚ map_to_list (relationKVStore g) /\
    relationGroups ≡ₚ map_to_list (groupIDs signature relationEntries) /\
    match dedupEntities groups (entityKVStore g) with
    | Panic p => r = Panic p
    | Ok entities =>
        exists g',
          rebuildKeyMappings
            (mkGraphIndexingModule entities
               (dedupRelations relationGroups (relationKVStore g))
               (keyToEntities g) (keyToRelations g)) g' /\
          r = Ok g'
    end.

(** The entry [kv'] is the entry [kv] with more content. *)
Definition extends (kv kv' : EntityKeyValue) : Prop :=
  EntityName kv' = EntityName kv /\ eIndexKeys kv' = eIndexKeys kv /\
  EntityType kv' = EntityType kv /\ eMetadata kv' = eMetadata kv /\
  exists more, eValueContent kv' = eValueContent kv +:+ more.

(** The two stores hold the same identifiers, and every entry of the second
    is the entry of the first with more content. *)
Definition extended (store store' : gmap string EntityKeyValue) : Prop :=
  forall id,
    match store !! id, store' !! id with
    | Some kv, Some kv' => extends kv kv'
    | None, None => True
    | _, _ => False
    end.

End IndexBuild.

(** ** Statistics, export and import of the keyword index *)

Module IndexExchange.

Import Strings KeywordIndex IndexBuild.

(** The [interface{}] values met in the maps that [GetStatistics] and
    [ExportToJSON] return and [ImportFromJSON] reads, by dynamic type. *)
#[warnings="-register-all"] Inductive any : Type :=
| AnyEntities (m : gmap string EntityKeyValue)     (* map[string]*EntityKeyValue *)
| AnyRelations (m : gmap string RelationKeyValue)  (* map[string]*RelationKeyValue *)
| AnyCounts (m : gmap string Z)                    (* map[string]int *)
| AnyInt (n : Z)                                   (* int *)
| AnyObject (m : gmap string any)                  (* map[string]interface{} *)
| AnyOther (v : value).                            (* string, float64, bool, []interface{}, nil *)

(** [total += len(kv.IndexKeys)] over the entries of a store. *)
Definition countKeys {V : Type} (keysOf : V -> list string) (entries : list (string * V))
  : Z :=
  foldl (fun total '(_, kv) => wrap64 (total + Z.of_nat (length (keysOf kv))))
    0 entries.

(** The loop over the entity types: a type outside the three initial
    keys is not counted. *)
Definition countTypes (entries : list (string * EntityKeyValue)) : gmap string Z :=
  foldl (fun entityTypes '(_, entityKV) =>
           match entityTypes !! EntityType entityKV with
           | Some count => <[EntityType entityKV := wrap64 (count + 1)]> entityTypes
           | None => entityTypes
           end)
    (<["Recipe" := 0]> (<["Ingredient" := 0]> {["CookingStep" := 0]})) entries.

(** [GetStatistics], its three loops receiving the entries of the stores
    in the given orders. *)
Definition GetStatisticsIn (entities : list (string * EntityKeyValue))
    (relations : list (string * RelationKeyValue))
    (types : list (string * EntityKeyValue)) (g : GraphIndexingModule)
  : gmap string any :=
  let totalEntityKeys := countKeys eIndexKeys entities in
  let totalRelationKeys := countKeys rIndexKeys relations in
  let entityTypes := countTypes types in
  <["total_entities" := AnyInt (Z.of_nat (size (entityKVStore g)))]>
    (<["total_relations" := AnyInt (Z.of_nat (size (relationKVStore g)))]>
      (<["total_entity_keys" := AnyInt totalEntityKeys]>
        (<["total_relation_keys" := AnyInt totalRelationKeys]>
          {["entity_types" := AnyCounts entityTypes]}))).

Definition GetStatistics (g : GraphIndexingModule) (stats : gmap string any) : Prop :=
  exists entities relations types,
    entities ≡ₚ map_to_list (entityKVStore g) /\
    relations ≡ₚ map_to_list (relationKVStore g) /\
    types ≡ₚ map_to_list (entityKVStore g) /\
    stats = GetStatisticsIn entities relations types g.

(** [ExportToJSON]: the two stores themselves and the statistics, with a
    nil error. *)
Definition ExportToJSON (g : GraphIndexingModule) (r : gmap string any * error) : Prop :=
  exists stats,
    GetStatistics g stats /\
    r = (<["entities" := AnyEntities (entityKVStore g)]>
           (<["relations" := AnyRelations (relationKVStore g)]>
             {["statistics" := AnyObject stats]}),
         None).

Section Decoding.

(** [json.Marshal] of a value followed by [json.Unmarshal] of the bytes
    into an [EntityKeyValue] or a [RelationKeyValue]; [None] when the
    decoder returns an error. *)
Variable decodeEntity : any -> option EntityKeyValue.
Variable decodeRelation : any -> option RelationKeyValue.

(** [if m, ok := data[key].(map[string]interface{}); ok { for id, x := range m ... }]:
    the entries the loop ranges over, none when the key is missing or
    holds a value of another type. *)
Definition objectAt (data : gmap string any) (key : string) : gmap string any :=
  match data !! key with
  | Some (AnyObject m) => m
  | _ => ∅
  end.

Definition importEntries {V : Type} (decode : any -> option V)
    (entries : list (string * any)) : gmap string V :=
  foldl (fun store '(id, x) =>
           match decode x with
           | Some kv => <[id := kv]> store
           | None => store
           end)
    ∅ entries.

(** [ImportFromJSON]: the stores are emptied, filled from [data] and the
    key mappings rebuilt; the error is nil. *)
Definition ImportFromJSON (data : gmap string any) (g : GraphIndexingModule)
    (r : GraphIndexingModule * error) : Prop :=
  exists entities relations g',
    entities ≡ₚ map_to_list (objectAt data "entities") /\
    relations ≡ₚ map_to_list (objectAt data "relations") /\
    rebuildKeyMappings
      (mkGraphIndexingModule (importEntries decodeEntity entities)
         (importEntries decodeRelation relations)
         (keyToEntities g) (keyToRelations g)) g' /\
    r = (g', None).

End Decoding.

End IndexExchange.

(** ** Long contents in the combined merge *)

Module DispatchModel.

Import Strings.

(** The content of the document has at least 100 bytes, the first of
    which is [c]. *)
Definition longFrom (c : Ascii.ascii) (doc : Document) : Prop :=
  100 <= strlen (Content doc) /\ exists rest, Content doc = String c rest.

End DispatchModel.

(** ** Sorting with [sort.Slice] *)

Module Sorting.

(** What [sort.Slice(x, less)] guarantees of the function [SortSlice] that
    stands for it: the slice holds the same elements afterwards, and no
    element is less than one before it. *)
Definition sorts {A : Type} (SortSlice : (A -> A -> bool) -> list A -> list A)
    (less : A -> A -> bool) : Prop :=
  forall l,
    SortSlice less l ≡ₚ l /\
    StronglySorted (fun a b => less b a = false) (SortSlice less l).

(** A sort that meets the guarantee for every total preorder. *)
Definition mergeSort {A : Type} (less : A -> A -> bool) (l : list A) : list A :=
  @merge_sort A (fun a b => less b a = false)
    (fun a b => decide (less b a = false)) l.

End Sorting.

(** ** Planning, reasoning and the conversion of graph results to
    documents ([graph_reterval.go]) *)

Module GraphDocuments.

Import Strings GraphRAG.

Module GraphPath.
Record t : Type := mk {
  Nodes : list (gmap string value);
  Relationships : list (gmap string value);
  PathLength : Z;
  RelevanceScore : Q;
  PathType : string
}.
End GraphPath.

Module KnowledgeSubgraph.
Record t : Type := mk {
  CentralNodes : list (gmap string value);
  ConnectedNodes : list (gmap string value);
  Relationships : list (gmap string value);
  GraphMetrics : option (gmap string Q);
  ReasoningChains : list (list string)
}.
End KnowledgeSubgraph.

(** [if v, exists := m[key]; exists { if s, ok := v.(string); ok { ... } }] *)
Definition stringAt (m : gmap string value) (key : string) : option string :=
  match m !! key with
  | Some (VStr s) => Some s
  | _ => None
  end.

Definition complexityIndicators : list string :=
  ["什么"; "如何"; "为什么"; "哪些"; "关系"; "影响"; "原因"].

Definition analyzeQueryComplexity (query : string) : Q :=
  let score := Router.countKeywords query complexityIndicators 0 in
  let complexity :=
    (float64 score / float64 (Z.of_nat (length complexityIndicators)))%Q in
  if fgt complexity 1 then 1%Q else complexity.

Definition AdaptiveQueryPlanning (query : string) : list GraphQuery :=
  let complexityScore := analyzeQueryComplexity query in
  if flt complexityScore (3 # 10) then
    [mkGraphQuery EntityRelation [query] [] [] 1 20 None]
  else if flt complexityScore (7 # 10) then
    [mkGraphQuery MultiHop [query] [] [] 2 50 None]
  else
    [mkGraphQuery Subgraph [query] [] [] 3 100 None;
     mkGraphQuery MultiHop [query] [] [] 3 50 None].

(** The comparisons of the planner in binary64, for [k] indicators found:
    they give what the comparisons give on the rationals. *)
Definition planningAgrees (k : nat) : bool :=
  let x := Binary64.quotient (Z.of_nat k) 7 in
  let q := (float64 (Z.of_nat k) / float64 7)%Q in
  let sevenTenths := PrimFloat.div (Binary64.ofInt 7) (Binary64.ofInt 10) in
  Bool.eqb (PrimFloat.ltb x Binary64.threeTenths) (flt q (3 # 10))
  && Bool.eqb (PrimFloat.ltb x sevenTenths) (flt q (7 # 10))
  && Bool.eqb (PrimFloat.ltb (Binary64.ofInt 1) x) (fgt q 1).

Definition identifyReasoningPatterns (subgraph : KnowledgeSubgraph.t) : list string :=
  ["因果关系"; "组成关系"; "相似关系"].

Definition buildReasoningChain (pattern : string) (subgraph : KnowledgeSubgraph.t)
  : string :=
  "基于" +:+ pattern +:+ "的推理链".

(** [if len(chains) > 3 { return chains[:3] }]: the bound is below the
    length, the slice expression cannot panic. *)
Definition validateReasoningChains (chains : list string) (query : string)
  : list string :=
  if 3 <? Z.of_nat (length chains) then take 3 chains else chains.

Definition GraphStructureReasoning (subgraph : KnowledgeSubgraph.t) (query : string)
  : list string :=
  let reasoningChains :=
    foldl (fun reasoningChains pattern =>
             let chain := buildReasoningChain pattern subgraph in
             if String.eqb chain EmptyString then reasoningChains
             else reasoningChains ++ [chain])
      [] (identifyReasoningPatterns subgraph) in
  validateReasoningChains reasoningChains query.

(** The parts [buildPathDescription] appends for the node at position
    [i]: its name and, when there is a relationship at that position, the
    arrow to the next node. *)
Definition describe (relationships : list (gmap string value)) (i : nat)
    (node : gmap string value) : list string :=
  [default ("节点" +:+ Sprintf_d (Z.of_nat i)) (stringAt node "name")]
  ++ match relationships !! i with
     | Some relationship =>
         [" --" +:+ default "相关" (stringAt relationship "type") +:+ "--> "]
     | None => []
     end.

Definition buildPathDescription (path : GraphPath.t) : string :=
  match GraphPath.Nodes path with
  | [] => "空路径"
  | nodes =>
      VectorSearch.Join
        (concat (imap (describe (GraphPath.Relationships path)) nodes))
        EmptyString
  end.

(** The document [pathsToDocuments] appends for a path when [documents]
    holds the documents of the paths before it. *)
Definition pathDocument (documents : slice Document) (path : GraphPath.t) : Document :=
  let pathDesc := buildPathDescription path in
  let recipeName :=
    match GraphPath.Nodes path with
    | first :: _ => default "图结构结果" (stringAt first "name")
    | [] => "图结构结果"
    end in
  mkDocument ("path_" +:+ Sprintf_d (len documents)) pathDesc
    (Some (<["search_type" := VStr "graph_path"]>
            (<["path_length" := VInt (GraphPath.PathLength path)]>
              (<["relevance_score" := VFloat (GraphPath.RelevanceScore path)]>
                (<["path_type" := VStr (GraphPath.PathType path)]>
                  (<["node_count" :=
                       VInt (Z.of_nat (length (GraphPath.Nodes path)))]>
                    (<["relationship_count" :=
                         VInt (Z.of_nat (length (GraphPath.Relationships path)))]>
                      {["recipe_name" := VStr recipeName]}))))))).

Definition pathsToDocuments (paths : list GraphPath.t) (query : string)
  : slice Document :=
  foldl (fun documents path => append1 documents (pathDocument documents path))
    NilSlice paths.

Definition buildSubgraphDescription (subgraph : KnowledgeSubgraph.t) : string :=
  let centralNames :=
    (fun node => default "未知" (stringAt node "name"))
      <$> KnowledgeSubgraph.CentralNodes subgraph in
  let nodeCount := Z.of_nat (length (KnowledgeSubgraph.ConnectedNodes subgraph)) in
  let relCount := Z.of_nat (length (KnowledgeSubgraph.Relationships subgraph)) in
  "关于 " +:+ VectorSearch.Join centralNames ", " +:+ " 的知识网络，包含 "
  +:+ Sprintf_d nodeCount +:+ " 个相关概念和 " +:+ Sprintf_d relCount
  +:+ " 个关系。".

Definition subgraphToDocuments (subgraph : KnowledgeSubgraph.t)
    (reasoningChains : list string) (query : string) : slice Document :=
  let documents : slice Document := NilSlice in
  let subgraphDesc := buildSubgraphDescription subgraph in
  let recipeName :=
    match KnowledgeSubgraph.CentralNodes subgraph with
    | first :: _ => default "知识子图" (stringAt first "name")
    | [] => "知识子图"
    end in
  let density :=
    default 0%Q (default ∅ (KnowledgeSubgraph.GraphMetrics subgraph) !! "density") in
  let doc :=
    mkDocument ("subgraph_" +:+ Sprintf_d (len documents)) subgraphDesc
      (Some (<["search_type" := VStr "knowledge_subgraph"]>
              (<["node_count" :=
                   VInt (Z.of_nat (length (KnowledgeSubgraph.ConnectedNodes subgraph)))]>
                (<["relationship_count" :=
                     VInt (Z.of_nat (length (KnowledgeSubgraph.Relationships subgraph)))]>
                  (<["graph_density" := VFloat density]>
                    (<["reasoning_chains" := VStrings reasoningChains]>
                      {["recipe_name" := VStr recipeName]})))))) in
  append1 documents doc.

(** The score [rankByGraphRelevance] reads from a document: 0 without a
    [relevance_score] annotation of type [float64]. *)
Definition relevanceOf (doc : Document) : Q :=
  match getMeta doc "relevance_score" with
  | Some (VFloat scoreFloat) => scoreFloat
  | _ => 0%Q
  end.

(** The [less] function handed to [sort.Slice]. *)
Definition moreRelevant (a b : Document) : bool := fgt (relevanceOf a) (relevanceOf b).

Definition fallbackSubgraphExtraction (graphQuery : GraphQuery) : KnowledgeSubgraph.t :=
  KnowledgeSubgraph.mk [] [] [] (Some ∅) [].

Section Traversal.

(** [sort.Slice], and the graph store: the records the multi hop query
    and the subgraph query return for a plan, or the error of the session,
    and the decoding of a record. *)
Variable SortSlice : (Document -> Document -> bool) -> list Document -> list Document.
Variable Record_ : Type.
Variable runMultiHop : GraphQuery -> result (list Record_).
Variable runSubgraph : GraphQuery -> result Record_.
Variable parseNeo4jPath : Record_ -> option GraphPath.t.
Variable buildKnowledgeSubgraph : Record_ -> KnowledgeSubgraph.t.

Variable g : GraphRAGRetrieval.

Definition rankByGraphRelevance (documents : list Document) : list Document :=
  SortSlice moreRelevant documents.

(** [findEntityRelations] and [findShortestPaths] return an empty list
    and no error. *)
Definition findEntityRelations (graphQuery : GraphQuery)
  : list GraphPath.t * error := ([], None).
Definition findShortestPaths (graphQuery : GraphQuery)
  : list GraphPath.t * error := ([], None).

Definition MultiHopTraversal (graphQuery : GraphQuery) : list GraphPath.t * error :=
  match driver g with
  | None => ([], Some "Neo4j连接未建立")
  | Some _ =>
      let t := QueryType_ graphQuery in
      if String.eqb t MultiHop then
        match runMultiHop graphQuery with
        | Err e => ([], Some ("多跳遍历查询失败: " +:+ e))
        | Val records => (omap parseNeo4jPath records, None)
        end
      else if String.eqb t EntityRelation then
        match findEntityRelations graphQuery with
        | (entityPaths, None) => ([] ++ entityPaths, None)
        | (_, Some _) => ([], None)
        end
      else if String.eqb t PathFinding then
        match findShortestPaths graphQuery with
        | (shortestPaths, None) => ([] ++ shortestPaths, None)
        | (_, Some _) => ([], None)
        end
      else ([], None)
  end.

Definition ExtractKnowledgeSubgraph (graphQuery : GraphQuery)
  : KnowledgeSubgraph.t * error :=
  match driver g with
  | None => (fallbackSubgraphExtraction graphQuery, Some "Neo4j连接未建立")
  | Some _ =>
      match runSubgraph graphQuery with
      | Err e => (fallbackSubgraphExtraction graphQuery, Some e)
      | Val record => (buildKnowledgeSubgraph record, None)
      end
  end.

(** The two branches of step 2 of [GraphRAGSearch]: a traversal followed
    by the conversion of what it found. *)
Definition pathDocuments (graphQuery : GraphQuery) (query : string)
  : result (list Document) :=
  match MultiHopTraversal graphQuery with
  | (paths, None) => Val (elems (pathsToDocuments paths query))
  | (_, Some e) => Err e
  end.

Definition subgraphDocuments (graphQuery : GraphQuery) (query : string)
  : result (list Document) :=
  match ExtractKnowledgeSubgraph graphQuery with
  | (subgraph, None) =>
      let reasoningChains := GraphStructureReasoning subgraph query in
      Val (elems (subgraphToDocuments subgraph reasoningChains query))
  | (_, Some e) => Err e
  end.

(** The prompt template, the language model and the JSON decoder of the
    query understanding. *)
Variable Messages : Type.
Variable Format : string -> result Messages.
Variable Generate : Messages -> result string.
Variable Unmarshal : string -> result QueryAnalysisResult.t.

(** [GraphRAGSearch] on these collaborators. *)
Definition Search (query : string) (topK : Z) : outcome (slice Document * error) :=
  GraphRAGSearch Messages Format Generate Unmarshal pathDocuments subgraphDocuments
    rankByGraphRelevance g query topK.

End Traversal.

End GraphDocuments.

(** ** Keyword extraction and the dual level retrieval
    ([hybrid_retrieval.go]) *)

Module DualLevel.

Import Strings GraphRAG VectorSearch Sorting.

(** [if len(results) > topK { results = results[:topK] }]: the bound is
    below the length, so only a negative bound is out of range. *)
Definition truncate {A : Type} (results : list A) (topK : Z) : outcome (list A) :=
  if topK <? Z.of_nat (length results) then
    if topK <? 0 then Panic SliceBoundsOutOfRange
    else Ok (take (Z.to_nat topK) results)
  else Ok results.

(** The [less] function of the three sorts by relevance score. *)
Definition higherScore (a b : RetrievalResult) : bool :=
  fgt (RelevanceScore a) (RelevanceScore b).

(** The rule of the fallback extraction for a keyword of more than one
    byte. *)
Definition isEntityKeyword (keyword : string) : bool :=
  Contains keyword "菜" || Contains keyword "肉" || Contains keyword "蛋".

(** The constant score 0.8 of a vector result and the similarity 1 - 0.8
    that [HybridSearch] derives from it, in binary64. *)
Definition vectorScore64 : PrimFloat.float :=
  PrimFloat.div (Binary64.ofInt 8) (Binary64.ofInt 10).
Definition vectorSimilarity64 : PrimFloat.float :=
  PrimFloat.sub (Binary64.ofInt 1) vectorScore64.

(** [recipeName] of the conversions to documents. *)
Definition recipeNameOf (metadata : option (gmap string value)) : string :=
  match default ∅ metadata !! "name" with
  | Some (VStr nameStr) => nameStr
  | _ => "未知菜品"
  end.

Section Retrieval.

(** [strings.ToLower], [strings.TrimSpace], [strings.TrimPrefix] and
    [strings.TrimSuffix]. *)
Variable ToLower : string -> string.
Variable TrimSpace : string -> string.
Variable TrimPrefix : string -> string -> string.
Variable TrimSuffix : string -> string -> string.

(** [sort.Slice] on retrieval results. *)
Variable SortSlice :
  (RetrievalResult -> RetrievalResult -> bool) ->
  list RetrievalResult -> list RetrievalResult.

(** The language model of the hybrid module, a pointer that may be nil,
    its answer to the keyword prompt built from a query, and the JSON
    decoder. *)
Variable llmClient : option unit.
Variable Generate : string -> result string.
Variable Unmarshal : string -> result (list string * list string).

(** The graph store connection, the neighbour query, and the two
    supplementary searches in the graph store, which open a session on the
    connection. *)
Variable driver : option Driver.
Variable runNeighborQuery : string -> Z -> result (list value).
Variable neo4jEntityLevelSearch :
  list string -> Z -> outcome (list RetrievalResult * error).
Variable neo4jTopicLevelSearch :
  list string -> Z -> outcome (list RetrievalResult * error).

Definition extractWithLLM (query : string)
  : outcome (list string * list string * error) :=
  match llmClient with
  | None => Panic NilDereference
  | Some _ =>
      match Generate query with
      | Err e => Ok ([], [], Some ("LLM生成失败: " +:+ e))
      | Val content =>
          match Unmarshal content with
          | Val (entityKeywords, topicKeywords) =>
              Ok (entityKeywords, topicKeywords, None)
          | Err _ =>
              let cleanContent := TrimSpace content in
              let cleanContent := TrimPrefix cleanContent "```json" in
              let cleanContent := TrimPrefix cleanContent "```" in
              let cleanContent := TrimSuffix cleanContent "```" in
              let cleanContent := TrimSpace cleanContent in
              match Unmarshal cleanContent with
              | Val (entityKeywords, topicKeywords) =>
                  Ok (entityKeywords, topicKeywords, None)
              | Err e =>
                  Ok ([], [], Some ("JSON解析失败: " +:+ e +:+ ", 响应内容: " +:+ content))
              end
          end
      end
  end.

(** The loop of the fallback extraction. *)
Fixpoint classify (keywords entityKeywords topicKeywords : list string)
  : list string * list string :=
  match keywords with
  | [] => (entityKeywords, topicKeywords)
  | keyword :: rest =>
      if 1 <? strlen keyword then
        if isEntityKeyword keyword
        then classify rest (entityKeywords ++ [keyword]) topicKeywords
        else classify rest entityKeywords (topicKeywords ++ [keyword])
      else classify rest entityKeywords topicKeywords
  end.

Definition fallbackKeywords (query : string) : list string * list string :=
  classify (Fields query) [] [].

Definition ExtractQueryKeywords (query : string)
  : outcome (list string * list string * error) :=
  match llmClient with
  | Some _ =>
      '(entityKeywords, topicKeywords, err) ← extractWithLLM query;
      match err with
      | None => Ok (entityKeywords, topicKeywords, None)
      | Some _ =>
          let '(entityKeywords, topicKeywords) := fallbackKeywords query in
          Ok (entityKeywords, topicKeywords, None)
      end
  | None =>
      let '(entityKeywords, topicKeywords) := fallbackKeywords query in
      Ok (entityKeywords, topicKeywords, None)
  end.

(** *** Entity level *)

Definition entityMatches (entity : RetrievalResult) (keyword : string) : bool :=
  Contains (ToLower (rContent entity)) (ToLower keyword)
  || Contains (ToLower (NodeID entity)) (ToLower keyword).

(** The result built for a cache entry that matches [keyword]; the
    annotations of the entity overwrite the two of the result. *)
Definition entityResult (keyword nodeID : string) (entity : RetrievalResult)
  : outcome RetrievalResult :=
  '(neighbors, _) ← getNodeNeighbors driver runNeighborQuery nodeID 2;
  let enhancedContent :=
    if 0 <? Go.len neighbors then
      rContent entity +:+ newline +:+ "相关信息: " +:+ Join (elems neighbors) ", "
    else rContent entity in
  let metadata : gmap string value :=
    default ∅ (Metadata entity)
    ∪ (<["matched_keyword" := VStr keyword]> {["source" := VStr "graph_index"]}) in
  Ok (mkRetrievalResult enhancedContent (NodeID entity) (NodeType entity) (9 # 10)
        "entity" (Some metadata)).

(** [for nodeID, entity := range h.entityCache] for one keyword. *)
Definition scanEntities (keyword : string) (entries : list (string * RetrievalResult))
    (results : list RetrievalResult) : outcome (list RetrievalResult) :=
  Reference.foldM
    (fun '(nodeID, entity) results =>
       if entityMatches entity keyword then
         r ← entityResult keyword nodeID entity; Ok (results ++ [r])
       else Ok results)
    entries results.

(** [EntityLevelRetrieval]; [scans] pairs every keyword with the order in
    which the cache hands out its entries for it. *)
Definition EntityLevelRetrievalIn
    (scans : list (string * list (string * RetrievalResult)))
    (entityKeywords : list string) (topK : Z)
  : outcome (list RetrievalResult * error) :=
  results ← Reference.foldM (fun '(keyword, entries) => scanEntities keyword entries)
              scans [];
  results ←
    (if Z.of_nat (length results) <? topK then
       '(neo4jResults, err) ←
         neo4jEntityLevelSearch entityKeywords
           (Go.sub topK (Z.of_nat (length results)));
       match err with
       | Some _ => Ok results
       | None => Ok (results ++ neo4jResults)
       end
     else Ok results);
  let results := SortSlice higherScore results in
  results ← truncate results topK;
  Ok (results, None).

(** *** Topic level *)

Definition topicMatches (entity : RetrievalResult) (keyword : string) : bool :=
  match default ∅ (Metadata entity) !! "category" with
  | Some (VStr categoryStr) => Contains (ToLower categoryStr) (ToLower keyword)
  | _ => false
  end.

Definition topicResult (keyword nodeID : string) (entity : RetrievalResult)
  : RetrievalResult :=
  let contentParts := ["主题分类: " +:+ keyword; rContent entity] in
  mkRetrievalResult (Join contentParts newline) nodeID (NodeType entity) (85 # 100)
    "topic"
    (Some (<["matched_keyword" := VStr keyword]> {["source" := VStr "category_match"]})).

Definition scanTopics (keyword : string) (entries : list (string * RetrievalResult))
    (results : list RetrievalResult) : list RetrievalResult :=
  foldl (fun results '(nodeID, entity) =>
           if topicMatches entity keyword
           then results ++ [topicResult keyword nodeID entity]
           else results)
    results entries.

Definition TopicLevelRetrievalIn
    (scans : list (string * list (string * RetrievalResult)))
    (topicKeywords : list string) (topK : Z)
  : outcome (list RetrievalResult * error) :=
  let results :=
    foldl (fun results '(keyword, entries) => scanTopics keyword entries results)
      [] scans in
  results ←
    (if Z.of_nat (length results) <? topK then
       '(neo4jResults, err) ←
         neo4jTopicLevelSearch topicKeywords
           (Go.sub topK (Z.of_nat (length results)));
       match err with
       | Some _ => Ok results
       | None => Ok (results ++ neo4jResults)
       end
     else Ok results);
  let results := SortSlice higherScore results in
  results ← truncate results topK;
  Ok (results, None).

(** *** The merge of the two levels *)

(** The document built for a result. *)
Definition dualDocument (r : RetrievalResult) : Document :=
  let recipeName := recipeNameOf (Metadata r) in
  let metadata := default ∅ (Metadata r) in
  let metadata := <["node_id" := VStr (NodeID r)]> metadata in
  let metadata := <["node_type" := VStr (NodeType r)]> metadata in
  let metadata := <["retrieval_level" := VStr (RetrievalLevel r)]> metadata in
  let metadata := <["relevance_score" := VFloat (RelevanceScore r)]> metadata in
  let metadata := <["recipe_name" := VStr recipeName]> metadata in
  let metadata := <["search_type" := VStr "dual_level"]> metadata in
  mkDocument EmptyString (rContent r) (Some metadata).

(** Steps 3 to 5 of [DualLevelRetrieval]: the results of the two levels
    are put together and sorted, the first result of every node is kept,
    and the first [topK] of these become documents. *)
Definition mergeLevels (entityResults topicResults : list RetrievalResult) (topK : Z)
  : slice Document :=
  let allResults := entityResults ++ topicResults in
  let allResults := SortSlice higherScore allResults in
  let uniqueResults := Reference.skipSeen NodeID ∅ allResults in
  foldl append1 NilSlice (dualDocument <$> take (Z.to_nat topK) uniqueResults).

(** [DualLevelRetrieval], the cache handing out its entries to the
    entity level in the orders [entityScans] and to the topic level in the
    orders [topicScans]. *)
Definition DualLevelRetrievalIn
    (entityScans topicScans : list (list (string * RetrievalResult)))
    (query : string) (topK : Z) : outcome (slice Document * error) :=
  '(entityKeywords, topicKeywords, err) ← ExtractQueryKeywords query;
  let '(entityKeywords, topicKeywords) :=
    match err with
    | Some _ => ([query], [query])
    | None => (entityKeywords, topicKeywords)
    end in
  '(entityResults, err) ←
    EntityLevelRetrievalIn (zip entityKeywords entityScans) entityKeywords topK;
  let entityResults := match err with Some _ => [] | None => entityResults end in
  '(topicResults, err) ←
    TopicLevelRetrievalIn (zip topicKeywords topicScans) topicKeywords topK;
  let topicResults := match err with Some _ => [] | None => topicResults end in
  Ok (mergeLevels entityResults topicResults topK, None).

(** The orders: one for every keyword, each an order of the entries of
    the cache. *)
Definition scansOf (entityCache : gmap string RetrievalResult)
    (keywords : list string) (scans : list (list (string * RetrievalResult))) : Prop :=
  length scans = length keywords /\
  Forall (fun entries => entries ≡ₚ map_to_list entityCache) scans.

End Retrieval.

End DualLevel.

(** ** Answering a question ([AskQuestionWithRouting] of the main program) *)

Module Answering.

Import Strings Router Dispatch.

(** The fields of [AdvancedGraphRAGSystem] the function reads:
    [config.TopK] and [systemReady]. *)
Record AdvancedGraphRAGSystem : Type := mkAdvancedGraphRAGSystem {
  TopK : Z;
  systemReady : bool
}.

Definition apology : string := "抱歉，没有找到相关的烹饪信息。请尝试其他问题。".

Section Ask.

(** The two retrieval modules of the router and the generation module:
    its answer to a question over documents, and the chunks it sends on
    the channel before closing it when the answer is streamed. *)
Variable HybridSearch : string -> Z -> outcome (slice Document * error).
Variable GraphRAGSearch : string -> Z -> outcome (slice Document * error).
Variable GenerateAdaptiveAnswer : string -> slice Document -> GraphRAG.result string.
Variable GenerateAdaptiveAnswerStream : string -> slice Document -> list string.

Definition AskQuestionWithRouting (s : AdvancedGraphRAGSystem)
    (stats : RouteStatistics) (question : string) (stream explainRouting : bool)
  : RouteStatistics * traced (string * option QueryAnalysis * error) :=
  if negb (systemReady s) then
    (stats, mret (EmptyString, None, Some "系统未就绪，请先构建知识库"))
  else
    let routed := RouteQuery HybridSearch GraphRAGSearch stats question (TopK s) in
    (fst routed,
     '(relevantDocs, analysis, err) ← snd routed;
     match err with
     | Some e => mret (EmptyString, None, Some ("路由查询失败: " +:+ e))
     | None =>
         if 0 <? len relevantDocs then
           if stream then
             let chunks := GenerateAdaptiveAnswerStream question relevantDocs in
             mret (VectorSearch.Join chunks EmptyString, Some analysis, None)
           else
             match GenerateAdaptiveAnswer question relevantDocs with
             | GraphRAG.Err e =>
                 mret (EmptyString, Some analysis, Some ("生成回答失败: " +:+ e))
             | GraphRAG.Val result => mret (result, Some analysis, None)
             end
         else mret (apology, Some analysis, None)
     end).

End Ask.

End Answering.

(** ** More concrete inputs *)

Module Scenarios.

Import Strings KeywordIndex IndexBuild IndexExchange GraphRAG GraphDocuments
  DualLevel Sorting.

(** The [interface{}] value of a property map, of which nothing is read. *)
Definition boxed (props : option (gmap string value)) : value := VNil.

(** A recipe and one of its ingredients. *)
Definition kungPao : GraphEntity :=
  mkGraphEntity "r1" "宫保鸡丁" (Some {["category" := VStr "川菜"]}).
Definition chickenBreast : GraphEntity := mkGraphEntity "i1" "鸡胸肉" None.

Definition kitchen : GraphIndexingModule :=
  CreateEntityKeyValues Examples.render boxed NewGraphIndexingModule
    [kungPao] [chickenBreast] [].

Definition requires : Relationship.t := Relationship.mk "r1" "REQUIRES" "i1".

(** An index without a configuration: the language model is not asked for
    relation keys. *)
Definition noTemplate (values : gmap string value) : result unit := Err "no template".
Definition noKeywords (content : string) : result (list string) := Err "no keywords".

(** A configuration that asks for the keywords of the language model, a
    model that answers and a decoder that reads one keyword from any
    answer. *)
Definition llmKeysEnabled : Config :=
  mkConfig (Some {["enable_llm_relation_keys" := VBool true]}).
Definition answersKeywords (messages : unit) : result string := Val "家常菜".
Definition oneKeyword (content : string) : result (list string) := Val [content].

(** The one entity left of the two of [Examples.twoChickens], and the
    index after the deduplication. *)
Definition mergedChicken : EntityKeyValue :=
  mkEntityKeyValue "鸡肉" ["鸡肉"]
    ("食材名称: 鸡肉" +:+ supplement "食材名称: 鸡肉") "Ingredient" None.

Definition oneChicken : GraphIndexingModule :=
  rebuildKeyMappingsIn [("i1", mergedChicken)] []
    (mkGraphIndexingModule {["i1" := mergedChicken]} ∅ ∅ ∅).

(** The decoders on the values of these scenarios.  An object whose
    members, where present, are strings and a list of strings under the
    names of the struct tags decodes to the entity with these fields, a
    missing member leaving the zero value; a value that is no object, or
    an object with a member of another type, does not decode.  No object
    here has a metadata member, and no relation is decoded. *)
Definition textAt (m : gmap string any) (key : string) : option string :=
  match m !! key with
  | None => Some EmptyString
  | Some (AnyOther (VStr s)) => Some s
  | Some _ => None
  end.

Definition textsAt (m : gmap string any) (key : string) : option (list string) :=
  match m !! key with
  | None => Some []
  | Some (AnyOther (VStrings l)) => Some l
  | Some _ => None
  end.

Definition decodeObject (x : any) : option EntityKeyValue :=
  match x with
  | AnyObject m =>
      name ← textAt m "entity_name";
      keys ← textsAt m "index_keys";
      content ← textAt m "value_content";
      type ← textAt m "entity_type";
      Some (mkEntityKeyValue name keys content type None)
  | _ => None
  end.
Definition decodeNothing (x : any) : option RelationKeyValue := None.

(** A decoded JSON document with an entity object and, under a second
    identifier, a string, which is no entity. *)
Definition pantry : gmap string any :=
  {["entities" :=
      AnyObject
        (<["i1" :=
             AnyObject
               (<["entity_name" := AnyOther (VStr "鸡肉")]>
                 (<["index_keys" := AnyOther (VStrings ["鸡肉"])]>
                   (<["value_content" := AnyOther (VStr "食材名称: 鸡肉")]>
                     {["entity_type" := AnyOther (VStr "Ingredient")]})))]>
           {["i2" := AnyOther (VStr "鸡肉")]})]}.

Definition imported : GraphIndexingModule :=
  rebuildKeyMappingsIn [("i1", Examples.chickenA)] []
    (mkGraphIndexingModule {["i1" := Examples.chickenA]} ∅ ∅ ∅).

(** What [ExportToJSON] returns for [Examples.twoChickens]. *)
Definition exported : gmap string any :=
  <["entities" := AnyEntities (entityKVStore Examples.twoChickens)]>
    (<["relations" := AnyRelations (relationKVStore Examples.twoChickens)]>
      {["statistics" :=
          AnyObject
            (GetStatisticsIn
               [("i1", Examples.chickenA); ("i2", Examples.chickenB)] []
               [("i1", Examples.chickenA); ("i2", Examples.chickenB)]
               Examples.twoChickens)]}).

(** Two documents of the entity cache with contents of more than 100
    bytes that start with the same label. *)
Definition filler : string :=
  "----------------------------------------------------------------------------------------------------".
Definition longPork : Document :=
  mkDocument EmptyString ("名称: 红烧肉 " +:+ filler) None.
Definition longFish : Document :=
  mkDocument EmptyString ("名称: 水煮鱼 " +:+ filler) None.

(** A graph store whose queries find nothing. *)
Definition noRecords (graphQuery : GraphQuery) : result (list unit) := Val [].
Definition noRecord (graphQuery : GraphQuery) : result unit := Err "no record".
Definition noPath (record : unit) : option GraphPath.t := None.
Definition emptySubgraph (record : unit) : KnowledgeSubgraph.t :=
  KnowledgeSubgraph.mk [] [] [] None [].

(** The collaborators of the hybrid module in the runs below: no
    language model, a connected graph store without neighbours and
    without supplementary results. *)
Definition keep (s : string) : string := s.
Definition keep2 (s affix : string) : string := s.
Definition noAnswer (query : string) : result string := Err "unavailable".
Definition noDecoding (content : string) : result (list string * list string) :=
  Err "invalid character".
Definition noNeighbors (nodeID : string) (limit : Z) : result (list value) := Val [].
Definition noSupplement (keywords : list string) (limit : Z)
  : outcome (list VectorSearch.RetrievalResult * error) := Ok ([], None).

Definition pork : VectorSearch.RetrievalResult :=
  VectorSearch.mkRetrievalResult "名称: 回锅肉" "n3" "Recipe" (8 # 10) "entity"
    (Some {["name" := VStr "回锅肉"]}).

Definition dualRun (query : string) (topK : Z) : outcome (slice Document * error) :=
  DualLevelRetrievalIn keep keep keep2 keep2 mergeSort None noAnswer noDecoding
    (Some Neo4jDriver) noNeighbors noSupplement noSupplement
    [[("n3", pork)]] [] query topK.

Definition vectorRun (query : string) (topK : Z) : outcome (slice Document * error) :=
  VectorSearch.VectorSearchEnhancedIn keep (Some Neo4jDriver) noNeighbors
    [("n3", pork)] query topK.

(** The hybrid search over these two retrievals, a graph search on a
    connected store whose prompt template does not format, and a query
    with five relation cues that names the recipe of the store. *)
Definition hybridRun : string -> Z -> outcome (slice Document * error) :=
  Hybrid.HybridSearch Examples.render dualRun vectorRun.

Definition brokenGraphSearch : string -> Z -> outcome (slice Document * error) :=
  Examples.graphSearch Examples.formatFails Examples.connected.

Definition porkRelations : string := "回锅肉 配搭配组合相关联系".

End Scenarios.

(** * Properties *)

(** ** Go runtime values *)

Module GoFacts.

Lemma wrap64_id z : in_int z -> wrap64 z = z.
Proof.
  unfold in_int, wrap64. intros H.
  rewrite Z.mod_small; lia.
Qed.

Lemma incr_small x : 0 <= x < 2 ^ 63 - 1 -> incr x = x + 1.
Proof. intros H. unfold incr. apply wrap64_id. unfold in_int. lia. Qed.

Lemma fgt_true a b : fgt a b = true <-> (b < a)%Q.
Proof.
  unfold fgt. rewrite negb_true_iff. split.
  - intros H. apply Qnot_le_lt. intros Hle.
    apply Qle_bool_iff in Hle. congruence.
  - intros H. destruct (Qle_bool a b) eqn:E; [|reflexivity].
    apply Qle_bool_iff in E. exfalso. apply (Qlt_not_le _ _ H). exact E.
Qed.

Lemma fgt_false a b : fgt a b = false <-> ~ (b < a)%Q.
Proof.
  rewrite <- fgt_true. destruct (fgt a b); split; congruence.
Qed.

Lemma elems_append1 {A} (s : slice A) x : elems (append1 s x) = elems s ++ [x].
Proof. unfold append1. destruct (_ <? _)%nat; reflexivity. Qed.

Lemma is_nil_append1 {A} (s : slice A) x : is_nil (append1 s x) = false.
Proof. unfold append1. destruct (_ <? _)%nat; reflexivity. Qed.

Lemma len_append1 {A} (s : slice A) x : len (append1 s x) = len s + 1.
Proof. unfold len. rewrite elems_append1, length_app. simpl. lia. Qed.

Lemma len_nonneg {A} (s : slice A) : 0 <= len s.
Proof. unfold len. lia. Qed.

Lemma cap_append1 {A} (s : slice A) x :
  (length (elems s) <= cap s)%nat ->
  (length (elems (append1 s x)) <= cap (append1 s x))%nat.
Proof.
  intros H. unfold append1, grow.
  destruct (length (elems s) <? cap s)%nat eqn:E; simpl.
  - apply Nat.ltb_lt in E. rewrite length_app. simpl. lia.
  - rewrite length_app. simpl.
    destruct (cap s + cap s <? S (length (elems s)))%nat eqn:E2.
    + lia.
    + apply Nat.ltb_ge in E2. lia.
Qed.

(** [s[:k]] with 0 <= k <= len(s) keeps the first k elements. *)
Lemma slice_to_prefix {A} (d : A) (s : slice A) k :
  0 <= k <= len s -> (length (elems s) <= cap s)%nat ->
  exists s', slice_to d s k = Ok s' /\ elems s' = take (Z.to_nat k) (elems s)
             /\ is_nil s' = is_nil s.
Proof.
  unfold len. intros Hk Hcap. unfold slice_to.
  destruct (k <? 0) eqn:E1; [apply Z.ltb_lt in E1; lia|].
  destruct (Z.of_nat (cap s) <? k) eqn:E2; [apply Z.ltb_lt in E2; lia|].
  simpl. destruct s as [|l c]; simpl in *.
  - exists NilSlice. split; [reflexivity|]. split; [|reflexivity].
    by rewrite take_nil.
  - eexists. split; [reflexivity|]. split; [|reflexivity]. simpl.
    replace (Z.to_nat k - length l)%nat with 0%nat by lia.
    simpl. by rewrite app_nil_r.
Qed.

Lemma slice_to_negative {A} (d : A) (s : slice A) k :
  k < 0 -> slice_to d s k = Panic SliceBoundsOutOfRange.
Proof.
  intros H. unfold slice_to.
  destruct (k <? 0) eqn:E; [reflexivity|]. apply Z.ltb_ge in E. lia.
Qed.

End GoFacts.

(** ** Query analysis *)

Module RouterFacts.

Import Strings Router Reference GoFacts.

Lemma countKeywords_hits query keywords count :
  0 <= count -> count + Z.of_nat (length keywords) < 2 ^ 63 ->
  countKeywords query keywords count = count + Z.of_nat (hits query keywords).
Proof.
  unfold hits. revert count.
  induction keywords as [|keyword rest IH]; intros count H0 Hlt; simpl in *.
  - lia.
  - destruct (Contains query keyword); simpl.
    + rewrite incr_small by lia. rewrite IH by lia. lia.
    + rewrite IH by lia. lia.
Qed.

Lemma length_flush cur :
  length (flush cur) = match cur with EmptyString => 0%nat | _ => 1%nat end.
Proof. by destruct cur. Qed.

Lemma append_nonempty cur a : cur +:+ String a EmptyString <> EmptyString.
Proof. destruct cur; discriminate. Qed.

Lemma fieldsFrom_count s : forall skip cur,
  length (fieldsFrom s (spaceFlags s skip) cur)
  = match cur with
    | EmptyString => countRuns false (spaceFlags s skip)
    | _ => S (countRuns true (spaceFlags s skip))
    end.
Proof.
  induction s as [|a rest IH]; intros skip cur.
  - simpl. rewrite length_flush. by destruct cur.
  - assert (Hsp : forall k,
      length (fieldsFrom (String a rest) (true :: spaceFlags rest k) cur)
      = match cur with
        | EmptyString => countRuns false (true :: spaceFlags rest k)
        | _ => S (countRuns true (true :: spaceFlags rest k))
        end).
    { intros k. simpl. rewrite length_app, length_flush, IH.
      by destruct cur. }
    assert (Hns :
      length (fieldsFrom (String a rest) (false :: spaceFlags rest 0) cur)
      = match cur with
        | EmptyString => countRuns false (false :: spaceFlags rest 0)
        | _ => S (countRuns true (false :: spaceFlags rest 0))
        end).
    { simpl. rewrite IH.
      destruct (cur +:+ String a EmptyString) eqn:E.
      - by apply append_nonempty in E.
      - by destruct cur. }
    cbn [spaceFlags]. destruct skip as [|k]; [|apply Hsp].
    destruct (spaceWidth (String a rest)); [apply Hns | apply Hsp].
Qed.

(** [len(strings.Fields(query))] counts the white space separated tokens. *)
Lemma Fields_tokenCount s : length (Fields s) = tokenCount s.
Proof. unfold Fields, tokenCount. by rewrite fieldsFrom_count. Qed.

(** The analysis recommends one of the three strategy constants. *)
Lemma ruleBasedAnalysis_strategy query :
  RecommendedStrategy (ruleBasedAnalysis query) = HybridTraditional \/
  RecommendedStrategy (ruleBasedAnalysis query) = GraphRAG \/
  RecommendedStrategy (ruleBasedAnalysis query) = Combined.
Proof.
  unfold ruleBasedAnalysis.
  destruct (_ || _); [auto|]. destruct (_ || _); auto.
Qed.

(** C6: for every query the rule based analysis scores complexity and
    relationship intensity as the number of cue words found in the query
    divided by the size of the cue set, counts the white space separated
    tokens as entities, requires reasoning when a score exceeds 0.3, and
    selects the graph retrieval with confidence 0.8 when a score exceeds
    0.5, otherwise the combined strategy with confidence 0.7 when a score
    exceeds 0.3, otherwise the hybrid retrieval with confidence 0.6. *)
Theorem ruleBasedAnalysis_spec query :
  let a := ruleBasedAnalysis query in
  let c := QueryComplexity a in
  let r := RelationshipIntensity a in
  c = (inject_Z (Z.of_nat (hits query complexityKeywords))
       / inject_Z (Z.of_nat (length complexityKeywords)))%Q /\
  r = (inject_Z (Z.of_nat (hits query relationKeywords))
       / inject_Z (Z.of_nat (length relationKeywords)))%Q /\
  EntityCount a = Z.of_nat (tokenCount query) /\
  (ReasoningRequired a = true <-> (3 # 10 < c)%Q \/ (3 # 10 < r)%Q) /\
  ((1 # 2 < c)%Q \/ (1 # 2 < r)%Q ->
     RecommendedStrategy a = GraphRAG /\ Confidence a = (8 # 10)%Q) /\
  (~ ((1 # 2 < c)%Q \/ (1 # 2 < r)%Q) -> (3 # 10 < c)%Q \/ (3 # 10 < r)%Q ->
     RecommendedStrategy a = Combined /\ Confidence a = (7 # 10)%Q) /\
  (~ ((1 # 2 < c)%Q \/ (1 # 2 < r)%Q) -> ~ ((3 # 10 < c)%Q \/ (3 # 10 < r)%Q) ->
     RecommendedStrategy a = HybridTraditional /\ Confidence a = (6 # 10)%Q).
Proof.
  cbv zeta. unfold ruleBasedAnalysis.
  rewrite (countKeywords_hits query complexityKeywords 0) by (simpl; lia).
  rewrite (countKeywords_hits query relationKeywords 0) by (simpl; lia).
  rewrite Fields_tokenCount, !Z.add_0_l. unfold float64.
  set (c := (inject_Z (Z.of_nat (hits query complexityKeywords))
             / inject_Z (Z.of_nat (length complexityKeywords)))%Q).
  set (r := (inject_Z (Z.of_nat (hits query relationKeywords))
             / inject_Z (Z.of_nat (length relationKeywords)))%Q).
  assert (Hhalf : fgt c (1 # 2) || fgt r (1 # 2) = true
                  <-> (1 # 2 < c)%Q \/ (1 # 2 < r)%Q).
  { rewrite orb_true_iff, !fgt_true. reflexivity. }
  assert (Hthird : fgt c (3 # 10) || fgt r (3 # 10) = true
                   <-> (3 # 10 < c)%Q \/ (3 # 10 < r)%Q).
  { rewrite orb_true_iff, !fgt_true. reflexivity. }
  destruct (fgt c (1 # 2) || fgt r (1 # 2)) eqn:E1;
    [|destruct (fgt c (3 # 10) || fgt r (3 # 10)) eqn:E2];
    cbn [QueryComplexity RelationshipIntensity EntityCount ReasoningRequired
         RecommendedStrategy Confidence];
    (split; [reflexivity|]); (split; [reflexivity|]); (split; [reflexivity|]).
  - assert (H3 : (3 # 10 < c)%Q \/ (3 # 10 < r)%Q).
    { destruct Hhalf as [Hh _]. destruct (Hh eq_refl) as [H|H]; [left|right];
        (eapply Qlt_trans; [|exact H]); reflexivity. }
    split; [|split; [|split]].
    + split; [intros _; exact H3 | intros _; by apply Hthird].
    + auto.
    + intros Hn. exfalso. apply Hn. by apply Hhalf.
    + intros Hn. exfalso. apply Hn. by apply Hhalf.
  - assert (Hn1 : ~ ((1 # 2 < c)%Q \/ (1 # 2 < r)%Q)).
    { intros H. apply Hhalf in H. congruence. }
    split; [|split; [|split]].
    + split; [intros _; by apply Hthird | reflexivity].
    + intros H. by destruct Hn1.
    + auto.
    + intros _ Hn. exfalso. apply Hn. by apply Hthird.
  - assert (Hn1 : ~ ((1 # 2 < c)%Q \/ (1 # 2 < r)%Q)).
    { intros H. apply Hhalf in H. congruence. }
    assert (Hn2 : ~ ((3 # 10 < c)%Q \/ (3 # 10 < r)%Q)).
    { intros H. apply Hthird in H. congruence. }
    split; [|split; [|split]].
    + split; [discriminate | intros H; by destruct Hn2].
    + intros H. by destruct Hn1.
    + intros _ H. by destruct Hn2.
    + auto.
Qed.

(** Evaluated in binary64, the comparisons of the analysis with 0.3 and 0.5
    give the same answers as on the rationals, for every possible number of
    keywords found. *)
Lemma thresholds_binary64 :
  forallb (Binary64.agrees (Z.of_nat (length complexityKeywords)))
    (seq 0 (Datatypes.S (length complexityKeywords)))
  && forallb (Binary64.agrees (Z.of_nat (length relationKeywords)))
       (seq 0 (Datatypes.S (length relationKeywords)))
  = true.
Proof. vm_compute. reflexivity. Qed.

(** Scenario A of the specification: the query holds one relation cue out
    of eight and no complexity cue, and is routed to the hybrid
    retrieval. *)
Example scenario_A :
  let a := ruleBasedAnalysis Examples.simpleQuery in
  QueryComplexity a = (0 # 9)%Q /\ RelationshipIntensity a = (1 # 8)%Q /\
  EntityCount a = 1 /\ ReasoningRequired a = false /\
  RecommendedStrategy a = HybridTraditional /\ Confidence a = (6 # 10)%Q.
Proof. vm_compute. repeat split. Qed.

Example combined_query :
  RecommendedStrategy (ruleBasedAnalysis Examples.mediumQuery) = Combined /\
  EntityCount (ruleBasedAnalysis Examples.mediumQuery) = 3.
Proof. vm_compute. split; reflexivity. Qed.

Example graph_query :
  RecommendedStrategy (ruleBasedAnalysis Examples.relationalQuery) = GraphRAG.
Proof. vm_compute. reflexivity. Qed.

End RouterFacts.

(** ** Routing statistics *)

Module StatsFacts.

Import Strings Router Dispatch Reference GoFacts RouterFacts.

Lemma counted_new : counted 0 newRouteStats.
Proof. unfold counted, consistent. simpl. repeat split; try lia; done. Qed.

Lemma fgt_float64_pos total : 0 < total -> fgt (float64 total) 0 = true.
Proof.
  intros H. apply fgt_true. unfold float64, Qlt. simpl. lia.
Qed.

(** One update, for a strategy that is one of the three constants. *)
Lemma updateRouteStats_counted n st strategy :
  strategy = HybridTraditional \/ strategy = GraphRAG \/ strategy = Combined ->
  0 <= n < 2 ^ 63 - 1 -> counted n st ->
  counted (n + 1) (updateRouteStats st strategy) /\
  grown st (updateRouteStats st strategy).
Proof.
  intros Hs Hn (Ht & H1 & H2 & H3 & Hsum & _ & _).
  unfold updateRouteStats.
  rewrite (incr_small (TotalQueries st)) by lia.
  rewrite fgt_float64_pos by lia.
  destruct Hs as [-> | [-> | ->]]; simpl;
    unfold counted, consistent, grown; simpl;
    rewrite incr_small by lia;
    (repeat split; try lia; try reflexivity; intros; try lia).
Qed.

Lemma RouteQuery_stats HS GS st query topK :
  fst (RouteQuery HS GS st query topK)
  = updateRouteStats st (RecommendedStrategy (ruleBasedAnalysis query)).
Proof. reflexivity. Qed.

Lemma grown_refl st : grown st st.
Proof. unfold grown. lia. Qed.

Lemma grown_trans st1 st2 st3 : grown st1 st2 -> grown st2 st3 -> grown st1 st3.
Proof. unfold grown. lia. Qed.

Lemma statsAfter_counted HS GS calls : forall n st,
  0 <= n -> n + Z.of_nat (length calls) < 2 ^ 63 -> counted n st ->
  counted (n + Z.of_nat (length calls)) (statsAfter HS GS calls st) /\
  grown st (statsAfter HS GS calls st).
Proof.
  induction calls as [|[query topK] rest IH]; intros n st Hn Hlen Hc.
  - simpl. rewrite Z.add_0_r. split; [exact Hc | apply grown_refl].
  - cbn [statsAfter foldl]. rewrite RouteQuery_stats.
    cbn [length] in Hlen.
    destruct (updateRouteStats_counted n st
                (RecommendedStrategy (ruleBasedAnalysis query)))
      as [Hc' Hg']; [apply ruleBasedAnalysis_strategy | lia | exact Hc |].
    destruct (IH (n + 1) _ ltac:(lia) ltac:(lia) Hc') as [Hc'' Hg''].
    split.
    + replace (n + Z.of_nat (length ((query, topK) :: rest)))
        with (n + 1 + Z.of_nat (length rest)) by (cbn [length]; lia).
      exact Hc''.
    + eapply grown_trans; [exact Hg' | exact Hg''].
Qed.

Lemma statsAfter_app HS GS calls more st :
  statsAfter HS GS (calls ++ more) st
  = statsAfter HS GS more (statsAfter HS GS calls st).
Proof. unfold statsAfter. by rewrite foldl_app. Qed.

(** C4: after every sequence of RouteQuery calls on a freshly constructed
    router (fewer calls than a Go int can count) the total equals the sum
    of the three strategy counters, every ratio equals its counter divided
    by the total (0 while the total is 0), and no counter is lower after
    further calls than it was before them. *)
Theorem route_statistics_invariant HS GS (calls more : list (string * Z)) :
  Z.of_nat (length (calls ++ more)) < 2 ^ 63 ->
  let before := statsAfter HS GS calls newRouteStats in
  let after := statsAfter HS GS (calls ++ more) newRouteStats in
  consistent before /\ consistent after /\ grown before after /\
  TotalQueries before = Z.of_nat (length calls).
Proof.
  intros Hlen before after. rewrite length_app in Hlen.
  destruct (statsAfter_counted HS GS calls 0 newRouteStats)
    as [Hb _]; [lia | lia | apply counted_new |].
  fold before in Hb.
  destruct (statsAfter_counted HS GS more (0 + Z.of_nat (length calls)) before)
    as [Ha Hg]; [lia | lia | exact Hb |].
  subst after. rewrite statsAfter_app. fold before.
  destruct Hb as (Hb1 & _ & _ & _ & Hb2). destruct Ha as (_ & _ & _ & _ & Ha2).
  split; [exact Hb2|]. split; [exact Ha2|]. split; [exact Hg|]. lia.
Qed.

Lemma route_statistics_invariant_witness :
  Z.of_nat (length ([(Examples.simpleQuery, 5); (Examples.mediumQuery, 3)]
                    ++ [(Examples.relationalQuery, 4)])) < 2 ^ 63 /\
  (let before :=
     statsAfter Examples.findsNothing Examples.findsNothing
       [(Examples.simpleQuery, 5); (Examples.mediumQuery, 3)] newRouteStats in
   let after :=
     statsAfter Examples.findsNothing Examples.findsNothing
       ([(Examples.simpleQuery, 5); (Examples.mediumQuery, 3)]
        ++ [(Examples.relationalQuery, 4)]) newRouteStats in
   consistent before /\ consistent after /\ grown before after /\
   TotalQueries before = Z.of_nat (length [(Examples.simpleQuery, 5);
                                           (Examples.mediumQuery, 3)])).
Proof.
  split.
  - vm_compute. reflexivity.
  - apply (route_statistics_invariant Examples.findsNothing Examples.findsNothing
             [(Examples.simpleQuery, 5); (Examples.mediumQuery, 3)]
             [(Examples.relationalQuery, 4)]).
    vm_compute. reflexivity.
Defined.

End StatsFacts.

(** ** Round robin loops *)

Module LoopFacts.

Import Reference GoFacts.

Lemma interleave_nil_r {A} (xs : list A) : interleave xs [] = xs.
Proof. by destruct xs. Qed.

Lemma interleave_nil_l {A} (ys : list A) : interleave [] ys = ys.
Proof. reflexivity. Qed.

Lemma elem_of_interleave {A} (x : A) xs : forall ys,
  x ∈ interleave xs ys <-> x ∈ xs \/ x ∈ ys.
Proof.
  induction xs as [|a xs IH]; intros ys.
  - rewrite interleave_nil_l, elem_of_nil. tauto.
  - destruct ys as [|b ys]; [rewrite interleave_nil_r, elem_of_nil; tauto|].
    simpl. rewrite !elem_of_cons, IH. tauto.
Qed.

Lemma lookup_stream src docs i :
  stream src docs !! i = mkItem src i <$> docs !! i.
Proof. unfold stream. by rewrite list_lookup_imap. Qed.

Lemma length_stream src docs : length (stream src docs) = length docs.
Proof. unfold stream. by rewrite length_imap. Qed.

Lemma elem_of_stream it src docs :
  it ∈ stream src docs <->
  itemSource it = src /\ docs !! itemPos it = Some (itemDoc it).
Proof.
  rewrite list_elem_of_lookup. split.
  - intros [i Hi]. rewrite lookup_stream in Hi.
    destruct (docs !! i) as [d|] eqn:E; [|discriminate].
    simpl in Hi. injection Hi as <-. simpl. auto.
  - intros [Hs Hd]. exists (itemPos it). rewrite lookup_stream, Hd.
    simpl. destruct it; simpl in *; by subst.
Qed.

Section Interleaved.

Context {S : Type}.
Variables (stepA stepB : nat -> S -> outcome S).
Variable perItem : item -> S -> outcome S.
Variables (xs ys : list Document).

Hypothesis stepA_item : forall i st,
  stepA i st = match xs !! i with
               | Some doc => perItem (mkItem First i doc) st
               | None => Ok st
               end.
Hypothesis stepB_item : forall i st,
  stepB i st = match ys !! i with
               | Some doc => perItem (mkItem Second i doc) st
               | None => Ok st
               end.

(** The indexed loop visits the items of the interleaving, in order. *)
Lemma forRange_drop n : forall i st,
  n = (Nat.max (length xs) (length ys) - i)%nat ->
  forRange n i (fun i st => st ← stepA i st; stepB i st) st
  = foldM perItem
      (interleave (drop i (stream First xs)) (drop i (stream Second ys))) st.
Proof.
  induction n as [|n IH]; intros i st Hn.
  - rewrite !drop_ge by (rewrite length_stream; lia). reflexivity.
  - cbn [forRange]. rewrite stepA_item.
    destruct (xs !! i) as [x|] eqn:Ex; destruct (ys !! i) as [y|] eqn:Ey.
    + rewrite (drop_S (stream First xs) (mkItem First i x) i)
        by (by rewrite lookup_stream, Ex).
      rewrite (drop_S (stream Second ys) (mkItem Second i y) i)
        by (by rewrite lookup_stream, Ey).
      cbn [interleave foldM].
      destruct (perItem (mkItem First i x) st) as [st1|p]; [|reflexivity].
      cbn. rewrite stepB_item, Ey.
      destruct (perItem (mkItem Second i y) st1) as [st2|p]; [|reflexivity].
      cbn. apply IH. lia.
    + rewrite (drop_S (stream First xs) (mkItem First i x) i)
        by (by rewrite lookup_stream, Ex).
      apply lookup_ge_None in Ey.
      rewrite (drop_ge (stream Second ys)) by (rewrite length_stream; lia).
      rewrite interleave_nil_r. cbn [foldM].
      destruct (perItem (mkItem First i x) st) as [st1|p]; [|reflexivity].
      cbn. rewrite stepB_item.
      rewrite (proj2 (lookup_ge_None ys i)) by lia.
      cbn. rewrite IH by lia.
      rewrite (drop_ge (stream Second ys)) by (rewrite length_stream; lia).
      by rewrite interleave_nil_r.
    + apply lookup_ge_None in Ex.
      rewrite (drop_ge (stream First xs)) by (rewrite length_stream; lia).
      rewrite (drop_S (stream Second ys) (mkItem Second i y) i)
        by (by rewrite lookup_stream, Ey).
      rewrite interleave_nil_l. cbn [foldM]. cbn.
      rewrite stepB_item, Ey.
      destruct (perItem (mkItem Second i y) st) as [st1|p]; [|reflexivity].
      cbn. rewrite IH by lia.
      rewrite (drop_ge (stream First xs)) by (rewrite length_stream; lia).
      by rewrite interleave_nil_l.
    + apply lookup_ge_None in Ex. apply lookup_ge_None in Ey. lia.
Qed.

Lemma forRange_interleave st :
  forRange (Nat.max (length xs) (length ys)) 0
    (fun i st => st ← stepA i st; stepB i st) st
  = foldM perItem (interleave (stream First xs) (stream Second ys)) st.
Proof. rewrite (forRange_drop _ 0 st) by lia. by rewrite !drop_0. Qed.

End Interleaved.

(** The length the loops run to is the larger of the two lengths. *)
Lemma maxLen_max {A} (a b : slice A) :
  (if len a <? len b then length (elems b) else length (elems a))
  = Nat.max (length (elems a)) (length (elems b)).
Proof.
  unfold len. destruct (_ <? _) eqn:E.
  - apply Z.ltb_lt in E. lia.
  - apply Z.ltb_ge in E. lia.
Qed.

Lemma skipSeen_fresh {A} (key : A -> string) l : forall seen x,
  x ∈ skipSeen key seen l -> key x ∉ seen.
Proof.
  induction l as [|a l IH]; intros seen x; simpl; [by rewrite elem_of_nil|].
  destruct (decide (key a ∈ seen)) as [Hin|Hout].
  - apply IH.
  - rewrite elem_of_cons. intros [->|Hx]; [exact Hout|].
    apply IH in Hx. set_solver.
Qed.

(** The items kept by the deduplication carry pairwise different keys. *)
Lemma skipSeen_NoDup {A} (key : A -> string) l : forall seen,
  NoDup (key <$> skipSeen key seen l).
Proof.
  induction l as [|a l IH]; intros seen; simpl; [constructor|].
  destruct (decide (key a ∈ seen)) as [Hin|Hout]; [apply IH|].
  rewrite fmap_cons. constructor; [|apply IH].
  rewrite list_elem_of_fmap. intros (x & Hk & Hx).
  apply skipSeen_fresh in Hx. set_solver.
Qed.

Lemma skipSeen_sublist {A} (key : A -> string) l : forall seen,
  skipSeen key seen l `sublist_of` l.
Proof.
  induction l as [|a l IH]; intros seen; simpl; [constructor|].
  destruct (decide (key a ∈ seen)).
  - apply sublist_cons, IH.
  - apply sublist_skip, IH.
Qed.

Lemma take_imap {A B} (f : nat -> A -> B) n : forall l,
  take n (imap f l) = imap f (take n l).
Proof.
  revert f. induction n as [|n IH]; intros f l; [reflexivity|].
  destruct l as [|a l]; [reflexivity|].
  simpl. f_equal. apply IH.
Qed.

End LoopFacts.

(** ** Deduplicating merges *)

Module MergeFacts.

Import Strings Reference GoFacts LoopFacts Hybrid Dispatch MergeModel.

Section Dedup.

Context {S : Type}.
Variables (seenOf : S -> gset string) (docsOf : S -> slice Document).
Variable key : item -> string.
Variable out : nat -> item -> Document.
Variable perItem : item -> S -> outcome S.
Variable good : item -> Prop.

Hypothesis perItem_seen : forall it st,
  good it -> key it ∈ seenOf st -> perItem it st = Ok st.
Hypothesis perItem_new : forall it st,
  good it -> key it ∉ seenOf st ->
  exists st', perItem it st = Ok st' /\
    seenOf st' = {[key it]} ∪ seenOf st /\
    docsOf st' = append1 (docsOf st) (out (length (elems (docsOf st))) it).

(** A loop that emits every item with a new key appends, in order, the
    items that the deduplication keeps. *)
Lemma foldM_skipSeen l : forall st,
  Forall good l ->
  (length (elems (docsOf st)) <= cap (docsOf st))%nat ->
  exists st', foldM perItem l st = Ok st' /\
    elems (docsOf st')
    = elems (docsOf st)
      ++ imap (fun j => out (length (elems (docsOf st)) + j))
           (skipSeen key (seenOf st) l) /\
    (length (elems (docsOf st')) <= cap (docsOf st'))%nat.
Proof.
  induction l as [|a l IH]; intros st Hgood Hcap.
  - exists st. simpl. rewrite app_nil_r. auto.
  - apply Forall_cons in Hgood as [Ha Hl]. cbn [foldM skipSeen].
    destruct (decide (key a ∈ seenOf st)) as [Hin|Hout].
    + rewrite (perItem_seen a st Ha Hin). cbn. by apply IH.
    + destruct (perItem_new a st Ha Hout) as (st1 & -> & Hseen & Hdocs). cbn.
      destruct (IH st1 Hl) as (st' & Hrun & Hel & Hcap').
      { rewrite Hdocs. by apply cap_append1. }
      exists st'. split; [exact Hrun|]. split; [|exact Hcap'].
      rewrite Hel, Hseen, Hdocs, elems_append1, length_app. cbn [length imap].
      rewrite <- app_assoc. cbn [app]. f_equal.
      rewrite Nat.add_0_r. f_equal.
      apply imap_ext. intros j x _. simpl. f_equal. lia.
Qed.

End Dedup.

Section DedupReturned.

Context {S : Type}.
Variables (seenOf : S -> gset string) (docsOf : S -> slice Document).
Variable key : item -> string.
Variable out : nat -> item -> Document.
Variable perItem : item -> S -> outcome S.

Hypothesis perItem_seen : forall it st,
  key it ∈ seenOf st -> perItem it st = Ok st.
Hypothesis perItem_new : forall it st st',
  key it ∉ seenOf st -> perItem it st = Ok st' ->
  seenOf st' = {[key it]} ∪ seenOf st /\
  docsOf st' = append1 (docsOf st) (out (length (elems (docsOf st))) it).

(** Whenever such a loop returns, it has appended the items that the
    deduplication keeps. *)
Lemma foldM_skipSeen_returned l : forall st st',
  foldM perItem l st = Ok st' ->
  elems (docsOf st')
  = elems (docsOf st)
    ++ imap (fun j => out (length (elems (docsOf st)) + j))
         (skipSeen key (seenOf st) l).
Proof.
  induction l as [|a l IH]; intros st st' Hrun.
  - cbn in Hrun. injection Hrun as <-. cbn. by rewrite app_nil_r.
  - cbn [foldM skipSeen] in *.
    destruct (decide (key a ∈ seenOf st)) as [Hin|Hout].
    + rewrite (perItem_seen a st Hin) in Hrun. cbn in Hrun. by apply IH.
    + destruct (perItem a st) as [st1|p] eqn:E; [|discriminate].
      cbn in Hrun. destruct (perItem_new a st st1 Hout E) as [Hseen Hdocs].
      rewrite (IH st1 st' Hrun), Hseen, Hdocs, elems_append1, length_app.
      cbn [length imap]. rewrite <- app_assoc. cbn [app]. f_equal.
      rewrite Nat.add_0_r. f_equal.
      apply imap_ext. intros j x _. simpl. f_equal. lia.
Qed.

End DedupReturned.

Lemma truncate_returned (docs out : slice Document) topK :
  (if topK <? len docs then slice_to nilDocument docs topK else Ok docs) = Ok out ->
  elems out = take (Z.to_nat topK) (elems docs).
Proof.
  destruct (topK <? len docs) eqn:E.
  - apply Z.ltb_lt in E. unfold slice_to.
    destruct (_ || _); [discriminate|].
    destruct docs as [|l c]; intros H; injection H as <-.
    + cbn. by destruct (Z.to_nat topK).
    + unfold len in E. cbn in *.
      replace (Z.to_nat topK - length l)%nat with 0%nat by lia.
      cbn. by rewrite app_nil_r.
  - apply Z.ltb_ge in E. intros H. injection H as <-.
    rewrite take_ge; [reflexivity|]. unfold len in E. lia.
Qed.

(** The truncation [if len(docs) > topK { docs = docs[:topK] }]. *)
Lemma truncate_take (docs : slice Document) topK :
  0 <= topK -> (length (elems docs) <= cap docs)%nat ->
  exists out,
    (if topK <? len docs then slice_to nilDocument docs topK else Ok docs) = Ok out /\
    elems out = take (Z.to_nat topK) (elems docs).
Proof.
  intros Hk Hcap. destruct (topK <? len docs) eqn:E.
  - apply Z.ltb_lt in E.
    destruct (slice_to_prefix nilDocument docs topK) as (s' & Hs & He & _);
      [lia | exact Hcap |].
    exists s'. auto.
  - apply Z.ltb_ge in E. exists docs. split; [reflexivity|].
    rewrite take_ge; [reflexivity|]. unfold len in E. lia.
Qed.

Lemma truncate_negative (docs : slice Document) topK :
  topK < 0 ->
  (if topK <? len docs then slice_to nilDocument docs topK else Ok docs)
  = Panic SliceBoundsOutOfRange.
Proof.
  intros Hk. pose proof (len_nonneg docs).
  destruct (topK <? len docs) eqn:E; [by apply slice_to_negative|].
  apply Z.ltb_ge in E. lia.
Qed.

Section HybridMerge.

Variable Sprintf_v : value -> string.

Lemma dualStep_item dualDocs i st :
  dualStep Sprintf_v dualDocs i st
  = match elems dualDocs !! i with
    | Some doc => hybridItem Sprintf_v (mkItem First i doc) st
    | None => Ok st
    end.
Proof. reflexivity. Qed.

Lemma vectorStep_item vectorDocs i st :
  vectorStep Sprintf_v vectorDocs i st
  = match elems vectorDocs !! i with
    | Some doc => hybridItem Sprintf_v (mkItem Second i doc) st
    | None => Ok st
    end.
Proof. reflexivity. Qed.

Lemma hybridItem_seen it st :
  annotated it -> hybridKey Sprintf_v it ∈ seenDocIDs st ->
  hybridItem Sprintf_v it st = Ok st.
Proof. intros _ Hin. unfold hybridItem. by rewrite decide_True. Qed.

(** The score read after the first two annotations is the score of the
    document as it came in. *)
Lemma hybridScore_inserted src id c m method order :
  hybridScore src
    (mkDocument id c
       (Some (<["round_robin_order" := order]> (<["search_method" := method]> m))))
  = hybridScore src (mkDocument id c (Some m)).
Proof.
  destruct src; unfold hybridScore, dualFinalScore, vectorFinalScore, getMeta;
    cbn [MetaData]; by rewrite !lookup_insert_ne.
Qed.

Lemma hybridItem_new it st :
  annotated it -> hybridKey Sprintf_v it ∉ seenDocIDs st ->
  exists st', hybridItem Sprintf_v it st = Ok st' /\
    seenDocIDs st' = {[hybridKey Sprintf_v it]} ∪ seenDocIDs st /\
    mergedDocs st'
    = append1 (mergedDocs st) (hybridOut (length (elems (mergedDocs st))) it).
Proof.
  intros Hmeta Hout. unfold hybridItem. rewrite decide_False by exact Hout.
  destruct it as [src i [id c meta]]. unfold annotated in Hmeta. cbn in Hmeta.
  destruct meta as [m|]; [|done].
  unfold emit, setMeta. cbn.
  eexists. split; [reflexivity|]. cbn. split; [reflexivity|].
  unfold hybridOut. cbn. by rewrite hybridScore_inserted.
Qed.

(** The merge of [HybridSearch] on non-negative [topK] and documents that
    carry an annotation map. *)
Lemma mergeRoundRobin_roundRobin dualDocs vectorDocs topK :
  0 <= topK ->
  Forall (fun doc => MetaData doc <> None) (elems dualDocs ++ elems vectorDocs) ->
  exists out,
    mergeRoundRobin Sprintf_v dualDocs vectorDocs topK = Ok out /\
    elems out
    = imap hybridOut
        (roundRobin (hybridKey Sprintf_v) (elems dualDocs) (elems vectorDocs) topK).
Proof.
  intros Hk Hmeta. unfold mergeRoundRobin. rewrite maxLen_max.
  rewrite (forRange_interleave _ _ (hybridItem Sprintf_v)
             (elems dualDocs) (elems vectorDocs)
             (dualStep_item dualDocs) (vectorStep_item vectorDocs)).
  destruct (foldM_skipSeen seenDocIDs mergedDocs (hybridKey Sprintf_v) hybridOut
              (hybridItem Sprintf_v) annotated hybridItem_seen hybridItem_new
              (interleave (stream First (elems dualDocs))
                          (stream Second (elems vectorDocs)))
              (mkMergeState ∅ NilSlice))
    as (st & Hrun & Hel & Hcap).
  { apply Forall_forall. intros it Hit.
    apply elem_of_interleave in Hit. rewrite Forall_forall in Hmeta.
    unfold annotated. apply Hmeta. rewrite elem_of_app.
    destruct Hit as [Hit|Hit]; apply elem_of_stream in Hit as [_ Hit];
      [left|right]; by eapply list_elem_of_lookup_2. }
  { simpl. lia. }
  rewrite Hrun. cbn.
  destruct (truncate_take (mergedDocs st) topK Hk Hcap) as (out & Ht & He).
  exists out. split; [exact Ht|].
  rewrite He, Hel. cbn. unfold roundRobin. by rewrite take_imap.
Qed.

Lemma hybridItem_seen_always it st :
  hybridKey Sprintf_v it ∈ seenDocIDs st -> hybridItem Sprintf_v it st = Ok st.
Proof. intros Hin. unfold hybridItem. by rewrite decide_True. Qed.

Lemma hybridItem_returned it st st' :
  hybridKey Sprintf_v it ∉ seenDocIDs st ->
  hybridItem Sprintf_v it st = Ok st' ->
  seenDocIDs st' = {[hybridKey Sprintf_v it]} ∪ seenDocIDs st /\
  mergedDocs st'
  = append1 (mergedDocs st) (hybridOut (length (elems (mergedDocs st))) it).
Proof.
  intros Hout Hrun.
  destruct (MetaData (itemDoc it)) as [m|] eqn:Em.
  - destruct (hybridItem_new it st) as (st1 & Hrun1 & Hs & Hd);
      [unfold annotated; by rewrite Em | exact Hout |].
    rewrite Hrun1 in Hrun. injection Hrun as <-. auto.
  - unfold hybridItem in Hrun. rewrite decide_False in Hrun by exact Hout.
    unfold emit, setMeta in Hrun. rewrite Em in Hrun. discriminate.
Qed.

(** Whenever the merge of [HybridSearch] returns, it returns the documents
    of the round robin interleaving. *)
Lemma mergeRoundRobin_returned dualDocs vectorDocs topK out :
  mergeRoundRobin Sprintf_v dualDocs vectorDocs topK = Ok out ->
  elems out
  = imap hybridOut
      (roundRobin (hybridKey Sprintf_v) (elems dualDocs) (elems vectorDocs) topK).
Proof.
  unfold mergeRoundRobin. rewrite maxLen_max.
  rewrite (forRange_interleave _ _ (hybridItem Sprintf_v)
             (elems dualDocs) (elems vectorDocs)
             (dualStep_item dualDocs) (vectorStep_item vectorDocs)).
  destruct (foldM _ _ _) as [st|p] eqn:Hrun; [|discriminate].
  cbn. intros Ht. apply truncate_returned in Ht.
  rewrite Ht.
  rewrite (foldM_skipSeen_returned seenDocIDs mergedDocs (hybridKey Sprintf_v)
             hybridOut (hybridItem Sprintf_v) hybridItem_seen_always
             hybridItem_returned _ _ _ Hrun).
  cbn. unfold roundRobin. by rewrite take_imap.
Qed.

End HybridMerge.

(** *** The merge of the combined strategy *)

Lemma min_100_pos n : 0 < n -> 0 < Dispatch.min 100 n.
Proof. intros H. unfold Dispatch.min. destruct (100 <? n); lia. Qed.

Lemma contentHash_nonempty doc :
  Content doc <> EmptyString -> contentHash doc = Ok (contentKey doc).
Proof.
  intros Hne. unfold contentKey, contentHash.
  destruct (Content doc) as [|a rest] eqn:E; [done|].
  pose proof (min_100_pos (strlen (String a rest))) as Hpos.
  unfold strlen in *. cbn [String.length] in *.
  destruct (Z.to_nat (Dispatch.min 100 (Z.of_nat (Datatypes.S (String.length rest)))))
    as [|k] eqn:Ek; [lia|].
  reflexivity.
Qed.

Lemma contentHash_empty doc :
  Content doc = EmptyString -> contentHash doc = Panic IndexOutOfRange.
Proof. intros E. unfold contentHash. rewrite E. reflexivity. Qed.

Lemma combineStep_first graphDocs i st :
  combineStep "graph_rag" graphDocs i st
  = match elems graphDocs !! i with
    | Some doc => combinedItem (mkItem First i doc) st
    | None => Ok st
    end.
Proof. reflexivity. Qed.

Lemma combineStep_second traditionalDocs i st :
  combineStep "traditional" traditionalDocs i st
  = match elems traditionalDocs !! i with
    | Some doc => combinedItem (mkItem Second i doc) st
    | None => Ok st
    end.
Proof. reflexivity. Qed.

Lemma combinedItem_seen it st :
  nonempty it -> combinedKey it ∈ seenContents st -> combinedItem it st = Ok st.
Proof.
  intros Hne Hin. unfold combinedItem.
  rewrite (contentHash_nonempty _ Hne). cbn. by rewrite decide_True.
Qed.

Lemma combinedItem_new it st :
  nonempty it -> combinedKey it ∉ seenContents st ->
  exists st', combinedItem it st = Ok st' /\
    seenContents st' = {[combinedKey it]} ∪ seenContents st /\
    combinedDocs st' = append1 (combinedDocs st) (combinedOut it).
Proof.
  intros Hne Hout. unfold combinedItem.
  rewrite (contentHash_nonempty _ Hne). cbn.
  rewrite decide_False by exact Hout.
  destruct it as [src i [id c meta]]. destruct meta as [m|]; cbn;
    eexists; (split; [reflexivity|]); cbn; split; reflexivity.
Qed.

(** An item without content stops the loop with an index panic. *)
Lemma combinedItem_empty it st :
  ~ nonempty it -> combinedItem it st = Panic IndexOutOfRange.
Proof.
  intros Hne. unfold combinedItem, nonempty in *.
  rewrite contentHash_empty; [reflexivity|].
  by destruct (decide (Content (itemDoc it) = EmptyString)).
Qed.

Lemma foldM_combined_panic l : forall st,
  Exists (fun it => ~ nonempty it) l ->
  foldM combinedItem l st = Panic IndexOutOfRange.
Proof.
  induction l as [|a l IH]; intros st Hex; [by apply Exists_nil in Hex|].
  cbn [foldM].
  destruct (decide (Content (itemDoc a) = EmptyString)) as [He|Hne].
  - rewrite combinedItem_empty; [reflexivity|]. unfold nonempty. tauto.
  - apply Exists_cons in Hex as [Ha|Hl]; [unfold nonempty in Ha; tauto|].
    destruct (decide (combinedKey a ∈ seenContents st)) as [Hin|Hout].
    + rewrite (combinedItem_seen a st Hne Hin). cbn. by apply IH.
    + destruct (combinedItem_new a st Hne Hout) as (st' & -> & _). cbn.
      by apply IH.
Qed.

Lemma items_of_docs (P : Document -> Prop) first second :
  Forall P (first ++ second) ->
  Forall (fun it => P (itemDoc it))
    (interleave (stream First first) (stream Second second)).
Proof.
  rewrite !Forall_forall. intros H it Hit.
  apply elem_of_interleave in Hit. apply H. rewrite elem_of_app.
  destruct Hit as [Hit|Hit]; apply elem_of_stream in Hit as [_ Hit];
    [left|right]; by eapply list_elem_of_lookup_2.
Qed.

Lemma docs_of_items (P : Document -> Prop) first second :
  Exists P (first ++ second) ->
  Exists (fun it => P (itemDoc it))
    (interleave (stream First first) (stream Second second)).
Proof.
  rewrite !Exists_exists. intros (doc & Hin & HP).
  apply elem_of_app in Hin as [Hin|Hin];
    apply list_elem_of_lookup in Hin as [i Hi].
  - exists (mkItem First i doc). split; [|exact HP].
    apply elem_of_interleave. left. by apply elem_of_stream.
  - exists (mkItem Second i doc). split; [|exact HP].
    apply elem_of_interleave. right. by apply elem_of_stream.
Qed.

Lemma mergeCombined_loop graphDocs traditionalDocs :
  forRange (if len traditionalDocs <? len graphDocs
            then length (elems graphDocs) else length (elems traditionalDocs)) 0
    (fun i st =>
       st ← combineStep "graph_rag" graphDocs i st;
       combineStep "traditional" traditionalDocs i st)
    (mkCombineState ∅ NilSlice)
  = foldM combinedItem
      (interleave (stream First (elems graphDocs))
                  (stream Second (elems traditionalDocs)))
      (mkCombineState ∅ NilSlice).
Proof.
  rewrite maxLen_max, Nat.max_comm.
  apply (forRange_interleave _ _ combinedItem (elems graphDocs)
           (elems traditionalDocs)
           (combineStep_first graphDocs) (combineStep_second traditionalDocs)).
Qed.

(** The loop of [executeCombinedSearch] on documents that all have some
    content. *)
Lemma mergeCombined_run graphDocs traditionalDocs :
  Forall (fun doc => Content doc <> EmptyString)
    (elems graphDocs ++ elems traditionalDocs) ->
  exists st,
    foldM combinedItem
      (interleave (stream First (elems graphDocs))
                  (stream Second (elems traditionalDocs)))
      (mkCombineState ∅ NilSlice) = Ok st /\
    elems (combinedDocs st)
    = combinedOut
        <$> skipSeen combinedKey ∅
              (interleave (stream First (elems graphDocs))
                          (stream Second (elems traditionalDocs))) /\
    (length (elems (combinedDocs st)) <= cap (combinedDocs st))%nat.
Proof.
  intros Hne.
  destruct (foldM_skipSeen seenContents combinedDocs combinedKey
              (fun _ => combinedOut) combinedItem nonempty
              combinedItem_seen combinedItem_new
              (interleave (stream First (elems graphDocs))
                          (stream Second (elems traditionalDocs)))
              (mkCombineState ∅ NilSlice))
    as (st & Hrun & Hel & Hcap).
  { by apply (items_of_docs (fun doc => Content doc <> EmptyString)). }
  { simpl. lia. }
  exists st. split; [exact Hrun|]. split; [|exact Hcap].
  rewrite Hel. cbn. rewrite <- (imap_const combinedOut).
  by apply imap_ext.
Qed.

Lemma mergeCombined_roundRobin graphDocs traditionalDocs topK :
  0 <= topK ->
  Forall (fun doc => Content doc <> EmptyString)
    (elems graphDocs ++ elems traditionalDocs) ->
  exists out,
    mergeCombined graphDocs traditionalDocs topK = Ok out /\
    elems out
    = combinedOut
        <$> roundRobin combinedKey (elems graphDocs) (elems traditionalDocs) topK.
Proof.
  intros Hk Hne. unfold mergeCombined. rewrite mergeCombined_loop.
  destruct (mergeCombined_run graphDocs traditionalDocs Hne)
    as (st & -> & Hel & Hcap). cbn.
  destruct (truncate_take (combinedDocs st) topK Hk Hcap) as (out & Ht & He).
  exists out. split; [exact Ht|].
  rewrite He, Hel. unfold roundRobin. by rewrite fmap_take.
Qed.

End MergeFacts.

(** ** The merged lists *)

Module MergeTheorems.

Import Strings Reference GoFacts LoopFacts Hybrid Dispatch MergeModel MergeFacts.

Lemma roundRobin_NoDup key first second topK :
  NoDup (key <$> roundRobin key first second topK).
Proof.
  unfold roundRobin. rewrite fmap_take.
  eapply sublist_NoDup; [|apply sublist_take]. apply skipSeen_NoDup.
Qed.

Lemma originId_hybridOut j it : originId (hybridOut j it) = originId (itemDoc it).
Proof.
  unfold originId, getMeta, hybridOut. cbn [MetaData].
  rewrite !lookup_insert_ne by done.
  destruct (MetaData (itemDoc it)); [reflexivity | apply lookup_empty].
Qed.

Lemma hybridKey_origin Sprintf_v it v :
  originId (itemDoc it) = Some v -> hybridKey Sprintf_v it = Sprintf_v v.
Proof. unfold originId, hybridKey, docID. by intros ->. Qed.

Lemma contentKey_combinedOut it : contentKey (combinedOut it) = combinedKey it.
Proof. reflexivity. Qed.

(** Elements at different positions of the image of a list without
    duplicate keys have different keys. *)
Lemma NoDup_keys_differ {A} (key : A -> string) (l : list A) i j x y :
  NoDup (key <$> l) -> i <> j -> l !! i = Some x -> l !! j = Some y ->
  key x <> key y.
Proof.
  intros Hnd Hij Hi Hj Heq. apply Hij.
  apply (NoDup_lookup (key <$> l) i j (key x) Hnd).
  - by rewrite list_lookup_fmap, Hi.
  - by rewrite list_lookup_fmap, Hj, Heq.
Qed.

(** C1 (amended): for topK >= 0 the merge of HybridSearch, on documents
    that carry an annotation map, returns the first topK items of the round
    robin interleaving (dual level first) whose identifier (the rendered
    node_id or, without one, the position) was not met before, so that no
    two returned documents share a node_id; the merge of the combined
    strategy, on documents with some content, returns the first topK items
    of the round robin interleaving (graph first) whose content hash was
    not met before, so that no two returned documents share a content
    hash. *)
Theorem round_robin_merges Sprintf_v dualDocs vectorDocs graphDocs traditionalDocs topK :
  0 <= topK ->
  Forall (fun doc => MetaData doc <> None) (elems dualDocs ++ elems vectorDocs) ->
  Forall (fun doc => Content doc <> EmptyString)
    (elems graphDocs ++ elems traditionalDocs) ->
  (let chosen :=
     roundRobin (hybridKey Sprintf_v) (elems dualDocs) (elems vectorDocs) topK in
   exists out,
     mergeRoundRobin Sprintf_v dualDocs vectorDocs topK = Ok out /\
     elems out = imap hybridOut chosen /\
     NoDup (hybridKey Sprintf_v <$> chosen) /\
     forall i j di dj vi vj,
       i <> j -> elems out !! i = Some di -> elems out !! j = Some dj ->
       originId di = Some vi -> originId dj = Some vj ->
       Sprintf_v vi <> Sprintf_v vj) /\
  (let chosen :=
     roundRobin combinedKey (elems graphDocs) (elems traditionalDocs) topK in
   exists out,
     mergeCombined graphDocs traditionalDocs topK = Ok out /\
     elems out = combinedOut <$> chosen /\
     NoDup (combinedKey <$> chosen) /\
     forall i j di dj,
       i <> j -> elems out !! i = Some di -> elems out !! j = Some dj ->
       contentKey di <> contentKey dj).
Proof.
  intros Hk Hmeta Hne. split; intros chosen.
  - destruct (mergeRoundRobin_roundRobin Sprintf_v dualDocs vectorDocs topK
                Hk Hmeta) as (out & Hrun & Hel).
    fold chosen in Hel.
    pose proof (roundRobin_NoDup (hybridKey Sprintf_v) (elems dualDocs)
                  (elems vectorDocs) topK) as Hnd. fold chosen in Hnd.
    exists out. split; [exact Hrun|]. split; [exact Hel|]. split; [exact Hnd|].
    intros i j di dj vi vj Hij Hi Hj Hoi Hoj.
    rewrite Hel, list_lookup_imap in Hi, Hj.
    destruct (chosen !! i) as [iti|] eqn:Ei; [|discriminate].
    destruct (chosen !! j) as [itj|] eqn:Ej; [|discriminate].
    cbn in Hi, Hj. injection Hi as <-. injection Hj as <-.
    rewrite originId_hybridOut in Hoi, Hoj.
    rewrite <- (hybridKey_origin Sprintf_v iti vi Hoi).
    rewrite <- (hybridKey_origin Sprintf_v itj vj Hoj).
    by apply (NoDup_keys_differ (hybridKey Sprintf_v) chosen i j).
  - destruct (mergeCombined_roundRobin graphDocs traditionalDocs topK Hk Hne)
      as (out & Hrun & Hel).
    fold chosen in Hel.
    pose proof (roundRobin_NoDup combinedKey (elems graphDocs)
                  (elems traditionalDocs) topK) as Hnd. fold chosen in Hnd.
    exists out. split; [exact Hrun|]. split; [exact Hel|]. split; [exact Hnd|].
    intros i j di dj Hij Hi Hj.
    rewrite Hel, list_lookup_fmap in Hi, Hj.
    destruct (chosen !! i) as [iti|] eqn:Ei; [|discriminate].
    destruct (chosen !! j) as [itj|] eqn:Ej; [|discriminate].
    cbn in Hi, Hj. injection Hi as <-. injection Hj as <-.
    rewrite !contentKey_combinedOut.
    by apply (NoDup_keys_differ combinedKey chosen i j).
Qed.

Lemma round_robin_merges_witness :
  0 <= 5 /\
  Forall (fun doc => MetaData doc <> None)
    (elems Examples.dualThree ++ elems Examples.vectorFour) /\
  Forall (fun doc => Content doc <> EmptyString)
    (elems (lit [Examples.porkA]) ++ elems (lit [Examples.porkB; Examples.porkC])) /\
  (let chosen :=
     roundRobin (hybridKey Examples.render) (elems Examples.dualThree)
       (elems Examples.vectorFour) 5 in
   exists out,
     mergeRoundRobin Examples.render Examples.dualThree Examples.vectorFour 5
     = Ok out /\
     elems out = imap hybridOut chosen /\
     NoDup (hybridKey Examples.render <$> chosen) /\
     forall i j di dj vi vj,
       i <> j -> elems out !! i = Some di -> elems out !! j = Some dj ->
       originId di = Some vi -> originId dj = Some vj ->
       Examples.render vi <> Examples.render vj) /\
  (let chosen :=
     roundRobin combinedKey (elems (lit [Examples.porkA]))
       (elems (lit [Examples.porkB; Examples.porkC])) 5 in
   exists out,
     mergeCombined (lit [Examples.porkA]) (lit [Examples.porkB; Examples.porkC]) 5
     = Ok out /\
     elems out = combinedOut <$> chosen /\
     NoDup (combinedKey <$> chosen) /\
     forall i j di dj,
       i <> j -> elems out !! i = Some di -> elems out !! j = Some dj ->
       contentKey di <> contentKey dj).
Proof.
  assert (H0 : 0 <= 5) by lia.
  assert (H1 : Forall (fun doc => MetaData doc <> None)
                 (elems Examples.dualThree ++ elems Examples.vectorFour)).
  { unfold Examples.dualThree, Examples.vectorFour, lit. cbn [elems app].
    repeat constructor; discriminate. }
  assert (H2 : Forall (fun doc => Content doc <> EmptyString)
                 (elems (lit [Examples.porkA])
                  ++ elems (lit [Examples.porkB; Examples.porkC]))).
  { unfold lit. cbn [elems app].
    repeat constructor; discriminate. }
  split; [exact H0|]. split; [exact H1|]. split; [exact H2|].
  exact (round_robin_merges Examples.render Examples.dualThree Examples.vectorFour
           (lit [Examples.porkA]) (lit [Examples.porkB; Examples.porkC]) 5
           H0 H1 H2).
Defined.

(** C1 as stated fails for the combined strategy: its merge keeps two
    documents of one origin when their contents hash differently, and drops
    a document of a new origin when its content hashes like an earlier
    one.  It fails for both merges when topK is negative: the truncation
    panics. *)
Lemma combined_merge_not_by_origin :
  ~ mergesByOrigin Examples.render mergeCombined /\
  (exists out,
     mergeCombined (lit [Examples.porkA]) (lit [Examples.porkC]) 5 = Ok out /\
     originId <$> elems out = [Some (VStr "n1"); Some (VStr "n1")]) /\
  (exists out,
     mergeCombined NilSlice (lit [Examples.porkA; Examples.porkB]) 5 = Ok out /\
     originId <$> elems out = [Some (VStr "n1")] /\
     originId Examples.porkB = Some (VStr "n2")) /\
  mergeRoundRobin Examples.render Examples.dualThree Examples.vectorFour (-1)
  = Panic SliceBoundsOutOfRange /\
  mergeCombined (lit [Examples.porkA]) (lit [Examples.porkC]) (-1)
  = Panic SliceBoundsOutOfRange.
Proof.
  cut ((~ mergesByOrigin Examples.render mergeCombined /\
        (exists out,
           mergeCombined (lit [Examples.porkA]) (lit [Examples.porkC]) 5 = Ok out /\
           originId <$> elems out = [Some (VStr "n1"); Some (VStr "n1")]) /\
        (exists out,
           mergeCombined NilSlice (lit [Examples.porkA; Examples.porkB]) 5
           = Ok out /\
           originId <$> elems out = [Some (VStr "n1")] /\
           originId Examples.porkB = Some (VStr "n2")))).
  { intros (H1 & H2 & H3). split; [exact H1|]. split; [exact H2|].
    split; [exact H3|]. split; vm_compute; reflexivity. }
  assert (Hsame : exists out,
     mergeCombined (lit [Examples.porkA]) (lit [Examples.porkC]) 5 = Ok out /\
     originId <$> elems out = [Some (VStr "n1"); Some (VStr "n1")]).
  { eexists. split; vm_compute; reflexivity. }
  split; [|split; [exact Hsame|]].
  - intros Hclaim. destruct Hsame as (out & Hrun & Hor).
    destruct (Hclaim _ _ _ _ Hrun) as [Hdistinct _].
    apply (Hdistinct 0%nat 1%nat (VStr "n1")); [lia | |]; by rewrite Hor.
  - eexists. split; [|split]; vm_compute; reflexivity.
Qed.

(** *** The final score *)

Lemma fle_true a b : fle a b = true <-> (a <= b)%Q.
Proof. unfold fle. apply Qle_bool_iff. Qed.

Lemma flt_true a b : flt a b = true <-> (a < b)%Q.
Proof.
  unfold flt. rewrite negb_true_iff. split.
  - intros H. apply Qnot_le_lt. intros Hle.
    apply Qle_bool_iff in Hle. congruence.
  - intros H. destruct (Qle_bool b a) eqn:E; [|reflexivity].
    apply Qle_bool_iff in E. lra.
Qed.

(** The conversion of a cosine distance is max(0, 1 - distance). *)
Lemma similarity_max0 distance : (similarity distance == max0 (1 - distance))%Q.
Proof.
  unfold similarity, max0.
  destruct (fle distance 1) eqn:E1.
  - apply fle_true in E1.
    destruct (flt (1 - distance) 0) eqn:E2.
    + apply flt_true in E2. lra.
    + symmetry. apply Q.max_r. lra.
  - assert (H : ~ (distance <= 1)%Q).
    { intros H. apply fle_true in H. congruence. }
    symmetry. apply Q.max_l. lra.
Qed.

Lemma hybridScore_normalised src doc : normalised src doc (hybridScore src doc).
Proof.
  destruct src; unfold normalised, hybridScore.
  - unfold dualFinalScore. by destruct (getMeta doc "relevance_score").
  - unfold vectorFinalScore.
    destruct (getMeta doc "score") as [[| | |q| |]|];
      eexists; (split; [reflexivity|]); try reflexivity.
    apply similarity_max0.
Qed.

Lemma roundRobin_source key first second topK it :
  it ∈ roundRobin key first second topK ->
  match itemSource it with First => first | Second => second end !! itemPos it
  = Some (itemDoc it).
Proof.
  unfold roundRobin. intros Hin.
  assert (Hit : it ∈ interleave (stream First first) (stream Second second)).
  { eapply elem_of_sublist; [exact Hin|].
    etrans; [apply sublist_take | apply skipSeen_sublist]. }
  apply elem_of_interleave in Hit as [Hit|Hit];
    apply elem_of_stream in Hit as [-> Hit]; exact Hit.
Qed.

(** C7: the merge of HybridSearch returns for every topK >= 0 when its
    documents carry an annotation map, and whenever it returns, it emits one
    document for every item the round robin interleaving keeps, in order:
    the document emitted at position j is the document of the j-th kept
    item, taken from its position of the dual level or of the vector list,
    with its identifier, its content and its other annotations unchanged
    and tagged with the method of its list; its final_score is its own
    relevance score passed through unchanged when it came from the dual
    level retrieval (0.0 without one), and max(0, 1 - distance) of its own
    score when it came from the vector retrieval (0 when that score is
    absent or not a float). *)
Theorem final_score_normalised Sprintf_v dualDocs vectorDocs topK :
  let chosen :=
    roundRobin (hybridKey Sprintf_v) (elems dualDocs) (elems vectorDocs) topK in
  (0 <= topK ->
   Forall (fun doc => MetaData doc <> None) (elems dualDocs ++ elems vectorDocs) ->
   exists out, mergeRoundRobin Sprintf_v dualDocs vectorDocs topK = Ok out) /\
  forall out,
    mergeRoundRobin Sprintf_v dualDocs vectorDocs topK = Ok out ->
    length (elems out) = length chosen /\
    forall j doc,
      elems out !! j = Some doc ->
      exists it final,
        chosen !! j = Some it /\
        match itemSource it with
        | First => elems dualDocs
        | Second => elems vectorDocs
        end !! itemPos it = Some (itemDoc it) /\
        ID doc = ID (itemDoc it) /\ Content doc = Content (itemDoc it) /\
        (forall key,
           key <> "search_method" -> key <> "round_robin_order" ->
           key <> "final_score" ->
           getMeta doc key = getMeta (itemDoc it) key) /\
        getMeta doc "search_method" = Some (VStr (hybridMethod (itemSource it))) /\
        getMeta doc "final_score" = Some final /\
        normalised (itemSource it) (itemDoc it) final /\
        normalised (itemSource it) doc final.
Proof.
  intros chosen. split.
  - intros Hk Hmeta.
    destruct (mergeRoundRobin_roundRobin Sprintf_v dualDocs vectorDocs topK
                Hk Hmeta) as (out & Hrun & _).
    by exists out.
  - intros out Hrun.
    pose proof (mergeRoundRobin_returned Sprintf_v _ _ _ _ Hrun) as Hel.
    fold chosen in Hel. rewrite Hel. split; [by rewrite length_imap|].
    intros j doc Hj. rewrite list_lookup_imap in Hj.
    destruct (chosen !! j) as [it|] eqn:Hit; [|discriminate].
    cbn in Hj. injection Hj as <-.
    exists it, (hybridScore (itemSource it) (itemDoc it)).
    split; [reflexivity|].
    split; [apply (roundRobin_source (hybridKey Sprintf_v) _ _ topK);
            by eapply list_elem_of_lookup_2|].
    split; [reflexivity|]. split; [reflexivity|].
    assert (Hkeep : forall key,
              key <> "search_method" -> key <> "round_robin_order" ->
              key <> "final_score" ->
              getMeta (hybridOut j it) key = getMeta (itemDoc it) key).
    { intros key H1 H2 H3. unfold getMeta, hybridOut. cbn [MetaData].
      rewrite !lookup_insert_ne by done.
      by destruct (MetaData (itemDoc it)). }
    split; [exact Hkeep|].
    split; [unfold getMeta, hybridOut; cbn [MetaData];
            rewrite !lookup_insert_ne by done; by rewrite lookup_insert_eq|].
    split; [unfold getMeta, hybridOut; cbn [MetaData];
            by rewrite lookup_insert_eq|].
    pose proof (hybridScore_normalised (itemSource it) (itemDoc it)) as Hn.
    split; [exact Hn|].
    unfold normalised in *. destruct (itemSource it).
    + by rewrite (Hkeep "relevance_score").
    + by rewrite (Hkeep "score").
Qed.

(** Scenario C of the specification with topK = 10: six documents are
    emitted, the vector document of origin r2 is dropped, and the scores
    0.8 and 1.2 of the vector documents become 0.2 and 0. *)
Lemma final_score_normalised_witness :
  exists out,
    mergeRoundRobin Examples.render Examples.dualThree Examples.vectorFour 10
    = Ok out /\
    (fun doc => (Content doc, getMeta doc "search_method", getMeta doc "final_score"))
      <$> elems out
    = [("红烧肉", Some (VStr "dual_level"), Some (VFloat (9 # 10)));
       ("宫保鸡丁", Some (VStr "vector_enhanced"), Some (VFloat (2 # 10)));
       ("回锅肉", Some (VStr "dual_level"), Some (VFloat (9 # 10)));
       ("鱼香肉丝", Some (VStr "dual_level"), Some (VFloat (85 # 100)));
       ("麻婆豆腐", Some (VStr "vector_enhanced"), Some (VFloat (2 # 10)));
       ("水煮鱼", Some (VStr "vector_enhanced"), Some (VFloat 0))] /\
    length (elems out)
    = length (roundRobin (hybridKey Examples.render) (elems Examples.dualThree)
                (elems Examples.vectorFour) 10) /\
    forall j doc,
      elems out !! j = Some doc ->
      exists it final,
        roundRobin (hybridKey Examples.render) (elems Examples.dualThree)
          (elems Examples.vectorFour) 10 !! j = Some it /\
        getMeta doc "final_score" = Some final /\
        normalised (itemSource it) doc final.
Proof.
  assert (Hrun : { out | mergeRoundRobin Examples.render Examples.dualThree
                           Examples.vectorFour 10 = Ok out }).
  { eexists. vm_compute. reflexivity. }
  destruct Hrun as [out Hrun]. exists out. split; [exact Hrun|].
  split; [vm_compute in Hrun; injection Hrun as <-; vm_compute; reflexivity|].
  destruct (proj2 (final_score_normalised Examples.render Examples.dualThree
                     Examples.vectorFour 10) out Hrun) as [Hlen Hdocs].
  split; [exact Hlen|].
  intros j doc Hj.
  destruct (Hdocs j doc Hj) as (it & final & Hit & _ & _ & _ & _ & _ & Hf & _ & Hn).
  exists it, final. auto.
Defined.

(** *** Documents without content *)

Lemma mergeCombined_panics graphDocs traditionalDocs topK :
  Exists (fun doc => Content doc = EmptyString)
    (elems graphDocs ++ elems traditionalDocs) ->
  mergeCombined graphDocs traditionalDocs topK = Panic IndexOutOfRange.
Proof.
  intros Hex. unfold mergeCombined. rewrite mergeCombined_loop.
  rewrite foldM_combined_panic; [reflexivity|].
  apply (docs_of_items (fun doc => ~ Content doc <> EmptyString)).
  eapply Exists_impl; [exact Hex|]. intros doc Hd Hn. by apply Hn.
Qed.

Lemma mergeCombined_no_index_panic graphDocs traditionalDocs topK :
  Forall (fun doc => Content doc <> EmptyString)
    (elems graphDocs ++ elems traditionalDocs) ->
  mergeCombined graphDocs traditionalDocs topK <> Panic IndexOutOfRange /\
  (0 <= topK -> returns (mergeCombined graphDocs traditionalDocs topK)).
Proof.
  intros Hne. split.
  - unfold mergeCombined. rewrite mergeCombined_loop.
    destruct (mergeCombined_run graphDocs traditionalDocs Hne)
      as (st & -> & _ & Hcap). cbn.
    destruct (Z_lt_ge_dec topK 0) as [Hneg|Hpos].
    + by rewrite truncate_negative.
    + destruct (truncate_take (combinedDocs st) topK) as (out & -> & _);
        [lia | exact Hcap | discriminate].
  - intros Hk.
    destruct (mergeCombined_roundRobin graphDocs traditionalDocs topK Hk Hne)
      as (out & Hrun & _).
    by exists out.
Qed.

(** [executeCombinedSearch] when both retrievals return without error. *)
Lemma executeCombinedSearch_run HS GS query topK traditionalDocs graphDocs :
  HS query (traditionalShare topK) = Ok (traditionalDocs, None) ->
  GS query (graphShare topK) = Ok (graphDocs, None) ->
  snd (executeCombinedSearch HS GS query topK)
  = (docs ← mergeCombined graphDocs traditionalDocs topK; Ok (docs, None)).
Proof.
  intros Ht Hg. unfold executeCombinedSearch, callHybridSearch, callGraphRAGSearch.
  cbn. rewrite Ht. cbn. rewrite Hg. cbn.
  by destruct (mergeCombined graphDocs traditionalDocs topK).
Qed.

(** [executeCombinedSearch] never returns an error. *)
Lemma executeCombinedSearch_no_error HS GS query topK docs e :
  snd (executeCombinedSearch HS GS query topK) = Ok (docs, e) -> e = None.
Proof.
  unfold executeCombinedSearch, callHybridSearch, callGraphRAGSearch. cbn.
  destruct (HS query _) as [[tdocs et]|]; cbn; [|discriminate].
  destruct (GS query _) as [[gdocs eg]|]; cbn; [|discriminate].
  destruct (mergeCombined _ _ _); cbn; [|discriminate].
  by intros [= _ <-].
Qed.

(** [HybridSearch] never returns an error. *)
Lemma HybridSearch_no_error Sprintf_v dual vector query topK docs e :
  HybridSearch Sprintf_v dual vector query topK = Ok (docs, e) -> e = None.
Proof.
  unfold HybridSearch.
  destruct (dual query topK) as [[ddocs ed]|]; cbn; [|discriminate].
  destruct (vector query topK) as [[vdocs ev]|]; cbn; [|discriminate].
  destruct (mergeRoundRobin _ _ _ _); cbn; [|discriminate].
  by intros [= _ <-].
Qed.

(** C9: the merge of the combined strategy is not total.  It stops with an
    index out of range panic exactly when one of the two lists holds a
    document whose content is the empty string, whose first byte
    hashString reads, and so does executeCombinedSearch when its two
    retrievals return these lists; when every document has some content
    that panic cannot happen, and the merge returns for every topK >= 0. *)
Theorem combined_merge_empty_content :
  (exists graphDocs traditionalDocs topK,
     mergeCombined graphDocs traditionalDocs topK = Panic IndexOutOfRange) /\
  hashString EmptyString = Panic IndexOutOfRange /\
  (forall graphDocs traditionalDocs topK,
     mergeCombined graphDocs traditionalDocs topK = Panic IndexOutOfRange
     <-> Exists (fun doc => Content doc = EmptyString)
           (elems graphDocs ++ elems traditionalDocs)) /\
  (forall graphDocs traditionalDocs topK,
     Forall (fun doc => Content doc <> EmptyString)
       (elems graphDocs ++ elems traditionalDocs) ->
     mergeCombined graphDocs traditionalDocs topK <> Panic IndexOutOfRange /\
     (0 <= topK -> returns (mergeCombined graphDocs traditionalDocs topK))) /\
  (forall HS GS query topK traditionalDocs graphDocs,
     HS query (traditionalShare topK) = Ok (traditionalDocs, None) ->
     GS query (graphShare topK) = Ok (graphDocs, None) ->
     snd (executeCombinedSearch HS GS query topK) = Panic IndexOutOfRange
     <-> Exists (fun doc => Content doc = EmptyString)
           (elems graphDocs ++ elems traditionalDocs)).
Proof.
  assert (Hiff : forall graphDocs traditionalDocs topK,
     mergeCombined graphDocs traditionalDocs topK = Panic IndexOutOfRange
     <-> Exists (fun doc => Content doc = EmptyString)
           (elems graphDocs ++ elems traditionalDocs)); [|
  split; [|split; [reflexivity|split; [exact Hiff|split]]]].
  4:{ intros HS GS query topK traditionalDocs graphDocs Ht Hg.
      rewrite (executeCombinedSearch_run HS GS query topK _ _ Ht Hg).
      rewrite <- (Hiff graphDocs traditionalDocs topK).
      destruct (mergeCombined graphDocs traditionalDocs topK); cbn;
        split; intros H; first [discriminate H | by injection H as ->]. }
  - intros graphDocs traditionalDocs topK. split.
    + intros Hpanic.
      destruct (decide (Exists (fun doc => Content doc = EmptyString)
                          (elems graphDocs ++ elems traditionalDocs)))
        as [Hex|Hnex]; [exact Hex|].
      apply not_Exists_Forall in Hnex; [|intros doc; apply _].
      exfalso.
      by apply (mergeCombined_no_index_panic graphDocs traditionalDocs topK).
    + apply mergeCombined_panics.
  - exists (lit [mkDocument EmptyString EmptyString None]), NilSlice, 1. reflexivity.
  - apply mergeCombined_no_index_panic.
Qed.

End MergeTheorems.

(** ** Graph query understanding *)

Module GraphFacts.

Import Strings GraphRAG.

Section Classifier.

Variable Messages : Type.
Variable Format : string -> result Messages.
Variable Generate : Messages -> result string.
Variable Unmarshal : string -> result QueryAnalysisResult.t.

(** The query type of a plan is one of the five constants. *)
Lemma UnderstandGraphQuery_type query plan e :
  UnderstandGraphQuery Messages Format Generate Unmarshal query = (Some plan, e) ->
  QueryType_ plan = EntityRelation \/ QueryType_ plan = MultiHop \/
  QueryType_ plan = Subgraph \/ QueryType_ plan = PathFinding \/
  QueryType_ plan = Clustering.
Proof.
  unfold UnderstandGraphQuery.
  destruct (Format query) as [messages|]; [|discriminate].
  destruct (Generate messages) as [content|];
    [|intros H; injection H as <- _; cbn; tauto].
  destruct (Unmarshal content) as [result|];
    [|intros H; injection H as <- _; cbn; tauto].
  intros H. injection H as <- _. cbn.
  repeat (destruct (String.eqb _ _); [tauto|]). tauto.
Qed.

End Classifier.

(** C2 (code defect): the prompt of UnderstandGraphQuery is an FString
    template whose JSON example is written with single braces, so formatting
    it fails whatever the query.  When the template fails to format,
    UnderstandGraphQuery returns that error and no plan, whatever the
    language model and the decoder would answer, neither of which is
    consulted; GraphRAGSearch on a connected store then returns the nil
    list and the error for every topK, and no plan with maxDepth >= 1 and
    maxNodes >= 1 is returned. *)
Theorem understand_graph_query_unformatted (Messages : Type) Format query e :
  Format query = Err e ->
  forall Generate Unmarshal,
    UnderstandGraphQuery Messages Format Generate Unmarshal query
    = (None, Some ("模板格式化失败: " +:+ e)) /\
    ~ (exists plan,
         UnderstandGraphQuery Messages Format Generate Unmarshal query
         = (Some plan, None) /\
         1 <= MaxDepth plan /\ 1 <= MaxNodes plan) /\
    forall pathDocuments subgraphDocuments rankByGraphRelevance g d topK,
      driver g = Some d ->
      GraphRAGSearch Messages Format Generate Unmarshal pathDocuments
        subgraphDocuments rankByGraphRelevance g query topK
      = Ok (NilSlice, Some ("查询意图理解失败: 模板格式化失败: " +:+ e)).
Proof.
  intros Hf Generate Unmarshal.
  assert (Hu : UnderstandGraphQuery Messages Format Generate Unmarshal query
               = (None, Some ("模板格式化失败: " +:+ e))).
  { unfold UnderstandGraphQuery. by rewrite Hf. }
  split; [exact Hu|]. split.
  - intros (plan & Hp & _). rewrite Hu in Hp. discriminate.
  - intros pathDocuments subgraphDocuments rankByGraphRelevance g d topK Hd.
    unfold GraphRAGSearch. by rewrite Hd, Hu.
Qed.

Lemma understand_graph_query_unformatted_witness :
  Examples.formatFails Examples.relationalQuery = Err "missing variable" /\
  UnderstandGraphQuery unit Examples.formatFails Examples.modelUnavailable
    Examples.decode Examples.relationalQuery
  = (None, Some "模板格式化失败: missing variable") /\
  Examples.graphSearch Examples.formatFails Examples.connected
    Examples.relationalQuery 5
  = Ok (NilSlice, Some "查询意图理解失败: 模板格式化失败: missing variable").
Proof.
  destruct (understand_graph_query_unformatted unit Examples.formatFails
              Examples.relationalQuery "missing variable" eq_refl
              Examples.modelUnavailable Examples.decode) as (Hu & _ & Hs).
  split; [reflexivity|]. split; [exact Hu|].
  exact (Hs Examples.noDocuments Examples.noDocuments Examples.keepOrder
           Examples.connected Neo4jDriver 5 eq_refl).
Defined.

End GraphFacts.

(** ** Routing *)

Module RoutingFacts.

Import Strings Router Dispatch GraphRAG GoFacts RouterFacts MergeTheorems.

Lemma RouteQuery_run HS GS stats query topK :
  snd (RouteQuery HS GS stats query topK)
  = ('(documents, err) ←
       dispatch HS GS (RecommendedStrategy (ruleBasedAnalysis query)) query topK;
     documents ←
       match err with
       | Some _ =>
           '(documents, _) ← callHybridSearch HS query topK;
           mret documents
       | None => mret documents
       end;
     mret (postProcessResults documents (ruleBasedAnalysis query),
           ruleBasedAnalysis query, None)).
Proof. reflexivity. Qed.

(** The call of the selected strategy returns an error only when the
    graph search was selected and returned that error: the hybrid search
    and the combined strategy never return one. *)
Lemma dispatch_error Sprintf_v Dual Vector GS strategy query topK documents e :
  snd (dispatch (Hybrid.HybridSearch Sprintf_v Dual Vector) GS strategy query topK)
  = Ok (documents, Some e) ->
  strategy = GraphRAG /\
  dispatch (Hybrid.HybridSearch Sprintf_v Dual Vector) GS strategy query topK
  = ([CallGraphRAGSearch query topK], Ok (documents, Some e)).
Proof.
  unfold dispatch.
  destruct (String.eqb strategy HybridTraditional);
    [intros H; by apply HybridSearch_no_error in H|].
  destruct (String.eqb strategy GraphRAG) eqn:Eg.
  - apply String.eqb_eq in Eg. unfold callGraphRAGSearch. cbn.
    intros H. split; [exact Eg|]. by rewrite H.
  - destruct (String.eqb strategy Combined).
    + intros H. by apply executeCombinedSearch_no_error in H.
    + intros H. by apply HybridSearch_no_error in H.
Qed.

(** C3: RouteQuery over the hybrid search of the repository and any graph
    search.  When the call of the selected strategy returns an error, which
    only the graph search does, the router calls HybridSearch exactly once
    more, with the same query and topK, and returns the documents and the
    error of that call; the hybrid search returns no error, so that error
    is nil.  Without an error of the selected strategy there is no second
    call and the error is nil.  So RouteQuery returns an error only when
    the fallback call returned it. *)
Theorem route_query_fallback Sprintf_v Dual Vector GS stats query topK :
  let HS := Hybrid.HybridSearch Sprintf_v Dual Vector in
  let analysis := ruleBasedAnalysis query in
  let selected := dispatch HS GS (RecommendedStrategy analysis) query topK in
  let routed := snd (RouteQuery HS GS stats query topK) in
  match snd selected with
  | Panic p => routed = (fst selected, Panic p)
  | Ok (documents, None) =>
      routed
      = (fst selected, Ok (postProcessResults documents analysis, analysis, None))
  | Ok (_, Some e) =>
      RecommendedStrategy analysis = GraphRAG /\
      (exists documents, GS query topK = Ok (documents, Some e)) /\
      fst routed = [CallGraphRAGSearch query topK; CallHybridSearch query topK] /\
      match HS query topK with
      | Ok (documents, fallbackErr) =>
          fallbackErr = None /\
          snd routed
          = Ok (postProcessResults documents analysis, analysis, fallbackErr)
      | Panic p => snd routed = Panic p
      end
  end /\
  (forall documents analysis' e,
     snd routed = Ok (documents, analysis', Some e) ->
     (exists documents' e', snd selected = Ok (documents', Some e')) /\
     exists documents', HS query topK = Ok (documents', Some e)).
Proof.
  intros HS analysis selected routed. subst routed.
  rewrite RouteQuery_run. fold analysis. fold selected. split.
  - destruct (snd selected) as [[documents [e|]]|p] eqn:Hsel.
    + destruct (dispatch_error Sprintf_v Dual Vector GS _ query topK documents e Hsel)
        as [Hs Hd].
      fold HS in Hd. fold analysis in Hd. fold selected in Hd.
      split; [exact Hs|].
      split.
      { exists documents. subst selected. revert Hsel. fold analysis.
        rewrite Hs. unfold dispatch. cbn. by unfold callGraphRAGSearch. }
      rewrite Hd. cbn. unfold callHybridSearch.
      destruct (HS query topK) as [[documents' e']|p] eqn:Hhs; cbn.
      * assert (e' = None) as -> by (by eapply HybridSearch_no_error).
        by rewrite ?app_nil_r.
      * done.
    + destruct selected as [calls r]. cbn in Hsel. subst r. cbn.
      by rewrite !app_nil_r.
    + destruct selected as [calls r]. cbn in Hsel. subst r. reflexivity.
  - intros documents analysis' e.
    destruct selected as [calls [[docs [e1|]]|p]]; cbn.
    + unfold callHybridSearch.
      destruct (HS query topK) as [[documents' e']|p]; cbn; discriminate.
    + discriminate.
    + discriminate.
Qed.

(** A query routed to the graph search, whose prompt template does not
    format: the router falls back to the hybrid search, which finds the
    one recipe of the store, and returns it with a nil error. *)
Lemma route_query_fallback_witness :
  RecommendedStrategy (ruleBasedAnalysis Scenarios.porkRelations) = GraphRAG /\
  snd (dispatch Scenarios.hybridRun Scenarios.brokenGraphSearch
         (RecommendedStrategy (ruleBasedAnalysis Scenarios.porkRelations))
         Scenarios.porkRelations 5)
  = Ok (NilSlice, Some "查询意图理解失败: 模板格式化失败: missing variable") /\
  fst (snd (RouteQuery Scenarios.hybridRun Scenarios.brokenGraphSearch
              newRouteStats Scenarios.porkRelations 5))
  = [CallGraphRAGSearch Scenarios.porkRelations 5;
     CallHybridSearch Scenarios.porkRelations 5] /\
  exists documents,
    Scenarios.hybridRun Scenarios.porkRelations 5 = Ok (documents, None) /\
    Content <$> elems documents = ["名称: 回锅肉"] /\
    snd (snd (RouteQuery Scenarios.hybridRun Scenarios.brokenGraphSearch
                newRouteStats Scenarios.porkRelations 5))
    = Ok (postProcessResults documents (ruleBasedAnalysis Scenarios.porkRelations),
          ruleBasedAnalysis Scenarios.porkRelations, None).
Proof.
  assert (Hsel : snd (dispatch Scenarios.hybridRun Scenarios.brokenGraphSearch
                        (RecommendedStrategy (ruleBasedAnalysis Scenarios.porkRelations))
                        Scenarios.porkRelations 5)
                 = Ok (NilSlice, Some "查询意图理解失败: 模板格式化失败: missing variable")).
  { vm_compute. reflexivity. }
  assert (Hrun : { documents |
                   Scenarios.hybridRun Scenarios.porkRelations 5 = Ok (documents, None) }).
  { eexists. vm_compute. reflexivity. }
  destruct Hrun as [documents Hrun].
  pose proof (proj1 (route_query_fallback Examples.render Scenarios.dualRun
                       Scenarios.vectorRun Scenarios.brokenGraphSearch newRouteStats
                       Scenarios.porkRelations 5)) as H.
  cbv zeta in H. unfold Scenarios.hybridRun in Hsel, Hrun. try rewrite Hsel in H.
  destruct H as (Hs & _ & Hcalls & Hfall). rewrite Hrun in Hfall.
  destruct Hfall as [_ Hfall].
  split; [exact Hs|]. split; [exact Hsel|]. split; [exact Hcalls|].
  exists documents. split; [exact Hrun|]. split; [|exact Hfall].
  vm_compute in Hrun. injection Hrun as <-. vm_compute. reflexivity.
Defined.

(** C5 (amended): without a connection to the graph store GraphRAGSearch
    returns an empty list that is not nil and a nil error, for every query
    and topK; and RouteQuery, for every query that the analysis routes to
    the graph retrieval, makes that one call and returns the same empty
    list that is not nil, the analysis of the query and a nil error. *)
Theorem graph_search_unconnected (Messages : Type) Format Generate Unmarshal
    pathDocuments subgraphDocuments rankByGraphRelevance g HS stats query topK :
  driver g = None ->
  let GS := GraphRAGSearch Messages Format Generate Unmarshal pathDocuments
              subgraphDocuments rankByGraphRelevance g in
  GS query topK = Ok (lit [], None) /\
  is_nil (lit ([] : list Document)) = false /\
  (RecommendedStrategy (ruleBasedAnalysis query) = GraphRAG ->
   snd (RouteQuery HS GS stats query topK)
   = ([CallGraphRAGSearch query topK],
      Ok (lit [], ruleBasedAnalysis query, None))).
Proof.
  intros Hd GS.
  assert (Hgs : GS query topK = Ok (lit [], None)).
  { subst GS. unfold GraphRAGSearch. by rewrite Hd. }
  split; [exact Hgs|]. split; [reflexivity|].
  intros Hs. rewrite RouteQuery_run, Hs. unfold dispatch. cbn.
  unfold callGraphRAGSearch. rewrite Hgs. reflexivity.
Qed.

Lemma graph_search_unconnected_witness :
  driver Examples.unconnected = None /\
  (let GS := GraphRAGSearch unit Examples.formats Examples.modelUnavailable
               Examples.decode Examples.noDocuments Examples.noDocuments
               Examples.keepOrder Examples.unconnected in
   GS Examples.relationalQuery 5 = Ok (lit [], None) /\
   is_nil (lit ([] : list Document)) = false /\
   (RecommendedStrategy (ruleBasedAnalysis Examples.relationalQuery) = GraphRAG ->
    snd (RouteQuery Examples.hybridSearch GS newRouteStats
           Examples.relationalQuery 5)
    = ([CallGraphRAGSearch Examples.relationalQuery 5],
       Ok (lit [], ruleBasedAnalysis Examples.relationalQuery, None)))).
Proof.
  split; [reflexivity|].
  apply (graph_search_unconnected unit Examples.formats Examples.modelUnavailable
           Examples.decode Examples.noDocuments Examples.noDocuments
           Examples.keepOrder Examples.unconnected Examples.hybridSearch
           newRouteStats Examples.relationalQuery 5).
  reflexivity.
Defined.

(** C5 as stated fails for the queries routed to the combined strategy or
    to the hybrid retrieval: when the graph store is not connected and the
    hybrid retrieval finds no document, the list RouteQuery returns is
    nil. *)
Lemma route_query_nil_list :
  driver Examples.unconnected = None /\
  RecommendedStrategy (ruleBasedAnalysis Examples.mediumQuery) = Combined /\
  RouteQuery Examples.hybridSearch
    (Examples.graphSearch Examples.formats Examples.unconnected)
    newRouteStats Examples.mediumQuery 5
  = (updateRouteStats newRouteStats Combined,
     ([CallHybridSearch Examples.mediumQuery 2;
       CallGraphRAGSearch Examples.mediumQuery 3],
      Ok (NilSlice, ruleBasedAnalysis Examples.mediumQuery, None))) /\
  RecommendedStrategy (ruleBasedAnalysis Examples.simpleQuery) = HybridTraditional /\
  snd (snd (RouteQuery Examples.hybridSearch
              (Examples.graphSearch Examples.formats Examples.unconnected)
              newRouteStats Examples.simpleQuery 5))
  = Ok (NilSlice, ruleBasedAnalysis Examples.simpleQuery, None) /\
  is_nil (NilSlice : slice Document) = true.
Proof. repeat split; vm_compute; reflexivity. Qed.

End RoutingFacts.

(** ** Rebuilding the keyword index *)

Module IndexFacts.

Import KeywordIndex.

Lemma addKey_lookup id (m : gmap string (list string)) k key :
  addKey id m k !! key
  = if String.eqb key k then Some (default [] (m !! key) ++ [id]) else m !! key.
Proof.
  unfold addKey. destruct (String.eqb key k) eqn:E.
  - apply String.eqb_eq in E as ->. by rewrite lookup_insert_eq.
  - apply String.eqb_neq in E. by rewrite lookup_insert_ne.
Qed.

Lemma addKeys_lookup id keys key : forall m : gmap string (list string),
  addKeys m id keys !! key
  = match List.filter (String.eqb key) keys ≫= (fun _ => [id]) with
    | [] => m !! key
    | found => Some (default [] (m !! key) ++ found)
    end.
Proof.
  unfold addKeys.
  induction keys as [|k keys IH]; intros m; [reflexivity|].
  cbn [foldl List.filter]. rewrite IH, addKey_lookup.
  destruct (String.eqb key k); [|reflexivity].
  cbn. destruct (List.filter (String.eqb key) keys ≫= (fun _ => [id])).
  - reflexivity.
  - cbn. by rewrite <- app_assoc.
Qed.

Section Rebuild.

Context {V : Type}.
Variable keysOf : V -> list string.

(** What a rebuild files under a key, from any starting map. *)
Lemma rebuild_lookup entries key : forall m : gmap string (list string),
  foldl (fun m '(id, kv) => addKeys m id (keysOf kv)) m entries !! key
  = match idsFor keysOf key entries with
    | [] => m !! key
    | ids => Some (default [] (m !! key) ++ ids)
    end.
Proof.
  induction entries as [|[id kv] entries IH]; intros m; [reflexivity|].
  cbn [foldl]. rewrite IH, addKeys_lookup.
  unfold idsFor at 2. cbn [mbind list_bind]. fold (idsFor keysOf key entries).
  destruct (List.filter (String.eqb key) (keysOf kv) ≫= (fun _ => [id]))
    as [|x found]; [reflexivity|].
  destruct (idsFor keysOf key entries) as [|y ids].
  - cbn. by rewrite app_nil_r.
  - cbn. by rewrite <- app_assoc.
Qed.

Lemma rebuild_default entries key :
  default []
    (foldl (fun m '(id, kv) => addKeys m id (keysOf kv)) ∅ entries !! key)
  = idsFor keysOf key entries.
Proof.
  rewrite rebuild_lookup, lookup_empty.
  by destruct (idsFor keysOf key entries).
Qed.

Lemma rebuild_is_Some entries key :
  is_Some (foldl (fun m '(id, kv) => addKeys m id (keysOf kv)) ∅ entries !! key)
  <-> idsFor keysOf key entries <> [].
Proof.
  rewrite rebuild_lookup, lookup_empty.
  destruct (idsFor keysOf key entries); split; done.
Qed.

Lemma idsFor_Permutation key entries entries' :
  entries ≡ₚ entries' -> idsFor keysOf key entries ≡ₚ idsFor keysOf key entries'.
Proof. intros H. unfold idsFor. by rewrite H. Qed.

Lemma idsFor_nil_Permutation key entries entries' :
  entries ≡ₚ entries' ->
  idsFor keysOf key entries <> [] <-> idsFor keysOf key entries' <> [].
Proof.
  intros H. pose proof (idsFor_Permutation key _ _ H) as Hp.
  split; intros Hne Hnil; apply Hne.
  - rewrite Hnil in Hp. by apply Permutation_nil_r in Hp.
  - rewrite Hnil in Hp. symmetry in Hp. by apply Permutation_nil_r in Hp.
Qed.

End Rebuild.

(** C8 (amended): two rebuilds of the keyword index from the same entity
    and relation stores leave the stores as they were and, for every index
    key, file the same entity ids and the same relation ids under it, each
    as often in one rebuild as in the other; the order of the ids under a
    key follows the order in which the runtime hands out the entries of
    the stores and may differ between the rebuilds. *)
Theorem rebuild_twice g g' g1 g2 :
  entityKVStore g = entityKVStore g' ->
  relationKVStore g = relationKVStore g' ->
  rebuildKeyMappings g g1 -> rebuildKeyMappings g' g2 ->
  sameMappingsUpToOrder g1 g2 /\
  entityKVStore g1 = entityKVStore g /\ relationKVStore g1 = relationKVStore g /\
  entityKVStore g2 = entityKVStore g /\ relationKVStore g2 = relationKVStore g.
Proof.
  intros He Hr (es1 & rs1 & Hes1 & Hrs1 & ->) (es2 & rs2 & Hes2 & Hrs2 & ->).
  rewrite <- He in Hes2. rewrite <- Hr in Hrs2.
  assert (Hes : es1 ≡ₚ es2) by (by rewrite Hes1, Hes2).
  assert (Hrs : rs1 ≡ₚ rs2) by (by rewrite Hrs1, Hrs2).
  split; [|cbn; rewrite <- He, <- Hr; auto].
  intros key.
  assert (Hke : default [] (rebuildEntities es1 !! key)
                ≡ₚ default [] (rebuildEntities es2 !! key)).
  { unfold rebuildEntities. rewrite !(rebuild_default eIndexKeys).
    by apply idsFor_Permutation. }
  assert (Hkr : default [] (rebuildRelations rs1 !! key)
                ≡ₚ default [] (rebuildRelations rs2 !! key)).
  { unfold rebuildRelations. rewrite !(rebuild_default rIndexKeys).
    by apply idsFor_Permutation. }
  split; [exact Hke|]. split; [exact Hkr|]. split; [|split; [|split]].
  - cbn. unfold rebuildEntities. rewrite !(rebuild_is_Some eIndexKeys).
    by apply idsFor_nil_Permutation.
  - cbn. unfold rebuildRelations. rewrite !(rebuild_is_Some rIndexKeys).
    by apply idsFor_nil_Permutation.
  - unfold GetEntitiesByKey. cbn. rewrite <- He. by rewrite Hke.
  - unfold GetRelationsByKey. cbn. rewrite <- Hr. by rewrite Hkr.
Qed.

Lemma twoChickens_entries :
  map_to_list (entityKVStore Examples.twoChickens)
  = [("i1", Examples.chickenA); ("i2", Examples.chickenB)].
Proof. vm_compute. reflexivity. Qed.

Lemma twoChickens_relations :
  map_to_list (relationKVStore Examples.twoChickens) = [].
Proof. vm_compute. reflexivity. Qed.

Lemma twoChickens_rebuilt entries :
  entries ≡ₚ [("i1", Examples.chickenA); ("i2", Examples.chickenB)] ->
  rebuildKeyMappings Examples.twoChickens
    (rebuildKeyMappingsIn entries [] Examples.twoChickens).
Proof.
  intros H. exists entries, [].
  rewrite twoChickens_entries, twoChickens_relations. auto.
Qed.

Lemma rebuild_twice_witness :
  entityKVStore Examples.twoChickens = entityKVStore Examples.twoChickens /\
  relationKVStore Examples.twoChickens = relationKVStore Examples.twoChickens /\
  rebuildKeyMappings Examples.twoChickens
    (rebuildKeyMappingsIn [("i1", Examples.chickenA); ("i2", Examples.chickenB)] []
       Examples.twoChickens) /\
  rebuildKeyMappings Examples.twoChickens
    (rebuildKeyMappingsIn [("i2", Examples.chickenB); ("i1", Examples.chickenA)] []
       Examples.twoChickens) /\
  sameMappingsUpToOrder
    (rebuildKeyMappingsIn [("i1", Examples.chickenA); ("i2", Examples.chickenB)] []
       Examples.twoChickens)
    (rebuildKeyMappingsIn [("i2", Examples.chickenB); ("i1", Examples.chickenA)] []
       Examples.twoChickens).
Proof.
  assert (H1 : rebuildKeyMappings Examples.twoChickens
                 (rebuildKeyMappingsIn
                    [("i1", Examples.chickenA); ("i2", Examples.chickenB)] []
                    Examples.twoChickens)).
  { by apply twoChickens_rebuilt. }
  assert (H2 : rebuildKeyMappings Examples.twoChickens
                 (rebuildKeyMappingsIn
                    [("i2", Examples.chickenB); ("i1", Examples.chickenA)] []
                    Examples.twoChickens)).
  { apply twoChickens_rebuilt. apply perm_swap. }
  split; [reflexivity|]. split; [reflexivity|].
  split; [exact H1|]. split; [exact H2|].
  exact (proj1 (rebuild_twice Examples.twoChickens Examples.twoChickens _ _
                  eq_refl eq_refl H1 H2)).
Defined.

(** C8 as stated fails: two entities share an index key, the runtime
    hands them out in one order to the first rebuild and in the other order
    to the second, and the two id lists under the key differ. *)
Lemma rebuild_order_differs :
  ~ (forall g g1 g2,
       rebuildKeyMappings g g1 -> rebuildKeyMappings g g2 -> sameMappings g1 g2).
Proof.
  intros Hclaim.
  destruct (Hclaim Examples.twoChickens
              (rebuildKeyMappingsIn
                 [("i1", Examples.chickenA); ("i2", Examples.chickenB)] []
                 Examples.twoChickens)
              (rebuildKeyMappingsIn
                 [("i2", Examples.chickenB); ("i1", Examples.chickenA)] []
                 Examples.twoChickens)
              (twoChickens_rebuilt _ (reflexivity _))
              (twoChickens_rebuilt _ (perm_swap _ _ _))
              "鸡肉") as [Hne _].
  vm_compute in Hne. discriminate.
Qed.

End IndexFacts.

(** ** The enhanced vector search *)

Module VectorFacts.

Import Strings GraphRAG VectorSearch GoFacts.

Lemma appended_nil {A} : appended (NilSlice : slice A).
Proof. left. cbn. lia. Qed.

Lemma appended_append1 {A} (s : slice A) x : appended s -> appended (append1 s x).
Proof.
  unfold appended, append1, grow. intros H.
  destruct (length (elems s) <? cap s)%nat eqn:E1; cbn [elems cap];
    rewrite length_app; cbn [length].
  - apply Nat.ltb_lt in E1. right. lia.
  - apply Nat.ltb_ge in E1.
    destruct (cap s + cap s <? Datatypes.S (length (elems s)))%nat eqn:E2.
    + apply Nat.ltb_lt in E2. left. lia.
    + apply Nat.ltb_ge in E2. lia.
Qed.

Lemma neighborNames_appended records : forall neighbors,
  appended neighbors -> appended (neighborNames records neighbors).
Proof.
  induction records as [|name records IH]; intros neighbors H; [exact H|].
  destruct name; cbn [neighborNames]; try by apply IH.
  destruct (String.eqb s EmptyString); apply IH; [exact H | by apply appended_append1].
Qed.

(** [s[:3]] of a slice grown from nil panics exactly when the slice has
    fewer than three elements. *)
Lemma slice_to_three (s : slice string) :
  appended s ->
  if (length (elems s) <? 3)%nat
  then slice_to EmptyString s 3 = Panic SliceBoundsOutOfRange
  else returns (slice_to EmptyString s 3).
Proof.
  unfold appended, slice_to. intros H.
  destruct (length (elems s) <? 3)%nat eqn:E.
  - apply Nat.ltb_lt in E.
    assert (Hc : (Z.of_nat (cap s) <? 3) = true) by (apply Z.ltb_lt; lia).
    by rewrite Hc.
  - apply Nat.ltb_ge in E.
    assert (Hc : (Z.of_nat (cap s) <? 3) = false) by (apply Z.ltb_ge; lia).
    rewrite Hc. cbn. destruct s; by eexists.
Qed.

Section Enhanced.

Variable ToLower : string -> string.
Variable d : Driver.
Variable runNeighborQuery : string -> Z -> result (list value).

Lemma getNodeNeighbors_connected nodeID :
  exists e,
    getNodeNeighbors (Some d) runNeighborQuery nodeID 3
    = Ok (neighborsOf runNeighborQuery nodeID, e).
Proof.
  unfold getNodeNeighbors, neighborsOf.
  destruct (runNeighborQuery nodeID 3); by eexists.
Qed.

Lemma neighborsOf_appended nodeID : appended (neighborsOf runNeighborQuery nodeID).
Proof.
  unfold neighborsOf. destruct (runNeighborQuery nodeID 3).
  - apply neighborNames_appended, appended_nil.
  - apply appended_nil.
Qed.

(** An entity with one or two neighbours makes the search panic. *)
Lemma enhance_few nodeID entity :
  fewNeighbors runNeighborQuery nodeID ->
  enhance (Some d) runNeighborQuery nodeID entity = Panic SliceBoundsOutOfRange.
Proof.
  unfold fewNeighbors, enhance. intros Hfew.
  destruct (getNodeNeighbors_connected nodeID) as [e ->]. cbn.
  pose proof (slice_to_three _ (neighborsOf_appended nodeID)) as H3.
  destruct (0 <? len (neighborsOf runNeighborQuery nodeID)) eqn:E0.
  - destruct (length (elems (neighborsOf runNeighborQuery nodeID)) <? 3)%nat eqn:E;
      [by rewrite H3 | apply Nat.ltb_ge in E; lia].
  - apply Z.ltb_ge in E0. unfold len in E0. lia.
Qed.

(** An entity with no neighbour, or with three or more, is enhanced. *)
Lemma enhance_enough nodeID entity :
  ~ fewNeighbors runNeighborQuery nodeID ->
  returns (enhance (Some d) runNeighborQuery nodeID entity).
Proof.
  unfold fewNeighbors, enhance. intros Hfew.
  destruct (getNodeNeighbors_connected nodeID) as [e ->]. cbn.
  pose proof (slice_to_three _ (neighborsOf_appended nodeID)) as H3.
  destruct (0 <? len (neighborsOf runNeighborQuery nodeID)) eqn:E0.
  - apply Z.ltb_lt in E0. unfold len in E0.
    destruct (length (elems (neighborsOf runNeighborQuery nodeID)) <? 3)%nat eqn:E;
      [apply Nat.ltb_lt in E; lia|].
    destruct H3 as [shown ->]. cbn. by eexists.
  - cbn. by eexists.
Qed.

Lemma scanCache_returns entries query topK : forall mockResults,
  (forall nodeID entity,
     (nodeID, entity) ∈ entries -> matches ToLower entity query = true ->
     ~ fewNeighbors runNeighborQuery nodeID) ->
  returns (scanCache ToLower (Some d) runNeighborQuery entries query topK mockResults).
Proof.
  induction entries as [|[nodeID entity] entries IH]; intros mockResults Hall.
  - by eexists.
  - cbn [scanCache].
    assert (Hrest : forall nodeID entity,
              (nodeID, entity) ∈ entries -> matches ToLower entity query = true ->
              ~ fewNeighbors runNeighborQuery nodeID).
    { intros n e Hin. apply (Hall n e). by apply list_elem_of_further. }
    destruct (matches ToLower entity query) eqn:Em; [|by apply IH].
    destruct (enhance_enough nodeID entity) as [r ->].
    { apply (Hall nodeID entity); [apply list_elem_of_here | exact Em]. }
    cbn. destruct (topK <=? _); [by eexists | by apply IH].
Qed.

Lemma scanCache_head_panics nodeID entity rest query topK mockResults :
  matches ToLower entity query = true -> fewNeighbors runNeighborQuery nodeID ->
  scanCache ToLower (Some d) runNeighborQuery ((nodeID, entity) :: rest) query topK
    mockResults
  = Panic SliceBoundsOutOfRange.
Proof.
  intros Hm Hfew. cbn [scanCache]. rewrite Hm, enhance_few by exact Hfew.
  reflexivity.
Qed.

End Enhanced.

(** C10: VectorSearchEnhanced is not total.  With the graph store
    connected, an entity of the cache that matches the query and has one or
    two neighbours in the graph store makes the run that visits it first
    panic on neighbors[:3], whose bound exceeds the capacity of the
    neighbour list; and the search returns in every order of visit exactly
    when every matching entity has no neighbour or at least three. *)
Theorem vector_search_neighbors :
  (exists ToLower runNeighborQuery entityCache query topK,
     VectorSearchEnhanced ToLower (Some Neo4jDriver) runNeighborQuery entityCache
       query topK (Panic SliceBoundsOutOfRange)) /\
  (forall ToLower d runNeighborQuery nodeID entity rest query topK,
     matches ToLower entity query = true ->
     fewNeighbors runNeighborQuery nodeID ->
     VectorSearchEnhancedIn ToLower (Some d) runNeighborQuery
       ((nodeID, entity) :: rest) query topK
     = Panic SliceBoundsOutOfRange) /\
  (forall ToLower d runNeighborQuery entityCache query topK,
     (forall r,
        VectorSearchEnhanced ToLower (Some d) runNeighborQuery entityCache
          query topK r -> returns r)
     <-> (forall nodeID entity,
            entityCache !! nodeID = Some entity ->
            matches ToLower entity query = true ->
            ~ fewNeighbors runNeighborQuery nodeID)).
Proof.
  assert (Hhead : forall ToLower d runNeighborQuery nodeID entity rest query topK,
     matches ToLower entity query = true ->
     fewNeighbors runNeighborQuery nodeID ->
     VectorSearchEnhancedIn ToLower (Some d) runNeighborQuery
       ((nodeID, entity) :: rest) query topK
     = Panic SliceBoundsOutOfRange).
  { intros ToLower d run nodeID entity rest query topK Hm Hfew.
    unfold VectorSearchEnhancedIn.
    by rewrite (scanCache_head_panics ToLower d run nodeID entity rest query topK
                  NilSlice Hm Hfew). }
  split; [|split; [exact Hhead|]].
  - exists Examples.sameCase, Examples.oneNeighbor, Examples.tofuCache, "豆腐", 5.
    exists [("n7", Examples.tofu)]. split.
    + unfold Examples.tofuCache. by rewrite map_to_list_singleton.
    + vm_compute. reflexivity.
  - intros ToLower d run entityCache query topK. split.
    + intros Hall nodeID entity Hin Hm Hfew.
      destruct (Hall (Panic SliceBoundsOutOfRange)) as [a Ha]; [|discriminate].
      exists ((nodeID, entity) :: map_to_list (delete nodeID entityCache)).
      split; [by apply map_to_list_delete|].
      symmetry. by apply Hhead.
    + intros Hall r (entries & Hperm & ->).
      unfold VectorSearchEnhancedIn.
      destruct (scanCache_returns ToLower d run entries query topK NilSlice)
        as [mockResults ->].
      { intros nodeID entity Hin. apply (Hall nodeID entity).
        apply elem_of_map_to_list. by rewrite <- Hperm. }
      cbn. by eexists.
Qed.

End VectorFacts.

(** ** Building the keyword index *)

Module IndexBuildFacts.

Import Strings KeywordIndex IndexBuild Reference GoFacts LoopFacts IndexFacts.

Lemma skipSeen_keys {A} (key : A -> string) l : forall seen k,
  k ∈ key <$> skipSeen key seen l <-> k ∈ key <$> l /\ k ∉ seen.
Proof.
  induction l as [|a l IH]; intros seen k; simpl.
  - rewrite elem_of_nil. split; [done | by intros [H _]].
  - destruct (decide (key a ∈ seen)) as [Hin|Hout].
    + rewrite IH, elem_of_cons. split.
      * intros [H Hk]. split; [by right | exact Hk].
      * intros [[->|H] Hk]; [done | by split].
    + rewrite fmap_cons, !elem_of_cons, IH. split.
      * intros [->|[H Hk]]; [split; [by left | exact Hout]|].
        split; [by right|]. intros Hin. apply Hk, elem_of_union. by right.
      * intros [[->|H] Hk]; [by left|].
        destruct (decide (k = key a)) as [->|Hne]; [by left|].
        right. split; [exact H|].
        rewrite elem_of_union, elem_of_singleton. by intros [?|?].
Qed.

Lemma skipSeen_all {A} (key : A -> string) l : forall seen,
  NoDup (key <$> l) -> (forall x, x ∈ l -> key x ∉ seen) ->
  skipSeen key seen l = l.
Proof.
  induction l as [|a l IH]; intros seen Hnd Hfresh; [reflexivity|].
  rewrite fmap_cons in Hnd. apply NoDup_cons in Hnd as [Ha Hnd].
  simpl. rewrite decide_False by (apply Hfresh, list_elem_of_here).
  f_equal. apply IH; [exact Hnd|].
  intros x Hx. rewrite elem_of_union, elem_of_singleton. intros [Heq|Hin].
  - apply Ha. rewrite <- Heq. by apply list_elem_of_fmap_2.
  - revert Hin. by apply Hfresh, list_elem_of_further.
Qed.

Lemma skipSeen_head {A} (key : A -> string) l :
  head (skipSeen key ∅ l) = head l.
Proof.
  destruct l as [|a l]; [reflexivity|].
  simpl. by rewrite decide_False by set_solver.
Qed.

Lemma uniqueFrom_skipSeen strs : forall seen result,
  elems (uniqueFrom seen strs result)
  = elems result ++ skipSeen (fun s => s) seen strs.
Proof.
  induction strs as [|s strs IH]; intros seen result; simpl.
  - by rewrite app_nil_r.
  - destruct (decide (s ∈ seen)); [apply IH|].
    rewrite IH, elems_append1, <- app_assoc. reflexivity.
Qed.

Lemma uniqueStrings_skipSeen strs :
  elems (uniqueStrings strs) = skipSeen (fun s => s) ∅ strs.
Proof. unfold uniqueStrings. by rewrite uniqueFrom_skipSeen. Qed.

Lemma uniqueFrom_is_nil strs : forall seen result,
  is_nil result = false -> is_nil (uniqueFrom seen strs result) = false.
Proof.
  induction strs as [|s strs IH]; intros seen result H; simpl; [exact H|].
  destruct (decide (s ∈ seen)); apply IH; [exact H|].
  by rewrite is_nil_append1.
Qed.

Lemma uniqueStrings_NoDup strs : NoDup (elems (uniqueStrings strs)).
Proof.
  rewrite uniqueStrings_skipSeen.
  pose proof (skipSeen_NoDup (fun s : string => s) strs ∅) as H.
  by rewrite list_fmap_id in H.
Qed.

Lemma uniqueStrings_elem_of strs s : s ∈ elems (uniqueStrings strs) <-> s ∈ strs.
Proof.
  rewrite uniqueStrings_skipSeen.
  pose proof (skipSeen_keys (fun s : string => s) strs ∅ s) as H.
  rewrite !list_fmap_id in H. rewrite H.
  split; [by intros [? _] | intros ?; split; [done | apply not_elem_of_empty]].
Qed.

Lemma uniqueStrings_head strs : head (elems (uniqueStrings strs)) = head strs.
Proof. rewrite uniqueStrings_skipSeen. apply skipSeen_head. Qed.

(** X1: uniqueStrings keeps the first occurrence of every string, in the
    order of the input: its result has no duplicates, has exactly the
    members of the input, is a subsequence of it that starts with the same
    string, is the input itself when that has no duplicates, is left as it
    is by a second pass, and is the nil slice exactly for an empty input. *)
Theorem unique_strings strs :
  NoDup (elems (uniqueStrings strs)) /\
  (forall s, s ∈ elems (uniqueStrings strs) <-> s ∈ strs) /\
  elems (uniqueStrings strs) `sublist_of` strs /\
  head (elems (uniqueStrings strs)) = head strs /\
  (NoDup strs -> elems (uniqueStrings strs) = strs) /\
  elems (uniqueStrings (elems (uniqueStrings strs))) = elems (uniqueStrings strs) /\
  (is_nil (uniqueStrings strs) = true <-> strs = []).
Proof.
  split; [apply uniqueStrings_NoDup|].
  split; [apply uniqueStrings_elem_of|].
  split; [rewrite uniqueStrings_skipSeen; apply skipSeen_sublist|].
  split; [apply uniqueStrings_head|].
  assert (Hid : forall l, NoDup l -> elems (uniqueStrings l) = l).
  { intros l Hl. rewrite uniqueStrings_skipSeen. apply skipSeen_all.
    - by rewrite list_fmap_id.
    - set_solver. }
  split; [apply Hid|].
  split; [apply Hid, uniqueStrings_NoDup|].
  destruct strs as [|s strs]; [done|].
  split; [|done]. unfold uniqueStrings. simpl.
  rewrite decide_False by set_solver.
  rewrite uniqueFrom_is_nil; [done|]. apply is_nil_append1.
Qed.


Section Build.

Variable Sprintf_v : value -> string.
Variable ofProperties : option (gmap string value) -> value.
Variable config : option Config.
Variable Messages : Type.
Variable Format : gmap string value -> GraphRAG.result Messages.
Variable Generate : Messages -> GraphRAG.result string.
Variable Unmarshal : string -> GraphRAG.result (list string).

(** The keys generated for a relation have no duplicates and start with
    the relation type. *)
Lemma generateRelationIndexKeys_head sourceEntity targetEntity relationType :
  NoDup (elems (generateRelationIndexKeys config Messages Format Generate Unmarshal
                  sourceEntity targetEntity relationType)) /\
  head (elems (generateRelationIndexKeys config Messages Format Generate Unmarshal
                 sourceEntity targetEntity relationType))
  = Some relationType.
Proof.
  unfold generateRelationIndexKeys.
  set (base :=
         if String.eqb relationType "REQUIRES" then _
         else if String.eqb relationType "HAS_STEP" then _
         else if String.eqb relationType "BELONGS_TO_CATEGORY" then _
         else [relationType]).
  set (keys := match config with Some _ => _ | None => base end).
  split; [apply uniqueStrings_NoDup|]. rewrite uniqueStrings_head.
  assert (Hb : head base = Some relationType).
  { unfold base. by repeat destruct (String.eqb relationType _). }
  unfold keys. destruct config as [c|]; [|exact Hb].
  destruct (default ∅ (Constraints c) !! "enable_llm_relation_keys")
    as [[| | | |[|]|]|]; try exact Hb.
  destruct base; [discriminate | exact Hb].
Qed.

(** X2: the index keys generated for a relation have no duplicates and
    start with the relation type; a REQUIRES relation is also filed under
    the two ingredient themes, the name of the recipe followed by _食材 and
    the name of its target, a HAS_STEP relation under the three step themes
    and the name of the recipe followed by _步骤, a BELONGS_TO_CATEGORY
    relation under the two category themes and the name of its target.
    The template of llmEnhanceRelationKeys names a variable its values do
    not hold; when it fails to format, llmEnhanceRelationKeys returns the
    empty list, and then, as without a configuration, no keyword of the
    language model is added: every key is the relation type or one of the
    theme keys of that type, and a relation of any other type has its type
    as only key. *)
Theorem relation_index_keys sourceEntity targetEntity relationType :
  let keys :=
    elems (generateRelationIndexKeys config Messages Format Generate Unmarshal
             sourceEntity targetEntity relationType) in
  let unformatted :=
    exists e, Format (relationValues sourceEntity targetEntity relationType) = GraphRAG.Err e in
  NoDup keys /\
  head keys = Some relationType /\
  (relationType = "REQUIRES" ->
   "食材搭配" ∈ keys /\ "烹饪原料" ∈ keys /\
   (EntityName sourceEntity +:+ "_食材") ∈ keys /\ EntityName targetEntity ∈ keys) /\
  (relationType = "HAS_STEP" ->
   "制作步骤" ∈ keys /\ "烹饪过程" ∈ keys /\
   (EntityName sourceEntity +:+ "_步骤") ∈ keys /\ "制作方法" ∈ keys) /\
  (relationType = "BELONGS_TO_CATEGORY" ->
   "菜品分类" ∈ keys /\ "美食类别" ∈ keys /\ EntityName targetEntity ∈ keys) /\
  (unformatted ->
   llmEnhanceRelationKeys Messages Format Generate Unmarshal
     sourceEntity targetEntity relationType = []) /\
  (config = None \/ unformatted ->
   (forall key,
      key ∈ keys ->
      key = relationType \/
      (relationType = "REQUIRES" /\
       key ∈ ["食材搭配"; "烹饪原料"; EntityName sourceEntity +:+ "_食材";
              EntityName targetEntity]) \/
      (relationType = "HAS_STEP" /\
       key ∈ ["制作步骤"; "烹饪过程"; EntityName sourceEntity +:+ "_步骤";
              "制作方法"]) \/
      (relationType = "BELONGS_TO_CATEGORY" /\
       key ∈ ["菜品分类"; "美食类别"; EntityName targetEntity])) /\
   (relationType <> "REQUIRES" -> relationType <> "HAS_STEP" ->
    relationType <> "BELONGS_TO_CATEGORY" ->
    keys = [relationType])).
Proof.
  cbv zeta. unfold generateRelationIndexKeys.
  set (base :=
         if String.eqb relationType "REQUIRES" then _
         else if String.eqb relationType "HAS_STEP" then _
         else if String.eqb relationType "BELONGS_TO_CATEGORY" then _
         else [relationType]).
  set (keys := match config with Some _ => _ | None => base end).
  assert (Hbase : forall k, k ∈ base -> k ∈ keys).
  { intros k Hk. unfold keys. destruct config as [c|]; [|exact Hk].
    destruct (default ∅ (Constraints c) !! "enable_llm_relation_keys")
      as [[| | | |[|]|]|]; try exact Hk.
    apply elem_of_app. by left. }
  assert (Hnone : (exists e,
                     Format (relationValues sourceEntity targetEntity relationType)
                     = GraphRAG.Err e) ->
                  llmEnhanceRelationKeys Messages Format Generate Unmarshal
                    sourceEntity targetEntity relationType = []).
  { intros [e He]. unfold llmEnhanceRelationKeys. cbv zeta. by rewrite He. }
  assert (Hkeys : config = None \/
                  (exists e,
                     Format (relationValues sourceEntity targetEntity relationType)
                     = GraphRAG.Err e) ->
                  keys = base).
  { intros [Hc|Hf]; unfold keys; [by rewrite Hc|].
    destruct config as [c|]; [|reflexivity].
    destruct (default ∅ (Constraints c) !! "enable_llm_relation_keys")
      as [[| | | |[|]|]|]; try reflexivity.
    by rewrite (Hnone Hf), app_nil_r. }
  split; [apply (generateRelationIndexKeys_head sourceEntity targetEntity relationType)|].
  split; [apply (generateRelationIndexKeys_head sourceEntity targetEntity relationType)|].
  split; [|split; [|split; [|split; [exact Hnone|]]]].
  - intros ->. rewrite !uniqueStrings_elem_of.
    repeat split; apply Hbase; unfold base; cbn; set_solver.
  - intros ->. rewrite !uniqueStrings_elem_of.
    repeat split; apply Hbase; unfold base; cbn; set_solver.
  - intros ->. rewrite !uniqueStrings_elem_of.
    repeat split; apply Hbase; unfold base; cbn; set_solver.
  - intros Hpre. rewrite (Hkeys Hpre). split.
    + intros key. rewrite uniqueStrings_elem_of. unfold base.
      destruct (String.eqb relationType "REQUIRES") eqn:E1.
      { apply String.eqb_eq in E1. intros Hk.
        apply elem_of_app in Hk as [Hk|Hk].
        - left. by apply list_elem_of_singleton in Hk.
        - right. left. by split. }
      destruct (String.eqb relationType "HAS_STEP") eqn:E2.
      { apply String.eqb_eq in E2. intros Hk.
        apply elem_of_app in Hk as [Hk|Hk].
        - left. by apply list_elem_of_singleton in Hk.
        - right. right. left. by split. }
      destruct (String.eqb relationType "BELONGS_TO_CATEGORY") eqn:E3.
      { apply String.eqb_eq in E3. intros Hk.
        apply elem_of_app in Hk as [Hk|Hk].
        - left. by apply list_elem_of_singleton in Hk.
        - right. right. right. by split. }
      intros Hk. left. by apply list_elem_of_singleton in Hk.
    + intros H1 H2 H3. unfold base.
      apply String.eqb_neq in H1, H2, H3. rewrite H1, H2, H3.
      unfold uniqueStrings. cbn. by rewrite decide_False by set_solver.
Qed.

Lemma storeEntries_app g xs ys :
  storeEntries (storeEntries g xs) ys = storeEntries g (xs ++ ys).
Proof. unfold storeEntries. by rewrite foldl_app. Qed.

Lemma foldl_storeEntity toKV l : forall g,
  foldl (storeEntity toKV) g l
  = storeEntries g ((fun entity => (NodeID entity, toKV entity)) <$> l).
Proof.
  induction l as [|entity l IH]; intros g; [reflexivity|].
  cbn [foldl fmap list_fmap]. rewrite IH. reflexivity.
Qed.

Lemma CreateEntityKeyValues_created g recipes ingredients cookingSteps :
  CreateEntityKeyValues Sprintf_v ofProperties g recipes ingredients cookingSteps
  = storeEntries g (created Sprintf_v ofProperties recipes ingredients cookingSteps).
Proof.
  unfold CreateEntityKeyValues, created.
  by rewrite !foldl_storeEntity, !storeEntries_app.
Qed.

Lemma storeEntries_relations entries : forall g,
  relationKVStore (storeEntries g entries) = relationKVStore g /\
  keyToRelations (storeEntries g entries) = keyToRelations g.
Proof.
  induction entries as [|[id kv] entries IH]; intros g; [done|].
  cbn [storeEntries foldl]. by destruct (IH (mkGraphIndexingModule
    (<[id := kv]> (entityKVStore g)) (relationKVStore g)
    (addKey id (keyToEntities g) (EntityName kv)) (keyToRelations g))).
Qed.

Lemma storeEntries_keys entries : forall g,
  keyToEntities (storeEntries g entries)
  = foldl (fun m '(id, kv) => addKeys m id [EntityName kv]) (keyToEntities g) entries.
Proof.
  induction entries as [|[id kv] entries IH]; intros g; [done|].
  cbn [storeEntries foldl]. apply IH.
Qed.

(** An entry of the store after the writes is one of the entries written
    or an entry that was there before. *)
Lemma storeEntries_lookup entries : forall g id kv,
  entityKVStore (storeEntries g entries) !! id = Some kv ->
  (id, kv) ∈ entries \/ entityKVStore g !! id = Some kv.
Proof.
  induction entries as [|[id0 kv0] entries IH]; intros g id kv H; [by right|].
  cbn [storeEntries foldl] in H. apply IH in H as [H|H].
  - left. by apply list_elem_of_further.
  - cbn in H. destruct (decide (id = id0)) as [->|Hne].
    + rewrite lookup_insert_eq in H. injection H as ->. left. apply list_elem_of_here.
    + rewrite lookup_insert_ne in H by done. by right.
Qed.

Lemma storeEntries_is_Some entries : forall g id,
  id ∈ entries.*1 \/ is_Some (entityKVStore g !! id) ->
  is_Some (entityKVStore (storeEntries g entries) !! id).
Proof.
  induction entries as [|[id0 kv0] entries IH]; intros g id H.
  - destruct H as [H|H]; [by apply elem_of_nil in H | exact H].
  - cbn [storeEntries foldl]. apply IH. cbn in H.
    rewrite elem_of_cons in H. destruct H as [[->|H]|H].
    + right. cbn. rewrite lookup_insert_eq. by eexists.
    + by left.
    + right. cbn. destruct (decide (id = id0)) as [->|Hne].
      * rewrite lookup_insert_eq. by eexists.
      * by rewrite lookup_insert_ne.
Qed.

(** When no identifier is written twice, every entry written is there at
    the end. *)
Lemma storeEntries_written entries : forall g id kv,
  NoDup entries.*1 -> (id, kv) ∈ entries ->
  entityKVStore (storeEntries g entries) !! id = Some kv.
Proof.
  induction entries as [|[id0 kv0] entries IH]; intros g id kv Hnd Hin.
  - by apply elem_of_nil in Hin.
  - cbn in Hnd. apply NoDup_cons in Hnd as [Hfresh Hnd].
    cbn [storeEntries foldl]. apply elem_of_cons in Hin as [Heq|Hin].
    + injection Heq as -> ->.
      match goal with
      | |- entityKVStore (foldl ?f ?g0 entries) !! _ = _ =>
          destruct (entityKVStore (foldl f g0 entries) !! id0) as [kv'|] eqn:E
      end.
      * apply storeEntries_lookup in E as [E|E].
        -- exfalso. apply Hfresh. by apply (list_elem_of_fmap_2 fst) in E.
        -- cbn in E. by rewrite lookup_insert_eq in E.
      * assert (Hs : is_Some (entityKVStore (storeEntries
                  (mkGraphIndexingModule (<[id0 := kv0]> (entityKVStore g))
                     (relationKVStore g)
                     (addKey id0 (keyToEntities g) (EntityName kv0))
                     (keyToRelations g)) entries) !! id0)).
        { apply storeEntries_is_Some. right. cbn. rewrite lookup_insert_eq. by eexists. }
        unfold storeEntries in Hs. rewrite E in Hs. by destruct Hs.
    + by apply IH.
Qed.

Lemma storeEntries_filed entries : forall g, filed g -> filed (storeEntries g entries).
Proof.
  induction entries as [|[id0 kv0] entries IH]; intros g Hg; [exact Hg|].
  cbn [storeEntries foldl]. apply IH. destruct Hg as [He Hr].
  split; [|exact Hr]. cbn. intros id kv Hkv.
  rewrite addKey_lookup. destruct (decide (id = id0)) as [->|Hne].
  - rewrite lookup_insert_eq in Hkv. injection Hkv as ->.
    rewrite String.eqb_refl. cbn. apply elem_of_app. right. apply list_elem_of_here.
  - rewrite lookup_insert_ne in Hkv by done. apply He in Hkv.
    destruct (String.eqb (EntityName kv) (EntityName kv0)); [|exact Hkv].
    cbn. apply elem_of_app. by left.
Qed.

Lemma filed_found g id kv :
  filed g -> entityKVStore g !! id = Some kv ->
  kv ∈ GetEntitiesByKey g (EntityName kv).
Proof.
  intros [He _] Hkv. unfold GetEntitiesByKey.
  apply list_elem_of_omap. exists id. split; [by apply He | exact Hkv].
Qed.

Lemma filed_new : filed NewGraphIndexingModule.
Proof. split; intros ? ? *; cbn; by rewrite lookup_empty. Qed.

Lemma created_shape recipes ingredients cookingSteps id kv :
  (id, kv) ∈ created Sprintf_v ofProperties recipes ingredients cookingSteps ->
  eIndexKeys kv = [EntityName kv] /\
  EntityName kv <> EmptyString /\
  (EntityType kv = "Recipe" \/ EntityType kv = "Ingredient"
   \/ EntityType kv = "CookingStep") /\
  default ∅ (eMetadata kv) !! "node_id" = Some (VStr id).
Proof.
  unfold created. rewrite !elem_of_app, !list_elem_of_fmap.
  intros [(e & Heq & _)|[(e & Heq & _)|(e & Heq & _)]]; injection Heq as -> ->;
    (split; [reflexivity|]); (split; [|split; [auto|reflexivity]]); cbn.
  - destruct (String.eqb (Name e) EmptyString) eqn:E; [discriminate|].
    by apply String.eqb_neq in E.
  - destruct (String.eqb (Name e) EmptyString) eqn:E; [discriminate|].
    by apply String.eqb_neq in E.
  - discriminate.
Qed.

(** X3: CreateEntityKeyValues on a new index stores an entry under the
    node id of every recipe, ingredient and cooking step it is given; every
    entry of the store has a non-empty name, that name as its only index
    key, one of the three entity types and its own identifier as node_id
    annotation, and is among the entities GetEntitiesByKey returns for its
    name; the relation store and the relation keys stay empty. *)
Theorem create_entities recipes ingredients cookingSteps :
  let g :=
    CreateEntityKeyValues Sprintf_v ofProperties NewGraphIndexingModule
      recipes ingredients cookingSteps in
  (forall entity,
     entity ∈ recipes ++ ingredients ++ cookingSteps ->
     is_Some (entityKVStore g !! NodeID entity)) /\
  (forall entityID entityKV,
     entityKVStore g !! entityID = Some entityKV ->
     eIndexKeys entityKV = [EntityName entityKV] /\
     EntityName entityKV <> EmptyString /\
     (EntityType entityKV = "Recipe" \/ EntityType entityKV = "Ingredient"
      \/ EntityType entityKV = "CookingStep") /\
     default ∅ (eMetadata entityKV) !! "node_id" = Some (VStr entityID) /\
     entityKV ∈ GetEntitiesByKey g (EntityName entityKV)) /\
  relationKVStore g = ∅ /\ keyToRelations g = ∅.
Proof.
  cbv zeta. rewrite CreateEntityKeyValues_created.
  split; [|split].
  - intros entity Hin. apply storeEntries_is_Some. left.
    unfold created. rewrite !fmap_app, <- !list_fmap_compose.
    rewrite !elem_of_app in Hin. rewrite !elem_of_app, !list_elem_of_fmap.
    destruct Hin as [H|[H|H]]; [left | right; left | right; right];
      by exists entity.
  - intros id kv Hkv.
    pose proof (filed_found _ _ _ (storeEntries_filed _ _ filed_new) Hkv) as Hfound.
    apply storeEntries_lookup in Hkv as [Hkv|Hkv];
      [|cbn in Hkv; by rewrite lookup_empty in Hkv].
    destruct (created_shape _ _ _ _ _ Hkv) as (H1 & H2 & H3 & H4).
    auto 6.
  - apply (storeEntries_relations _ NewGraphIndexingModule).
Qed.

Lemma idsFor_names (store : gmap string EntityKeyValue) key entries :
  (forall id kv, (id, kv) ∈ entries -> store !! id = Some kv) ->
  omap (fun id => store !! id) (idsFor (fun kv => [EntityName kv]) key entries)
  = filter (fun kv => EntityName kv = key) entries.*2.
Proof.
  induction entries as [|[id kv] entries IH]; intros Hstore; [reflexivity|].
  unfold idsFor. cbn [mbind list_bind]. fold (idsFor (fun kv => [EntityName kv]) key entries).
  rewrite omap_app, IH
    by (intros id' kv' H; by apply Hstore, list_elem_of_further).
  cbn [fmap list_fmap snd List.filter]. rewrite filter_cons.
  destruct (decide (EntityName kv = key)) as [Heq|Hne].
  - assert (E : String.eqb key (EntityName kv) = true)
      by (by apply String.eqb_eq).
    rewrite E. cbn. by rewrite (Hstore id kv) by apply list_elem_of_here.
  - assert (E : String.eqb key (EntityName kv) = false)
      by (apply String.eqb_neq; congruence).
    rewrite E. reflexivity.
Qed.

(** X4: when the recipes, ingredients and cooking steps given to
    CreateEntityKeyValues on a new index have pairwise different node ids,
    GetEntitiesByKey returns for a key exactly the created entities of
    that name, in the order of their creation. *)
Theorem create_entities_lookup recipes ingredients cookingSteps key :
  NoDup (NodeID <$> recipes ++ ingredients ++ cookingSteps) ->
  GetEntitiesByKey
    (CreateEntityKeyValues Sprintf_v ofProperties NewGraphIndexingModule
       recipes ingredients cookingSteps) key
  = filter (fun entityKV => EntityName entityKV = key)
      (created Sprintf_v ofProperties recipes ingredients cookingSteps).*2.
Proof.
  intros Hnd. rewrite CreateEntityKeyValues_created.
  set (entries := created Sprintf_v ofProperties recipes ingredients cookingSteps).
  assert (Hids : entries.*1 = NodeID <$> recipes ++ ingredients ++ cookingSteps).
  { unfold entries, created. rewrite !fmap_app, <- !list_fmap_compose. reflexivity. }
  unfold GetEntitiesByKey. rewrite storeEntries_keys. cbn [keyToEntities NewGraphIndexingModule].
  rewrite (rebuild_default (fun kv => [EntityName kv])).
  apply idsFor_names. intros id kv Hin.
  apply storeEntries_written; [by rewrite Hids | exact Hin].
Qed.

Lemma addKeys_grows (m : gmap string (list string)) id keys key x :
  x ∈ default [] (m !! key) -> x ∈ default [] (addKeys m id keys !! key).
Proof.
  intros Hx. rewrite addKeys_lookup.
  destruct (List.filter (String.eqb key) keys ≫= (fun _ => [id])); [exact Hx|].
  cbn. apply elem_of_app. by left.
Qed.

Lemma addKeys_filed (m : gmap string (list string)) id keys key :
  key ∈ keys -> id ∈ default [] (addKeys m id keys !! key).
Proof.
  intros Hk. rewrite addKeys_lookup.
  assert (Hin : id ∈ List.filter (String.eqb key) keys ≫= (fun _ => [id])).
  { apply list_elem_of_bind. exists key. split; [apply list_elem_of_here|].
    apply list_elem_of_In, List.filter_In. split; [by apply list_elem_of_In|].
    apply String.eqb_refl. }
  destruct (List.filter (String.eqb key) keys ≫= (fun _ => [id])) as [|y found];
    [by apply elem_of_nil in Hin|].
  cbn. apply elem_of_app. by right.
Qed.

(** Writing a relation entry files it under each of its index keys and
    leaves every other entry filed where it was. *)
Lemma storeRelation_filed (old : string -> RelationKeyValue -> Prop) g i rel :
  (forall id relationKV key,
     relationKVStore g !! id = Some relationKV -> key ∈ rIndexKeys relationKV ->
     old id relationKV \/ id ∈ default [] (keyToRelations g !! key)) ->
  forall id relationKV key,
    relationKVStore (storeRelation config Messages Format Generate Unmarshal g i rel)
      !! id = Some relationKV ->
    key ∈ rIndexKeys relationKV ->
    old id relationKV \/
    id ∈ default []
           (keyToRelations
              (storeRelation config Messages Format Generate Unmarshal g i rel)
            !! key).
Proof.
  intros Hg. unfold storeRelation.
  destruct (entityKVStore g !! Relationship.SourceID rel) as [s|]; [|exact Hg].
  destruct (entityKVStore g !! Relationship.TargetID rel) as [t|]; [|exact Hg].
  cbn. intros id kv key Hkv Hk.
  destruct (decide (id = relationIDOf i rel)) as [->|Hne].
  - rewrite lookup_insert_eq in Hkv. injection Hkv as <-. cbn in Hk.
    right. by apply addKeys_filed.
  - rewrite lookup_insert_ne in Hkv by done.
    destruct (Hg id kv key Hkv Hk) as [Ho|Hin]; [by left|].
    right. by apply addKeys_grows.
Qed.

Lemma storeRelations_filed (old : string -> RelationKeyValue -> Prop) relationships :
  forall g i,
    (forall id relationKV key,
       relationKVStore g !! id = Some relationKV -> key ∈ rIndexKeys relationKV ->
       old id relationKV \/ id ∈ default [] (keyToRelations g !! key)) ->
    forall id relationKV key,
      relationKVStore
        (storeRelations config Messages Format Generate Unmarshal g i relationships)
        !! id = Some relationKV ->
      key ∈ rIndexKeys relationKV ->
      old id relationKV \/
      id ∈ default []
             (keyToRelations
                (storeRelations config Messages Format Generate Unmarshal g i
                   relationships)
              !! key).
Proof.
  induction relationships as [|rel rest IH]; intros g i Hg; [exact Hg|].
  cbn [storeRelations]. apply IH. by apply storeRelation_filed.
Qed.

Lemma storeRelation_entities g i rel :
  entityKVStore (storeRelation config Messages Format Generate Unmarshal g i rel)
  = entityKVStore g /\
  keyToEntities (storeRelation config Messages Format Generate Unmarshal g i rel)
  = keyToEntities g.
Proof.
  unfold storeRelation.
  destruct (entityKVStore g !! Relationship.SourceID rel) as [s|]; [|done].
  by destruct (entityKVStore g !! Relationship.TargetID rel) as [t|].
Qed.

(** What is known of a relation entry written for the relationship at
    position [i]. *)
Lemma storeRelation_lookup g i rel id relationKV :
  relationKVStore (storeRelation config Messages Format Generate Unmarshal g i rel)
    !! id = Some relationKV ->
  relationKVStore g !! id = Some relationKV \/
  (id = relationIDOf i rel /\ RelationID relationKV = id /\
   RelationType relationKV = Relationship.RelationType rel /\
   SourceEntity relationKV = Relationship.SourceID rel /\
   TargetEntity relationKV = Relationship.TargetID rel /\
   is_Some (entityKVStore g !! SourceEntity relationKV) /\
   is_Some (entityKVStore g !! TargetEntity relationKV) /\
   NoDup (rIndexKeys relationKV) /\
   head (rIndexKeys relationKV) = Some (RelationType relationKV)).
Proof.
  unfold storeRelation.
  destruct (entityKVStore g !! Relationship.SourceID rel) as [s|] eqn:Es; [|by left].
  destruct (entityKVStore g !! Relationship.TargetID rel) as [t|] eqn:Et; [|by left].
  cbn. destruct (decide (id = relationIDOf i rel)) as [->|Hne].
  - rewrite lookup_insert_eq. intros H. injection H as <-. right. cbn.
    rewrite Es, Et.
    destruct (generateRelationIndexKeys_head s t (Relationship.RelationType rel))
      as (Hnd & Hhead).
    repeat split; try done; by eexists.
  - rewrite lookup_insert_ne by done. by left.
Qed.

Lemma storeRelations_spec relationships : forall g i,
  let g' := storeRelations config Messages Format Generate Unmarshal g i relationships in
  entityKVStore g' = entityKVStore g /\ keyToEntities g' = keyToEntities g /\
  forall id relationKV,
    relationKVStore g' !! id = Some relationKV ->
    relationKVStore g !! id = Some relationKV \/
    exists j rel,
      relationships !! j = Some rel /\
      id = relationIDOf (i + j) rel /\ RelationID relationKV = id /\
      RelationType relationKV = Relationship.RelationType rel /\
      SourceEntity relationKV = Relationship.SourceID rel /\
      TargetEntity relationKV = Relationship.TargetID rel /\
      is_Some (entityKVStore g !! SourceEntity relationKV) /\
      is_Some (entityKVStore g !! TargetEntity relationKV) /\
      NoDup (rIndexKeys relationKV) /\
      head (rIndexKeys relationKV) = Some (RelationType relationKV).
Proof.
  induction relationships as [|rel rest IH]; intros g i; cbv zeta.
  - cbn. auto.
  - cbn [storeRelations].
    destruct (storeRelation_entities g i rel) as [He Hk].
    destruct (IH (storeRelation config Messages Format Generate Unmarshal g i rel)
                (S i)) as (He' & Hk' & Hl).
    split; [congruence|]. split; [congruence|].
    intros id kv Hkv. apply Hl in Hkv as [Hkv|(j & r & Hj & Hrest)].
    + apply storeRelation_lookup in Hkv as [Hkv|Hkv]; [by left|].
      right. exists 0%nat, rel. rewrite Nat.add_0_r. split; [reflexivity | exact Hkv].
    + right. exists (S j), r. rewrite He in Hrest.
      replace (i + S j)%nat with (S i + j)%nat by lia. split; [exact Hj | exact Hrest].
Qed.

(** X5: on every index, CreateRelationKeyValues leaves the entity store
    and the entity keys as they are; every relation entry it adds comes
    from one of the relationships, carries that relationship's type and
    endpoints, has both endpoints in the entity store, and has index keys
    without duplicates that start with its type; and every entry of the
    relation store that was not there before the call is afterwards among
    the relations GetRelationsByKey returns for each of its index keys.
    When every relation entry of the index was filed under its keys before
    the call, this holds of every entry of the relation store. *)
Theorem create_relations g relationships :
  let g' :=
    CreateRelationKeyValues config Messages Format Generate Unmarshal g relationships in
  entityKVStore g' = entityKVStore g /\ keyToEntities g' = keyToEntities g /\
  (forall relationID relationKV,
     relationKVStore g' !! relationID = Some relationKV ->
     relationKVStore g !! relationID = Some relationKV \/
     exists i rel,
       relationships !! i = Some rel /\
       relationID = relationIDOf i rel /\ RelationID relationKV = relationID /\
       RelationType relationKV = Relationship.RelationType rel /\
       SourceEntity relationKV = Relationship.SourceID rel /\
       TargetEntity relationKV = Relationship.TargetID rel /\
       is_Some (entityKVStore g !! SourceEntity relationKV) /\
       is_Some (entityKVStore g !! TargetEntity relationKV) /\
       NoDup (rIndexKeys relationKV) /\
       head (rIndexKeys relationKV) = Some (RelationType relationKV)) /\
  (forall relationID relationKV key,
     relationKVStore g' !! relationID = Some relationKV ->
     relationKVStore g !! relationID <> Some relationKV ->
     key ∈ rIndexKeys relationKV ->
     relationKV ∈ GetRelationsByKey g' key) /\
  ((forall relationID relationKV key,
      relationKVStore g !! relationID = Some relationKV ->
      key ∈ rIndexKeys relationKV ->
      relationID ∈ default [] (keyToRelations g !! key)) ->
   forall relationID relationKV key,
     relationKVStore g' !! relationID = Some relationKV ->
     key ∈ rIndexKeys relationKV ->
     relationKV ∈ GetRelationsByKey g' key).
Proof.
  cbv zeta. unfold CreateRelationKeyValues.
  destruct (storeRelations_spec relationships g 0) as (He & Hk & Hl).
  split; [exact He|]. split; [exact Hk|]. split; [exact Hl|]. split.
  - intros id kv key Hkv Hnew Hin.
    destruct (storeRelations_filed
                (fun id kv => relationKVStore g !! id = Some kv)
                relationships g 0 (fun id kv key Hkv _ => or_introl Hkv)
                id kv key Hkv Hin) as [Hold|Hfiled]; [done|].
    unfold GetRelationsByKey. apply list_elem_of_omap. by exists id.
  - intros Hg id kv key Hkv Hin.
    destruct (storeRelations_filed (fun _ _ => False) relationships g 0
                (fun id kv key Hkv Hin => or_intror (Hg id kv key Hkv Hin))
                id kv key Hkv Hin) as [[]|Hfiled].
    unfold GetRelationsByKey. apply list_elem_of_omap. by exists id.
Qed.

End Build.


Lemma elem_of_idsFor {V} (keysOf : V -> list string) key entries id :
  id ∈ idsFor keysOf key entries
  <-> exists kv, (id, kv) ∈ entries /\ key ∈ keysOf kv.
Proof.
  unfold idsFor. rewrite list_elem_of_bind. split.
  - intros ([id' kv] & Hid & Hin).
    apply list_elem_of_bind in Hid as (k & Hk & Hf).
    apply list_elem_of_singleton in Hk as ->.
    apply list_elem_of_In, List.filter_In in Hf as [Hf Heq].
    apply String.eqb_eq in Heq as <-.
    exists kv. split; [exact Hin | by apply list_elem_of_In].
  - intros (kv & Hin & Hk). exists (id, kv). split; [|exact Hin].
    apply list_elem_of_bind. exists key. split; [apply list_elem_of_here|].
    apply list_elem_of_In, List.filter_In. split; [by apply list_elem_of_In|].
    apply String.eqb_refl.
Qed.

Lemma rebuilt_ids {V} (keysOf : V -> list string) (store : gmap string V)
    entries key id :
  entries ≡ₚ map_to_list store ->
  id ∈ default []
         (foldl (fun m '(id, kv) => addKeys m id (keysOf kv)) ∅ entries !! key)
  <-> exists kv, store !! id = Some kv /\ key ∈ keysOf kv.
Proof.
  intros Hperm. rewrite rebuild_default, elem_of_idsFor.
  split; intros (kv & Hin & Hk); exists kv; (split; [|exact Hk]).
  - apply elem_of_map_to_list. by rewrite <- Hperm.
  - rewrite Hperm. by apply elem_of_map_to_list.
Qed.

(** X6: after rebuildKeyMappings, in whatever order the runtime hands out
    the entries of the stores, an entity id is filed under a key exactly
    when the store holds an entity under that id whose index keys contain
    the key, and GetEntitiesByKey returns for a key exactly the stored
    entities that carry it; no key is left with an empty id list; and the
    same holds of the relations. *)
Theorem rebuild_indexes g g' :
  rebuildKeyMappings g g' ->
  (forall key entityID,
     entityID ∈ default [] (keyToEntities g' !! key)
     <-> exists entityKV,
           entityKVStore g !! entityID = Some entityKV /\
           key ∈ eIndexKeys entityKV) /\
  (forall key entityKV,
     entityKV ∈ GetEntitiesByKey g' key
     <-> exists entityID,
           entityKVStore g !! entityID = Some entityKV /\
           key ∈ eIndexKeys entityKV) /\
  (forall key relationID,
     relationID ∈ default [] (keyToRelations g' !! key)
     <-> exists relationKV,
           relationKVStore g !! relationID = Some relationKV /\
           key ∈ rIndexKeys relationKV) /\
  (forall key relationKV,
     relationKV ∈ GetRelationsByKey g' key
     <-> exists relationID,
           relationKVStore g !! relationID = Some relationKV /\
           key ∈ rIndexKeys relationKV) /\
  (forall key, keyToEntities g' !! key <> Some [] /\ keyToRelations g' !! key <> Some []).
Proof.
  intros (entities & relations & He & Hr & ->).
  assert (H1 : forall key entityID,
     entityID ∈ default [] (rebuildEntities entities !! key)
     <-> exists entityKV,
           entityKVStore g !! entityID = Some entityKV /\ key ∈ eIndexKeys entityKV).
  { intros key id. by apply rebuilt_ids. }
  assert (H2 : forall key relationID,
     relationID ∈ default [] (rebuildRelations relations !! key)
     <-> exists relationKV,
           relationKVStore g !! relationID = Some relationKV /\
           key ∈ rIndexKeys relationKV).
  { intros key id. by apply rebuilt_ids. }
  split; [exact H1|]. split; [|split; [exact H2|split]].
  - intros key kv. unfold GetEntitiesByKey. cbn. rewrite list_elem_of_omap. split.
    + intros (id & Hid & Hkv). apply H1 in Hid as (kv' & Hkv' & Hk).
      exists id. split; [exact Hkv | congruence].
    + intros (id & Hkv & Hk). exists id. split; [|exact Hkv].
      apply H1. by exists kv.
  - intros key kv. unfold GetRelationsByKey. cbn. rewrite list_elem_of_omap. split.
    + intros (id & Hid & Hkv). apply H2 in Hid as (kv' & Hkv' & Hk).
      exists id. split; [exact Hkv | congruence].
    + intros (id & Hkv & Hk). exists id. split; [|exact Hkv].
      apply H2. by exists kv.
  - intros key. cbn. unfold rebuildEntities, rebuildRelations.
    rewrite !rebuild_lookup, !lookup_empty. cbn.
    split.
    + by destruct (idsFor eIndexKeys key entities).
    + by destruct (idsFor rIndexKeys key relations).
Qed.

Lemma rebuild_indexes_witness :
  rebuildKeyMappings Examples.twoChickens
    (rebuildKeyMappingsIn [("i1", Examples.chickenA); ("i2", Examples.chickenB)] []
       Examples.twoChickens) /\
  forall entityKV,
    entityKV ∈ GetEntitiesByKey
                 (rebuildKeyMappingsIn
                    [("i1", Examples.chickenA); ("i2", Examples.chickenB)] []
                    Examples.twoChickens) "鸡肉"
    <-> exists entityID,
          entityKVStore Examples.twoChickens !! entityID = Some entityKV /\
          "鸡肉" ∈ eIndexKeys entityKV.
Proof.
  assert (H : rebuildKeyMappings Examples.twoChickens
                (rebuildKeyMappingsIn
                   [("i1", Examples.chickenA); ("i2", Examples.chickenB)] []
                   Examples.twoChickens)).
  { by apply twoChickens_rebuilt. }
  split; [exact H|].
  exact (proj1 (proj2 (rebuild_indexes _ _ H)) "鸡肉").
Defined.

End IndexBuildFacts.

(** ** Deduplication of the keyword index *)

Module DedupFacts.

Import Strings KeywordIndex IndexBuild Reference GoFacts LoopFacts IndexFacts
  IndexBuildFacts.

Lemma append_assoc (a b c : string) : (a +:+ b) +:+ c = a +:+ (b +:+ c).
Proof.
  induction a as [|x a IH]; [reflexivity|].
  change (String x ((a +:+ b) +:+ c) = String x (a +:+ (b +:+ c))).
  by rewrite IH.
Qed.

Lemma append_nil_r (a : string) : a +:+ EmptyString = a.
Proof.
  induction a as [|x a IH]; [reflexivity|].
  change (String x (a +:+ EmptyString) = String x a). by rewrite IH.
Qed.

Lemma extends_refl kv : extends kv kv.
Proof.
  unfold extends. repeat split. exists EmptyString. by rewrite append_nil_r.
Qed.

Lemma extends_trans kv1 kv2 kv3 : extends kv1 kv2 -> extends kv2 kv3 -> extends kv1 kv3.
Proof.
  intros (H1 & H2 & H3 & H4 & m & H5) (G1 & G2 & G3 & G4 & n & G5).
  unfold extends. repeat split; try congruence.
  exists (m +:+ n). by rewrite G5, H5, append_assoc.
Qed.

Lemma extended_refl store : extended store store.
Proof. intros id. destruct (store !! id); [apply extends_refl | done]. Qed.

Lemma duplicates_tail ids : duplicates ids = tail ids.
Proof. by destruct ids as [|a [|b ids]]. Qed.

Lemma lookup_foldl_delete {V} ids : forall (m : gmap string V) i,
  foldl (fun m id => delete id m) m ids !! i
  = if decide (i ∈ ids) then None else m !! i.
Proof.
  induction ids as [|id ids IH]; intros m i; cbn [foldl].
  - by rewrite decide_False by apply not_elem_of_nil.
  - rewrite IH. destruct (decide (i ∈ ids)) as [Hin|Hout].
    + by rewrite decide_True by (by apply list_elem_of_further).
    + destruct (decide (i = id)) as [->|Hne].
      * rewrite decide_True by apply list_elem_of_here. apply lookup_delete_eq.
      * rewrite decide_False by (rewrite elem_of_cons; tauto).
        by apply lookup_delete_ne.
Qed.

Section Grouping.

Context {V : Type}.
Variable keyOf : V -> string.
Variable store : gmap string V.
Variable entries : list (string * V).
Variable groups : list (string * list string).

Hypothesis entries_store : entries ≡ₚ map_to_list store.
Hypothesis groups_entries : groups ≡ₚ map_to_list (groupIDs keyOf entries).

Lemma groupIDs_rebuild l : forall m : gmap string (list string),
  foldl (fun m '(id, kv) => addKey id m (keyOf kv)) m l
  = foldl (fun m '(id, kv) => addKeys m id [keyOf kv]) m l.
Proof.
  induction l as [|[id kv] l IH]; intros m; [reflexivity|].
  cbn [foldl]. apply IH.
Qed.

Lemma groupIDs_lookup k ids :
  groupIDs keyOf entries !! k = Some ids
  <-> ids = idsFor (fun kv => [keyOf kv]) k entries /\ ids <> [].
Proof.
  unfold groupIDs. rewrite groupIDs_rebuild, rebuild_lookup, lookup_empty.
  destruct (idsFor (fun kv => [keyOf kv]) k entries) as [|x l].
  - split; [discriminate | intros [-> H]; done].
  - cbn. split; [intros H; injection H as <-; done | intros [-> _]; done].
Qed.

Lemma elem_of_groups k ids :
  (k, ids) ∈ groups
  <-> ids = idsFor (fun kv => [keyOf kv]) k entries /\ ids <> [].
Proof.
  rewrite groups_entries, elem_of_map_to_list. apply groupIDs_lookup.
Qed.

Lemma group_member k ids id :
  (k, ids) ∈ groups ->
  id ∈ ids <-> exists kv, store !! id = Some kv /\ keyOf kv = k.
Proof.
  intros [-> _]%elem_of_groups. rewrite elem_of_idsFor.
  split; intros (kv & H1 & H2); exists kv.
  - apply list_elem_of_singleton in H2 as ->. split; [|reflexivity].
    apply elem_of_map_to_list. by rewrite <- entries_store.
  - split; [|by apply list_elem_of_singleton].
    rewrite entries_store. by apply elem_of_map_to_list.
Qed.

Lemma group_functional k ids ids' :
  (k, ids) ∈ groups -> (k, ids') ∈ groups -> ids = ids'.
Proof. intros [-> _]%elem_of_groups [-> _]%elem_of_groups. reflexivity. Qed.

Lemma group_of id kv :
  store !! id = Some kv -> exists ids, (keyOf kv, ids) ∈ groups /\ id ∈ ids.
Proof.
  intros Hkv.
  assert (Hin : id ∈ idsFor (fun kv => [keyOf kv]) (keyOf kv) entries).
  { apply elem_of_idsFor. exists kv. split; [|apply list_elem_of_here].
    rewrite entries_store. by apply elem_of_map_to_list. }
  exists (idsFor (fun kv => [keyOf kv]) (keyOf kv) entries).
  split; [|exact Hin]. apply elem_of_groups. split; [reflexivity|].
  intros E. rewrite E in Hin. by apply elem_of_nil in Hin.
Qed.

Lemma idsFor_sublist k l :
  idsFor (fun kv : V => [keyOf kv]) k l `sublist_of` l.*1.
Proof.
  induction l as [|[id kv] l IH]; [constructor|].
  unfold idsFor. cbn [mbind list_bind List.filter].
  fold (idsFor (fun kv : V => [keyOf kv]) k l).
  destruct (String.eqb k (keyOf kv)); cbn.
  - by apply sublist_skip.
  - by apply sublist_cons.
Qed.

Lemma group_NoDup k ids : (k, ids) ∈ groups -> NoDup ids.
Proof.
  intros [-> _]%elem_of_groups.
  eapply sublist_NoDup; [|apply idsFor_sublist].
  rewrite entries_store. apply NoDup_fst_map_to_list.
Qed.

(** The identifiers marked for removal: all but the first of every group. *)
Lemma elem_of_removed id :
  id ∈ groups ≫= (fun group => duplicates (snd group))
  <-> exists k ids, (k, ids) ∈ groups /\ id ∈ tail ids.
Proof.
  rewrite list_elem_of_bind. split.
  - intros ([k ids] & Hid & Hin). rewrite duplicates_tail in Hid.
    by exists k, ids.
  - intros (k & ids & Hin & Hid). exists (k, ids).
    by rewrite duplicates_tail.
Qed.

Lemma elem_of_tail {A} (x : A) l : x ∈ tail l -> x ∈ l.
Proof. destruct l; [done|]. cbn. apply list_elem_of_further. Qed.

(** Two entries of one key that both stay have the same identifier. *)
Lemma kept_unique id1 id2 kv1 kv2 :
  store !! id1 = Some kv1 -> store !! id2 = Some kv2 ->
  keyOf kv1 = keyOf kv2 ->
  id1 ∉ groups ≫= (fun group => duplicates (snd group)) ->
  id2 ∉ groups ≫= (fun group => duplicates (snd group)) ->
  id1 = id2.
Proof.
  intros H1 H2 Hk Hout1 Hout2.
  destruct (group_of id1 kv1 H1) as (ids & Hg & Hin1).
  assert (Hin2 : id2 ∈ ids).
  { apply (group_member _ _ _ Hg). exists kv2. by split. }
  destruct ids as [|h t]; [by apply elem_of_nil in Hin1|].
  assert (Hhead : forall id, id ∈ h :: t ->
            id ∉ groups ≫= (fun group => duplicates (snd group)) -> id = h).
  { intros id Hin Hout. apply elem_of_cons in Hin as [->|Hin]; [reflexivity|].
    exfalso. apply Hout, elem_of_removed. by exists (keyOf kv1), (h :: t). }
  rewrite (Hhead id1 Hin1 Hout1), (Hhead id2 Hin2 Hout2). reflexivity.
Qed.

(** Of every key of the store one entry stays. *)
Lemma kept_exists id kv :
  store !! id = Some kv ->
  exists id' kv',
    store !! id' = Some kv' /\ keyOf kv' = keyOf kv /\
    id' ∉ groups ≫= (fun group => duplicates (snd group)).
Proof.
  intros Hkv. destruct (group_of id kv Hkv) as (ids & Hg & Hin).
  destruct ids as [|h t]; [by apply elem_of_nil in Hin|].
  destruct (proj1 (group_member _ _ h Hg)) as (kv' & Hkv' & Hk');
    [apply list_elem_of_here|].
  exists h, kv'. split; [exact Hkv'|]. split; [exact Hk'|].
  intros (k & ids' & Hg' & Hin')%elem_of_removed.
  assert (Hk : k = keyOf kv).
  { apply elem_of_tail in Hin'.
    apply (group_member _ _ _ Hg') in Hin' as (kv'' & Hkv'' & <-).
    congruence. }
  subst k. rewrite (group_functional _ _ _ Hg' Hg) in Hin'. cbn in Hin'.
  apply group_NoDup in Hg. apply NoDup_cons in Hg as [Hg _]. by apply Hg.
Qed.

Lemma groups_stored k ids id :
  (k, ids) ∈ groups -> id ∈ ids -> is_Some (store !! id).
Proof.
  intros Hg Hin. apply (group_member _ _ _ Hg) in Hin as (kv & Hkv & _).
  by eexists.
Qed.

End Grouping.

Lemma mergeDuplicate_spec store primaryID entityID cur marked :
  extended store cur ->
  is_Some (store !! primaryID) -> is_Some (store !! entityID) ->
  exists cur',
    mergeDuplicate primaryID entityID (cur, marked) = Ok (cur', marked ++ [entityID]) /\
    extended store cur'.
Proof.
  intros Hext [p0 Hp] [d0 Hd]. unfold mergeDuplicate.
  pose proof (Hext primaryID) as Hp'. rewrite Hp in Hp'.
  destruct (cur !! primaryID) as [p|] eqn:Ep; [|done].
  pose proof (Hext entityID) as Hd'. rewrite Hd in Hd'.
  destruct (cur !! entityID) as [d|] eqn:Ed; [|done].
  eexists. split; [reflexivity|].
  intros id. destruct (decide (id = primaryID)) as [->|Hne].
  - rewrite Hp, lookup_insert_eq. eapply extends_trans; [exact Hp'|].
    unfold extends. cbn. repeat split. by eexists.
  - rewrite lookup_insert_ne by done. apply Hext.
Qed.

Lemma foldM_mergeDuplicate store primaryID ids : forall cur marked,
  extended store cur -> is_Some (store !! primaryID) ->
  Forall (fun id => is_Some (store !! id)) ids ->
  exists cur',
    foldM (mergeDuplicate primaryID) ids (cur, marked) = Ok (cur', marked ++ ids) /\
    extended store cur'.
Proof.
  induction ids as [|id ids IH]; intros cur marked Hext Hp Hids.
  - exists cur. by rewrite app_nil_r.
  - apply Forall_cons in Hids as [Hid Hids]. cbn [foldM].
    destruct (mergeDuplicate_spec store primaryID id cur marked Hext Hp Hid)
      as (cur1 & -> & Hext1).
    cbn. destruct (IH cur1 (marked ++ [id]) Hext1 Hp Hids) as (cur' & -> & Hext').
    exists cur'. by rewrite <- app_assoc.
Qed.

Lemma mergeGroup_spec store group cur marked :
  extended store cur ->
  Forall (fun id => is_Some (store !! id)) (snd group) ->
  exists cur',
    mergeGroup group (cur, marked) = Ok (cur', marked ++ duplicates (snd group)) /\
    extended store cur'.
Proof.
  intros Hext Hids. unfold mergeGroup. cbv zeta.
  destruct (snd group) as [|primaryID [|second rest]].
  - exists cur. by rewrite app_nil_r.
  - exists cur. by rewrite app_nil_r.
  - apply Forall_cons in Hids as [Hp Hids].
    by apply foldM_mergeDuplicate.
Qed.

Lemma foldM_mergeGroup store groups : forall cur marked,
  extended store cur ->
  Forall (fun group => Forall (fun id => is_Some (store !! id)) (snd group)) groups ->
  exists cur',
    foldM mergeGroup groups (cur, marked)
    = Ok (cur', marked ++ (groups ≫= (fun group => duplicates (snd group)))) /\
    extended store cur'.
Proof.
  induction groups as [|group groups IH]; intros cur marked Hext Hall.
  - exists cur. cbn. by rewrite app_nil_r.
  - apply Forall_cons in Hall as [Hg Hall]. cbn [foldM].
    destruct (mergeGroup_spec store group cur marked Hext Hg) as (cur1 & -> & Hext1).
    cbn. destruct (IH cur1 (marked ++ duplicates (snd group)) Hext1 Hall)
      as (cur' & -> & Hext').
    exists cur'. by rewrite <- app_assoc.
Qed.

(** The entity half never panics: it returns the store with every first
    entry of a name extended and every other entry of that name deleted. *)
Lemma dedupEntities_spec store entries groups :
  entries ≡ₚ map_to_list store ->
  groups ≡ₚ map_to_list (groupIDs EntityName entries) ->
  exists cur,
    extended store cur /\
    dedupEntities groups store
    = Ok (foldl (fun store id => delete id store) cur
            (groups ≫= (fun group => duplicates (snd group)))).
Proof.
  intros He Hg.
  destruct (foldM_mergeGroup store groups store [] (extended_refl store))
    as (cur & Hrun & Hext).
  { apply Forall_forall. intros [k ids] Hin. apply Forall_forall. intros id Hid.
    by apply (groups_stored EntityName store entries groups He Hg k ids). }
  exists cur. split; [exact Hext|].
  unfold dedupEntities. rewrite Hrun. reflexivity.
Qed.

Lemma rebuilt_found {V} (keysOf : V -> list string) (store : gmap string V)
    entries key v :
  entries ≡ₚ map_to_list store ->
  v ∈ omap (fun id => store !! id)
        (default []
           (foldl (fun m '(id, kv) => addKeys m id (keysOf kv)) ∅ entries !! key))
  <-> exists id, store !! id = Some v /\ key ∈ keysOf v.
Proof.
  intros Hperm. rewrite list_elem_of_omap. split.
  - intros (id & Hid & Hv).
    apply (rebuilt_ids keysOf store entries key id Hperm) in Hid as (v' & Hv' & Hk).
    exists id. split; [exact Hv | congruence].
  - intros (id & Hv & Hk). exists id. split; [|exact Hv].
    apply (rebuilt_ids keysOf store entries key id Hperm). by exists v.
Qed.

(** X7: DeduplicateEntitiesAndRelations returns, in whatever order the
    runtime hands out the entries of the maps; afterwards no two entities
    of the store have the same name and no two relations the same source,
    target and type signature; every name and every signature that was in
    the stores is still there; every entity left is an entity that was
    there under the same identifier, with the same name, keys, type and
    annotations and a content that starts with its old content; every
    relation left is unchanged; and the key mappings are rebuilt:
    GetEntitiesByKey and GetRelationsByKey return for a key exactly the
    entries left that carry it. *)
Theorem deduplicate g r :
  DeduplicateEntitiesAndRelations g r ->
  exists g',
    r = Ok g' /\
    (forall id1 id2 kv1 kv2,
       entityKVStore g' !! id1 = Some kv1 -> entityKVStore g' !! id2 = Some kv2 ->
       EntityName kv1 = EntityName kv2 -> id1 = id2) /\
    (forall id kv,
       entityKVStore g !! id = Some kv ->
       exists id' kv',
         entityKVStore g' !! id' = Some kv' /\ EntityName kv' = EntityName kv) /\
    (forall id kv',
       entityKVStore g' !! id = Some kv' ->
       exists kv, entityKVStore g !! id = Some kv /\ extends kv kv') /\
    (forall id1 id2 rel1 rel2,
       relationKVStore g' !! id1 = Some rel1 -> relationKVStore g' !! id2 = Some rel2 ->
       signature rel1 = signature rel2 -> id1 = id2) /\
    (forall id rel,
       relationKVStore g !! id = Some rel ->
       exists id' rel',
         relationKVStore g' !! id' = Some rel' /\ signature rel' = signature rel) /\
    (forall id rel,
       relationKVStore g' !! id = Some rel -> relationKVStore g !! id = Some rel) /\
    (forall key kv,
       kv ∈ GetEntitiesByKey g' key
       <-> exists id, entityKVStore g' !! id = Some kv /\ key ∈ eIndexKeys kv) /\
    (forall key rel,
       rel ∈ GetRelationsByKey g' key
       <-> exists id, relationKVStore g' !! id = Some rel /\ key ∈ rIndexKeys rel).
Proof.
  intros (entries & groups & rentries & rgroups & He & Hg & Hre & Hrg & Hrun).
  destruct (dedupEntities_spec _ _ _ He Hg) as (cur & Hext & Hded).
  rewrite Hded in Hrun. destruct Hrun as (g' & Hreb & ->).
  destruct Hreb as (es & rs & Hes & Hrs & ->). cbn in Hes, Hrs.
  exists (rebuildKeyMappingsIn es rs
            (mkGraphIndexingModule
               (foldl (fun store id => delete id store) cur
                  (groups ≫= (fun group => duplicates (snd group))))
               (dedupRelations rgroups (relationKVStore g))
               (keyToEntities g) (keyToRelations g))).
  split; [reflexivity|]. cbn [rebuildKeyMappingsIn entityKVStore relationKVStore].
  set (removed := groups ≫= (fun group => duplicates (snd group))).
  set (rremoved := rgroups ≫= (fun group => duplicates (snd group))).
  assert (Hleft : forall id kv',
            foldl (fun store id => delete id store) cur removed !! id = Some kv' ->
            (exists kv, entityKVStore g !! id = Some kv /\ extends kv kv') /\
            id ∉ removed).
  { intros id kv'. rewrite lookup_foldl_delete.
    destruct (decide (id ∈ removed)) as [|Hout]; [discriminate|].
    intros Hkv. split; [|exact Hout].
    pose proof (Hext id) as Hid. rewrite Hkv in Hid.
    destruct (entityKVStore g !! id) as [kv|]; [|done]. by exists kv. }
  assert (Hrleft : forall id rel,
            dedupRelations rgroups (relationKVStore g) !! id = Some rel ->
            relationKVStore g !! id = Some rel /\ id ∉ rremoved).
  { intros id rel. unfold dedupRelations. rewrite lookup_foldl_delete.
    fold rremoved. by destruct (decide (id ∈ rremoved)). }
  split; [|split; [|split; [|split; [|split; [|split; [|split]]]]]].
  - intros id1 id2 kv1 kv2 H1 H2 Hn.
    apply Hleft in H1 as ((k1 & Hk1 & Hx1 & _) & Ho1).
    apply Hleft in H2 as ((k2 & Hk2 & Hx2 & _) & Ho2).
    apply (kept_unique EntityName (entityKVStore g) entries groups He Hg
             id1 id2 k1 k2 Hk1 Hk2); [congruence | exact Ho1 | exact Ho2].
  - intros id kv Hkv.
    destruct (kept_exists EntityName (entityKVStore g) entries groups He Hg id kv Hkv)
      as (id' & kv0 & Hkv0 & Hn & Hout).
    pose proof (Hext id') as Hid'. rewrite Hkv0 in Hid'.
    destruct (cur !! id') as [kv'|] eqn:Ecur; [|done].
    exists id', kv'. rewrite lookup_foldl_delete.
    fold removed. rewrite decide_False by exact Hout.
    split; [exact Ecur|]. destruct Hid' as [Hname _]. congruence.
  - intros id kv' Hkv'. by apply Hleft in Hkv' as [H _].
  - intros id1 id2 r1 r2 H1 H2 Hs.
    apply Hrleft in H1 as [H1 Ho1]. apply Hrleft in H2 as [H2 Ho2].
    by apply (kept_unique signature (relationKVStore g) rentries rgroups Hre Hrg
                id1 id2 r1 r2 H1 H2).
  - intros id rel Hrel.
    destruct (kept_exists signature (relationKVStore g) rentries rgroups Hre Hrg
                id rel Hrel) as (id' & rel' & Hrel' & Hs & Hout).
    exists id', rel'. split; [|exact Hs].
    unfold dedupRelations. rewrite lookup_foldl_delete.
    fold rremoved. by rewrite decide_False by exact Hout.
  - intros id rel Hrel. by apply Hrleft in Hrel as [H _].
  - intros key kv. unfold GetEntitiesByKey. cbn. unfold rebuildEntities.
    by apply rebuilt_found.
  - intros key rel. unfold GetRelationsByKey. cbn. unfold rebuildRelations.
    by apply rebuilt_found.
Qed.

End DedupFacts.

(** ** Statistics, export and import *)

Module ExchangeFacts.

Import Strings KeywordIndex IndexBuild IndexExchange GoFacts IndexFacts
  IndexBuildFacts DedupFacts.

(** A loop over the entries of a map whose steps commute ends in the same
    state in whatever order the entries arrive. *)
Lemma foldl_Permutation {A B} (f : B -> A -> B) l l' :
  (forall b x y, f (f b x) y = f (f b y) x) ->
  l ≡ₚ l' -> forall b, foldl f b l = foldl f b l'.
Proof.
  intros Hf Hperm. induction Hperm as [|x l l' _ IH|x y l|l l' l'' _ IH1 _ IH2];
    intros b; cbn [foldl].
  - reflexivity.
  - apply IH.
  - by rewrite Hf.
  - by rewrite IH1.
Qed.

Lemma wrap64_add_l a b : wrap64 (wrap64 a + b) = wrap64 (a + b).
Proof.
  unfold wrap64. f_equal.
  replace ((a + 2 ^ 63) mod 2 ^ 64 - 2 ^ 63 + b + 2 ^ 63)
    with ((a + 2 ^ 63) mod 2 ^ 64 + b) by lia.
  rewrite Zplus_mod_idemp_l. f_equal. lia.
Qed.

Lemma countKeys_Permutation {V} (keysOf : V -> list string) entries entries' :
  entries ≡ₚ entries' -> countKeys keysOf entries = countKeys keysOf entries'.
Proof.
  intros Hperm. unfold countKeys. apply foldl_Permutation; [|exact Hperm].
  intros total [id1 kv1] [id2 kv2]. rewrite !wrap64_add_l. f_equal. lia.
Qed.

Lemma countTypes_Permutation entries entries' :
  entries ≡ₚ entries' -> countTypes entries = countTypes entries'.
Proof.
  intros Hperm. unfold countTypes. apply foldl_Permutation; [|exact Hperm].
  intros m [id1 kv1] [id2 kv2].
  destruct (decide (EntityType kv1 = EntityType kv2)) as [->|Hne]; [reflexivity|].
  destruct (m !! EntityType kv1) as [c1|] eqn:E1;
    destruct (m !! EntityType kv2) as [c2|] eqn:E2;
    rewrite ?lookup_insert_ne, ?E1, ?E2 by done; try reflexivity.
  by apply insert_insert_ne.
Qed.

(** X8: the statistics of an index do not depend on the order in which
    the runtime hands out the entries of the two stores: any two runs of
    GetStatistics on one index return the same map, and any two runs of
    ExportToJSON the same data and a nil error. *)
Theorem statistics_order g :
  (forall stats1 stats2,
     GetStatistics g stats1 -> GetStatistics g stats2 -> stats1 = stats2) /\
  (forall r1 r2,
     ExportToJSON g r1 -> ExportToJSON g r2 -> r1 = r2 /\ snd r1 = None).
Proof.
  assert (Hstats : forall stats1 stats2,
     GetStatistics g stats1 -> GetStatistics g stats2 -> stats1 = stats2).
  { intros stats1 stats2 (es1 & rs1 & ts1 & He1 & Hr1 & Ht1 & ->)
      (es2 & rs2 & ts2 & He2 & Hr2 & Ht2 & ->).
    unfold GetStatisticsIn.
    rewrite (countKeys_Permutation eIndexKeys es1 es2) by (by rewrite He1, He2).
    rewrite (countKeys_Permutation rIndexKeys rs1 rs2) by (by rewrite Hr1, Hr2).
    rewrite (countTypes_Permutation ts1 ts2) by (by rewrite Ht1, Ht2).
    reflexivity. }
  split; [exact Hstats|].
  intros r1 r2 (s1 & Hs1 & ->) (s2 & Hs2 & ->).
  by rewrite (Hstats s1 s2 Hs1 Hs2).
Qed.

Section Decoding.

Variable decodeEntity : any -> option EntityKeyValue.
Variable decodeRelation : any -> option RelationKeyValue.

Lemma importEntries_lookup {V} (decode : any -> option V) entries id :
  NoDup entries.*1 ->
  forall store : gmap string V,
  foldl (fun store '(id, x) =>
           match decode x with
           | Some kv => <[id := kv]> store
           | None => store
           end) store entries !! id
  = match (list_to_map entries : gmap string any) !! id ≫= decode with
    | Some kv => Some kv
    | None => store !! id
    end.
Proof.
  induction entries as [|[id0 x0] entries IH]; intros Hnd store; [reflexivity|].
  cbn in Hnd. apply NoDup_cons in Hnd as [Hfresh Hnd].
  cbn [foldl list_to_map foldr]. rewrite IH by exact Hnd.
  destruct (decide (id = id0)) as [->|Hne].
  - rewrite lookup_insert_eq. cbn.
    rewrite (not_elem_of_list_to_map_1 (M := gmap string) entries id0 Hfresh). cbn.
    destruct (decode x0); [by rewrite lookup_insert_eq | reflexivity].
  - rewrite (lookup_insert_ne (list_to_map entries)) by done.
    destruct (list_to_map entries !! id ≫= decode); [reflexivity|].
    destruct (decode x0); [by rewrite lookup_insert_ne | reflexivity].
Qed.

Lemma importEntries_omap {V} (decode : any -> option V) (m : gmap string any) entries :
  entries ≡ₚ map_to_list m -> importEntries decode entries = omap decode m.
Proof.
  intros Hperm. apply map_eq. intros id. unfold importEntries.
  assert (Hnd : NoDup entries.*1).
  { rewrite Hperm. apply NoDup_fst_map_to_list. }
  rewrite importEntries_lookup by exact Hnd.
  rewrite (list_to_map_proper entries (map_to_list m) Hnd Hperm).
  rewrite list_to_map_to_list, lookup_omap, lookup_empty.
  by destruct (m !! id ≫= decode).
Qed.

(** X9: ImportFromJSON returns a nil error; it leaves in the entity store
    exactly the entries of the object under "entities" that decode, an
    empty store when that key is missing or holds a value of another
    type, and likewise for the relations under "relations"; the entries
    the index held before are gone, and GetEntitiesByKey and
    GetRelationsByKey return for a key exactly the imported entries that
    carry it. *)
Theorem import_from_json data g r :
  ImportFromJSON decodeEntity decodeRelation data g r ->
  exists g',
    r = (g', None) /\
    entityKVStore g' = omap decodeEntity (objectAt data "entities") /\
    relationKVStore g' = omap decodeRelation (objectAt data "relations") /\
    (forall key kv,
       kv ∈ GetEntitiesByKey g' key
       <-> exists id, entityKVStore g' !! id = Some kv /\ key ∈ eIndexKeys kv) /\
    (forall key rel,
       rel ∈ GetRelationsByKey g' key
       <-> exists id, relationKVStore g' !! id = Some rel /\ key ∈ rIndexKeys rel).
Proof.
  intros (entities & relations & g' & He & Hr & Hreb & ->).
  exists g'. split; [reflexivity|].
  destruct Hreb as (es & rs & Hes & Hrs & ->). cbn in Hes, Hrs.
  cbn [rebuildKeyMappingsIn entityKVStore relationKVStore].
  split; [by apply importEntries_omap|]. split; [by apply importEntries_omap|].
  split.
  - intros key kv. unfold GetEntitiesByKey. cbn. unfold rebuildEntities.
    by apply rebuilt_found.
  - intros key rel. unfold GetRelationsByKey. cbn. unfold rebuildRelations.
    by apply rebuilt_found.
Qed.

(** X10: the map ExportToJSON returns is not one ImportFromJSON can read
    back: it holds the two stores themselves, whose type is not that of a
    decoded JSON object, so importing it into any index leaves both stores
    and both key mappings empty, whatever the exported index held. *)
Theorem export_then_import g data e g2 r :
  ExportToJSON g (data, e) ->
  ImportFromJSON decodeEntity decodeRelation data g2 r ->
  e = None /\ r = (mkGraphIndexingModule ∅ ∅ ∅ ∅, None).
Proof.
  intros (stats & _ & Hdata) (entities & relations & g' & He & Hr & Hreb & ->).
  injection Hdata as -> ->. split; [reflexivity|].
  unfold objectAt in He, Hr.
  rewrite lookup_insert_eq in He.
  rewrite lookup_insert_ne, lookup_insert_eq in Hr by done.
  rewrite map_to_list_empty in He. rewrite map_to_list_empty in Hr.
  apply Permutation_nil_r in He as ->. apply Permutation_nil_r in Hr as ->.
  destruct Hreb as (es & rs & Hes & Hrs & ->).
  cbn [entityKVStore relationKVStore importEntries foldl] in Hes, Hrs.
  rewrite map_to_list_empty in Hes. rewrite map_to_list_empty in Hrs.
  apply Permutation_nil_r in Hes as ->. apply Permutation_nil_r in Hrs as ->.
  reflexivity.
Qed.

End Decoding.

End ExchangeFacts.

(** ** Post-processing and the combined strategy *)

Module DispatchFacts.

Import Strings Router Dispatch Reference MergeModel DispatchModel GoFacts
  RouterFacts LoopFacts MergeFacts MergeTheorems RoutingFacts.

Lemma postProcessDoc_spec analysis doc :
  ID (postProcessDoc analysis doc) = ID doc /\
  Content (postProcessDoc analysis doc) = Content doc /\
  getMeta (postProcessDoc analysis doc) "route_strategy"
  = Some (VStr (RecommendedStrategy analysis)) /\
  getMeta (postProcessDoc analysis doc) "query_complexity"
  = Some (VFloat (QueryComplexity analysis)) /\
  getMeta (postProcessDoc analysis doc) "route_confidence"
  = Some (VFloat (Confidence analysis)) /\
  forall key,
    key <> "route_strategy" -> key <> "query_complexity" ->
    key <> "route_confidence" ->
    getMeta (postProcessDoc analysis doc) key = getMeta doc key.
Proof.
  destruct doc as [id content [m|]]; unfold postProcessDoc, ensureMeta, getMeta;
    cbn [MetaData ID Content].
  - repeat split.
    + rewrite !lookup_insert_ne by done. by rewrite lookup_insert_eq.
    + rewrite lookup_insert_ne by done. by rewrite lookup_insert_eq.
    + by rewrite lookup_insert_eq.
    + intros key H1 H2 H3. by rewrite !lookup_insert_ne by done.
  - repeat split.
    intros key H1 H2 H3. rewrite !lookup_insert_ne by done. apply lookup_empty.
Qed.

(** X11: postProcessResults keeps the list as it is, nil or not, with its
    length and capacity, and every document at its position with its
    identifier, its content and every annotation other than the three
    routing annotations; these three are set, on every document, to the
    strategy, the complexity and the confidence of the analysis. *)
Theorem post_process_results documents analysis :
  let out := postProcessResults documents analysis in
  is_nil out = is_nil documents /\ len out = len documents /\
  cap out = cap documents /\
  forall i doc,
    elems documents !! i = Some doc ->
    exists doc',
      elems out !! i = Some doc' /\
      ID doc' = ID doc /\ Content doc' = Content doc /\
      getMeta doc' "route_strategy" = Some (VStr (RecommendedStrategy analysis)) /\
      getMeta doc' "query_complexity" = Some (VFloat (QueryComplexity analysis)) /\
      getMeta doc' "route_confidence" = Some (VFloat (Confidence analysis)) /\
      forall key,
        key <> "route_strategy" -> key <> "query_complexity" ->
        key <> "route_confidence" ->
        getMeta doc' key = getMeta doc key.
Proof.
  cbv zeta. destruct documents as [|l c]; cbn.
  - repeat split. intros i doc H. by rewrite lookup_nil in H.
  - unfold len. cbn. rewrite length_map. repeat split.
    intros i doc Hdoc. exists (postProcessDoc analysis doc).
    split; [|apply postProcessDoc_spec].
    change (map (postProcessDoc analysis) l) with (postProcessDoc analysis <$> l).
    by rewrite list_lookup_fmap, Hdoc.
Qed.

Lemma postProcessResults_annotated documents analysis doc :
  doc ∈ elems (postProcessResults documents analysis) ->
  getMeta doc "route_strategy" = Some (VStr (RecommendedStrategy analysis)) /\
  getMeta doc "query_complexity" = Some (VFloat (QueryComplexity analysis)) /\
  getMeta doc "route_confidence" = Some (VFloat (Confidence analysis)).
Proof.
  destruct documents as [|l c]; cbn; [by rewrite elem_of_nil|].
  change (map (postProcessDoc analysis) l) with (postProcessDoc analysis <$> l).
  intros (d & -> & _)%list_elem_of_fmap.
  destruct (postProcessDoc_spec analysis d) as (_ & _ & H1 & H2 & H3 & _). auto.
Qed.

Lemma dispatch_calls HS GS strategy query topK calls documents err :
  dispatch HS GS strategy query topK = (calls, Ok (documents, err)) ->
  (length calls = 1%nat) \/ (length calls = 2%nat /\ err = None).
Proof.
  unfold dispatch.
  destruct (String.eqb strategy HybridTraditional);
    [intros H; injection H as <- _; by left|].
  destruct (String.eqb strategy GraphRAG);
    [intros H; injection H as <- _; by left|].
  destruct (String.eqb strategy Combined);
    [|intros H; injection H as <- _; by left].
  intros H. right.
  assert (He : err = None).
  { apply (executeCombinedSearch_no_error HS GS query topK documents err).
    by rewrite H. }
  split; [|exact He].
  revert H. unfold executeCombinedSearch, callHybridSearch, callGraphRAGSearch.
  cbn. destruct (HS query (traditionalShare topK)) as [[td e1]|p]; [|discriminate].
  cbn. destruct (GS query (graphShare topK)) as [[gd e2]|p]; [|discriminate].
  cbn. destruct (mergeCombined _ _ topK); [|discriminate].
  cbn. intros H. by injection H as <-.
Qed.

(** X12: whenever RouteQuery returns, its error is nil, the analysis it
    returns is the rule based analysis of the query, every document it
    returns carries the strategy, the complexity and the confidence of
    that analysis as routing annotations, the query was counted in the
    statistics under that strategy, and the router made one or two calls
    to its retrieval modules. *)
Theorem route_query_annotates HS GS stats query topK calls documents analysis err :
  snd (RouteQuery HS GS stats query topK) = (calls, Ok (documents, analysis, err)) ->
  err = None /\ analysis = ruleBasedAnalysis query /\
  fst (RouteQuery HS GS stats query topK)
  = updateRouteStats stats (RecommendedStrategy analysis) /\
  (forall doc,
     doc ∈ elems documents ->
     getMeta doc "route_strategy" = Some (VStr (RecommendedStrategy analysis)) /\
     getMeta doc "query_complexity" = Some (VFloat (QueryComplexity analysis)) /\
     getMeta doc "route_confidence" = Some (VFloat (Confidence analysis))) /\
  (1 <= length calls <= 2)%nat.
Proof.
  rewrite RouteQuery_run.
  destruct (dispatch HS GS (RecommendedStrategy (ruleBasedAnalysis query)) query topK)
    as [calls0 [[documents0 err0]|p]] eqn:Ed; [|discriminate].
  pose proof (dispatch_calls _ _ _ _ _ _ _ _ Ed) as Hcalls.
  cbn. destruct err0 as [e|].
  - unfold callHybridSearch. cbn.
    destruct (HS query topK) as [[documents1 err1]|p]; [|discriminate].
    cbn. intros H. injection H as <- <- <- <-.
    split; [reflexivity|]. split; [reflexivity|]. split; [reflexivity|].
    split; [intros doc; apply postProcessResults_annotated|].
    rewrite !length_app. cbn. destruct Hcalls as [->|[_ ?]]; [lia | discriminate].
  - cbn. intros H. injection H as <- <- <- <-.
    split; [reflexivity|]. split; [reflexivity|]. split; [reflexivity|].
    split; [intros doc; apply postProcessResults_annotated|].
    rewrite app_nil_r. destruct Hcalls as [->|[-> _]]; lia.
Qed.

(** A query routed to the graph search: the document the fallback finds
    is returned with the routing annotations of the analysis. *)
Lemma route_query_annotates_witness :
  exists documents doc,
    snd (RouteQuery Scenarios.hybridRun Scenarios.brokenGraphSearch
           newRouteStats Scenarios.porkRelations 5)
    = ([CallGraphRAGSearch Scenarios.porkRelations 5;
        CallHybridSearch Scenarios.porkRelations 5],
       Ok (documents, ruleBasedAnalysis Scenarios.porkRelations, None)) /\
    elems documents = [doc] /\
    Content doc = "名称: 回锅肉" /\
    getMeta doc "route_strategy" = Some (VStr "graph_rag") /\
    getMeta doc "route_confidence"
    = Some (VFloat (Confidence (ruleBasedAnalysis Scenarios.porkRelations))) /\
    fst (RouteQuery Scenarios.hybridRun Scenarios.brokenGraphSearch
           newRouteStats Scenarios.porkRelations 5)
    = updateRouteStats newRouteStats
        (RecommendedStrategy (ruleBasedAnalysis Scenarios.porkRelations)).
Proof.
  assert (Hrun : { documents |
                   snd (RouteQuery Scenarios.hybridRun Scenarios.brokenGraphSearch
                          newRouteStats Scenarios.porkRelations 5)
                   = ([CallGraphRAGSearch Scenarios.porkRelations 5;
                       CallHybridSearch Scenarios.porkRelations 5],
                      Ok (documents, ruleBasedAnalysis Scenarios.porkRelations,
                          None)) }).
  { eexists. vm_compute. reflexivity. }
  destruct Hrun as [documents Hrun].
  assert (Hdoc : { doc | elems documents = [doc] /\ Content doc = "名称: 回锅肉" }).
  { vm_compute in Hrun. injection Hrun as <-. eexists. split; reflexivity. }
  destruct Hdoc as [doc [Hel Hc]].
  destruct (route_query_annotates _ _ _ _ _ _ _ _ _ Hrun)
    as (_ & _ & Hstats & Hann & _).
  destruct (Hann doc) as (Hs & _ & Hconf); [rewrite Hel; apply list_elem_of_here|].
  exists documents, doc. split; [exact Hrun|]. split; [exact Hel|].
  split; [exact Hc|]. split; [exact Hs|]. split; [exact Hconf|]. exact Hstats.
Defined.

(** X13: the combined strategy splits topK, for -2^63 < topK < 2^63, into
    a share of at least one document for the hybrid retrieval and the rest
    for the graph retrieval; from topK = 2 on the graph share is the hybrid
    share or one more; for topK = 1 the graph retrieval is asked for no
    document, and for topK <= 0 for a negative number of documents. *)
Theorem combined_shares topK :
  - 2 ^ 63 < topK < 2 ^ 63 ->
  1 <= traditionalShare topK /\
  traditionalShare topK + graphShare topK = topK /\
  (2 <= topK ->
   traditionalShare topK = topK / 2 /\
   traditionalShare topK <= graphShare topK <= traditionalShare topK + 1) /\
  (topK = 1 -> graphShare topK = 0) /\
  (topK <= 0 -> traditionalShare topK = 1 /\ graphShare topK < 0).
Proof.
  intros Hk.
  assert (Hq : quot topK 2 = Z.quot topK 2).
  { unfold quot. apply wrap64_id. unfold in_int.
    pose proof (Z.quot_le_mono 0 topK 2).
    destruct (Z_le_gt_dec 0 topK) as [Hpos|Hneg].
    - pose proof (Z.quot_pos topK 2). pose proof (Z.quot_le_upper_bound topK 2 topK).
      split; [lia|]. assert (Z.quot topK 2 <= topK) by (apply Z.quot_le_upper_bound; lia).
      lia.
    - assert (Hop : Z.quot topK 2 = - Z.quot (- topK) 2)
        by (rewrite Z.quot_opp_l by lia; lia).
      assert (Z.quot (- topK) 2 <= - topK) by (apply Z.quot_le_upper_bound; lia).
      pose proof (Z.quot_pos (- topK) 2). lia. }
  assert (Ht : traditionalShare topK = if Z.quot topK 2 <? 1 then 1 else Z.quot topK 2).
  { unfold traditionalShare. by rewrite Hq. }
  assert (Hdiv : 0 <= topK -> Z.quot topK 2 = topK / 2).
  { intros H. apply Z.quot_div_nonneg; lia. }
  assert (Hneg : topK <= 0 -> Z.quot topK 2 <= 0).
  { intros H. assert (Hop : Z.quot topK 2 = - Z.quot (- topK) 2)
      by (rewrite Z.quot_opp_l by lia; lia).
    pose proof (Z.quot_pos (- topK) 2). lia. }
  assert (Hrange : 1 <= traditionalShare topK /\
                   (topK <= 1 -> traditionalShare topK = 1) /\
                   (2 <= topK -> traditionalShare topK = topK / 2)).
  { rewrite Ht. destruct (Z.quot topK 2 <? 1) eqn:E.
    - apply Z.ltb_lt in E. split; [lia|]. split; [done|].
      intros H2. rewrite Hdiv in E by lia.
      assert (1 <= topK / 2) by (apply Z.div_le_lower_bound; lia). lia.
    - apply Z.ltb_ge in E. split; [lia|]. split.
      + intros H1. destruct (Z_le_gt_dec topK 0) as [H0|H0]; [specialize (Hneg H0); lia|].
        assert (topK = 1) by lia. subst topK. discriminate.
      + intros H2. apply Hdiv. lia. }
  destruct Hrange as (H1 & Hle & Hge).
  assert (Hg : graphShare topK = topK - traditionalShare topK).
  { unfold graphShare, sub. apply wrap64_id. unfold in_int.
    destruct (Z_le_gt_dec topK 1) as [Hs|Hs].
    - rewrite Hle by lia. lia.
    - rewrite Hge by lia.
      assert (0 <= topK / 2) by (apply Z.div_pos; lia).
      assert (topK / 2 <= topK) by (apply Z.div_le_upper_bound; lia). lia. }
  split; [exact H1|]. split; [lia|]. split; [|split].
  - intros H2. split; [by apply Hge|]. rewrite Hg, Hge by lia.
    pose proof (Z.div_mod topK 2). pose proof (Z.mod_pos_bound topK 2). lia.
  - intros ->. rewrite Hg, Hle by lia. lia.
  - intros H0. split; [apply Hle; lia|]. rewrite Hg, Hle by lia. lia.
Qed.

Lemma combined_shares_witness :
  - 2 ^ 63 < 5 < 2 ^ 63 /\ traditionalShare 5 + graphShare 5 = 5.
Proof.
  assert (H : - 2 ^ 63 < 5 < 2 ^ 63) by lia.
  split; [exact H|]. exact (proj1 (proj2 (combined_shares 5 H))).
Defined.


Lemma prefix_bytes_length k : forall s,
  String.length (prefix_bytes k s) = Nat.min k (String.length s).
Proof.
  induction k as [|k IH]; intros s; [reflexivity|].
  destruct s as [|a s]; [reflexivity|]. cbn. by rewrite IH.
Qed.

Lemma contentHash_long c doc :
  longFrom c doc -> contentHash doc = Ok (Sprintf_x (Z.lxor 100 (byte_of c))).
Proof.
  intros [Hlen [rest Hc]]. unfold contentHash. rewrite Hc in *.
  assert (Hmin : Dispatch.min 100 (strlen (String c rest)) = 100).
  { unfold Dispatch.min. destruct (100 <? _) eqn:E; [reflexivity|].
    apply Z.ltb_ge in E. lia. }
  rewrite Hmin. change (Z.to_nat 100) with (S 99).
  remember 99%nat as k eqn:Ek. cbn [prefix_bytes hashString]. do 3 f_equal.
  unfold strlen in *. cbn [String.length] in *.
  rewrite prefix_bytes_length. lia.
Qed.

Lemma skipSeen_const {A} (key : A -> string) k l :
  Forall (fun x => key x = k) l ->
  forall seen, skipSeen key seen l = if decide (k ∈ seen) then [] else take 1 l.
Proof.
  induction l as [|x l IH]; intros Hall seen.
  - by destruct (decide (k ∈ seen)).
  - apply Forall_cons in Hall as [Hx Hl]. cbn [skipSeen]. rewrite Hx.
    destruct (decide (k ∈ seen)) as [Hin|Hout]; [by rewrite IH, decide_True|].
    rewrite IH by exact Hl. rewrite decide_True; [reflexivity|].
    apply elem_of_union. left. by apply elem_of_singleton.
Qed.

Lemma mergeCombined_topK graphDocs traditionalDocs topK out :
  mergeCombined graphDocs traditionalDocs topK = Ok out -> 0 <= topK.
Proof.
  unfold mergeCombined. destruct (forRange _ _ _ _) as [st|p]; [|discriminate].
  cbn. intros H. destruct (Z_lt_le_dec topK 0) as [Hneg|Hpos]; [|exact Hpos].
  by rewrite truncate_negative in H.
Qed.

(** X14: the combined merge takes for one document all documents whose
    contents have at least 100 bytes and start with the same byte: their
    content hashes are equal, so of any two lists of such documents the
    merge returns one document at most, and exactly one when there is a
    document and topK is positive. *)
Theorem combined_merge_long_contents c graphDocs traditionalDocs topK :
  Forall (longFrom c) (elems graphDocs ++ elems traditionalDocs) ->
  (forall doc,
     doc ∈ elems graphDocs ++ elems traditionalDocs ->
     contentHash doc = Ok (Sprintf_x (Z.lxor 100 (byte_of c)))) /\
  (forall out,
     mergeCombined graphDocs traditionalDocs topK = Ok out ->
     (length (elems out) <= 1)%nat) /\
  (0 < topK -> elems graphDocs ++ elems traditionalDocs <> [] ->
   exists out doc,
     mergeCombined graphDocs traditionalDocs topK = Ok out /\ elems out = [doc]).
Proof.
  intros Hlong.
  assert (Hne : Forall (fun doc => Content doc <> EmptyString)
                  (elems graphDocs ++ elems traditionalDocs)).
  { eapply Forall_impl; [exact Hlong|]. intros doc [_ [rest ->]]. discriminate. }
  set (items := interleave (stream First (elems graphDocs))
                  (stream Second (elems traditionalDocs))).
  assert (Hkeys : Forall (fun it => combinedKey it = Sprintf_x (Z.lxor 100 (byte_of c)))
                    items).
  { eapply Forall_impl; [apply (items_of_docs (longFrom c)), Hlong|].
    intros it Hit. unfold combinedKey, contentKey.
    by rewrite (contentHash_long c). }
  assert (Hchosen : roundRobin combinedKey (elems graphDocs) (elems traditionalDocs) topK
                    = take (Z.to_nat topK) (take 1 items)).
  { unfold roundRobin. fold items. rewrite (skipSeen_const _ _ _ Hkeys).
    by rewrite decide_False by apply not_elem_of_empty. }
  split; [|split].
  - intros doc Hdoc. apply contentHash_long.
    by apply (proj1 (Forall_forall _ _) Hlong).
  - intros out Hout. pose proof (mergeCombined_topK _ _ _ _ Hout) as Hk.
    destruct (mergeCombined_roundRobin graphDocs traditionalDocs topK Hk Hne)
      as (out' & Hrun & Hel).
    rewrite Hrun in Hout. injection Hout as <-.
    rewrite Hel, Hchosen, length_fmap, !length_take. lia.
  - intros Hk Hdocs.
    destruct (mergeCombined_roundRobin graphDocs traditionalDocs topK) as (out & Hrun & Hel);
      [lia | exact Hne |].
    assert (Hitems : items <> []).
    { intros E. apply Hdocs.
      assert (Hlen : length items = 0%nat) by (by rewrite E).
      assert (Hall : forall it, it ∈ items -> False)
        by (intros it; rewrite E; apply not_elem_of_nil).
      destruct (elems graphDocs) as [|d l] eqn:Eg.
      - destruct (elems traditionalDocs) as [|d l] eqn:Et; [reflexivity|].
        exfalso. apply (Hall (mkItem Second 0 d)). unfold items.
        apply elem_of_interleave. right. by apply elem_of_stream.
      - exfalso. apply (Hall (mkItem First 0 d)). unfold items.
        apply elem_of_interleave. left. by apply elem_of_stream. }
    destruct items as [|it rest] eqn:Ei; [done|].
    exists out, (combinedOut it). split; [exact Hrun|].
    rewrite Hel, Hchosen.
    destruct (Z.to_nat topK) as [|k] eqn:Ek; [lia|].
    cbn [take fmap list_fmap]. by destruct k.
Qed.

End DispatchFacts.

(** ** Graph documents and graph search *)

Module GraphDocumentsFacts.

Import Strings GraphRAG Reference Sorting GraphDocuments GoFacts RouterFacts.

Lemma hits_le query keywords : (hits query keywords <= length keywords)%nat.
Proof. unfold hits. apply List.filter_length_le. Qed.

(** X15: analyzeQueryComplexity is the number of the seven indicators
    found in the query divided by 7, a score between 0 and 1 that the cap
    at 1 never changes; AdaptiveQueryPlanning returns one entity relation
    plan of depth 1 and 20 nodes for up to two indicators, one multi hop
    plan of depth 2 and 50 nodes for three or four, and a subgraph plan of
    depth 3 and 100 nodes followed by a multi hop plan of depth 3 and 50
    nodes from five on; every plan starts from the query itself, with a
    depth between 1 and 3 and between 20 and 100 nodes; and the three
    comparisons give in binary64 what they give on the rationals. *)
Theorem adaptive_query_planning query :
  let k := Z.of_nat (hits query complexityIndicators) in
  0 <= k <= 7 /\
  analyzeQueryComplexity query = (float64 k / float64 7)%Q /\
  (0 <= analyzeQueryComplexity query <= 1)%Q /\
  AdaptiveQueryPlanning query
  = (if k <=? 2 then [mkGraphQuery EntityRelation [query] [] [] 1 20 None]
     else if k <=? 4 then [mkGraphQuery MultiHop [query] [] [] 2 50 None]
     else [mkGraphQuery Subgraph [query] [] [] 3 100 None;
           mkGraphQuery MultiHop [query] [] [] 3 50 None]) /\
  Forall (fun plan =>
            1 <= MaxDepth plan <= 3 /\ 20 <= MaxNodes plan <= 100 /\
            SourceEntities plan = [query])
    (AdaptiveQueryPlanning query) /\
  forallb planningAgrees (seq 0 8) = true.
Proof.
  cbv zeta. pose proof (hits_le query complexityIndicators) as Hle.
  change (length complexityIndicators) with 7%nat in Hle.
  assert (Hscore : Router.countKeywords query complexityIndicators 0
                   = Z.of_nat (hits query complexityIndicators)).
  { rewrite countKeywords_hits; [lia | lia | cbn; lia]. }
  unfold AdaptiveQueryPlanning, analyzeQueryComplexity. rewrite Hscore.
  change (Z.of_nat (length complexityIndicators)) with 7.
  destruct (hits query complexityIndicators) as [|[|[|[|[|[|[|[|n]]]]]]]]; [..|lia];
    (split; [lia|]); (split; [reflexivity|]); (split; [by vm_compute|]);
    (split; [reflexivity|]); (split; [|by vm_compute]);
    repeat constructor; cbn; lia.
Qed.

Lemma append_empty (a b : string) : a +:+ b = EmptyString -> a = EmptyString.
Proof. destruct a; [done | discriminate]. Qed.

Lemma append_nonempty_r (a b : string) : b <> EmptyString -> a +:+ b <> EmptyString.
Proof. destruct a; [done | discriminate]. Qed.

Lemma Join_second_nonempty a b rest :
  b <> EmptyString -> VectorSearch.Join (a :: b :: rest) EmptyString <> EmptyString.
Proof.
  intros Hb. cbn [VectorSearch.Join].
  apply append_nonempty_r. change (EmptyString +:+ ?x) with x.
  destruct rest as [|c rest]; [exact Hb|].
  intros H. by apply append_empty in H.
Qed.

Lemma buildPathDescription_nonempty path :
  GraphPath.Nodes path = [] \/ GraphPath.Relationships path <> [] ->
  buildPathDescription path <> EmptyString.
Proof.
  unfold buildPathDescription.
  destruct (GraphPath.Nodes path) as [|node nodes]; [discriminate|].
  intros [?|Hrel]; [done|].
  destruct (GraphPath.Relationships path) as [|rel rels]; [done|].
  cbn [imap concat describe lookup list_lookup app].
  apply Join_second_nonempty. discriminate.
Qed.

Lemma pathsToDocuments_app paths : forall documents,
  (length (elems documents) <= cap documents)%nat ->
  let out :=
    foldl (fun documents path => append1 documents (pathDocument documents path))
      documents paths in
  (length (elems out) <= cap out)%nat /\
  elems out
  = elems documents
    ++ imap (fun i path =>
               pathDocument (lit (replicate (length (elems documents) + i) nilDocument))
                 path) paths.
Proof.
  induction paths as [|path paths IH]; intros documents Hcap; cbv zeta.
  - cbn. by rewrite app_nil_r.
  - cbn [foldl].
    destruct (IH (append1 documents (pathDocument documents path))) as [Hc He];
      [by apply cap_append1|].
    split; [exact Hc|]. rewrite He, elems_append1, <- app_assoc. f_equal.
    cbn [imap app]. f_equal.
    + unfold pathDocument, len, lit. cbn [elems].
      by rewrite length_replicate, Nat.add_0_r.
    + apply imap_ext. intros i p _. cbn. rewrite length_app. cbn.
      do 3 f_equal. lia.
Qed.

Lemma pathsToDocuments_elems paths query :
  elems (pathsToDocuments paths query)
  = imap (fun i path => pathDocument (lit (replicate i nilDocument)) path) paths /\
  (length (elems (pathsToDocuments paths query))
   <= cap (pathsToDocuments paths query))%nat.
Proof.
  unfold pathsToDocuments.
  destruct (pathsToDocuments_app paths NilSlice) as [Hc He]; [cbn; lia|].
  split; [exact He | exact Hc].
Qed.

Lemma pathDocument_ID i path :
  ID (pathDocument (lit (replicate i nilDocument)) path)
  = "path_" +:+ Sprintf_d (Z.of_nat i).
Proof. unfold pathDocument, len, lit. cbn. by rewrite length_replicate. Qed.

(** X16: pathsToDocuments returns one document for every path, in the
    order of the paths; the document of the path at position i has the
    identifier path_i, the description of the path as content and its
    relevance score, its length and the numbers of its nodes and
    relationships as annotations; the identifiers are pairwise different;
    a path without nodes is described as 空路径, and the content of a path
    that has no node or has a relationship is not empty. *)
Theorem paths_to_documents paths query :
  let documents := elems (pathsToDocuments paths query) in
  length documents = length paths /\
  NoDup (ID <$> documents) /\
  forall i path,
    paths !! i = Some path ->
    exists doc,
      documents !! i = Some doc /\
      ID doc = "path_" +:+ Sprintf_d (Z.of_nat i) /\
      Content doc = buildPathDescription path /\
      getMeta doc "search_type" = Some (VStr "graph_path") /\
      getMeta doc "relevance_score" = Some (VFloat (GraphPath.RelevanceScore path)) /\
      getMeta doc "path_length" = Some (VInt (GraphPath.PathLength path)) /\
      getMeta doc "node_count"
      = Some (VInt (Z.of_nat (length (GraphPath.Nodes path)))) /\
      getMeta doc "relationship_count"
      = Some (VInt (Z.of_nat (length (GraphPath.Relationships path)))) /\
      (GraphPath.Nodes path = [] -> Content doc = "空路径") /\
      (GraphPath.Nodes path = [] \/ GraphPath.Relationships path <> [] ->
       Content doc <> EmptyString).
Proof.
  cbv zeta. destruct (pathsToDocuments_elems paths query) as [-> _].
  split; [by rewrite length_imap|]. split.
  - apply NoDup_alt. intros i j id Hi Hj.
    rewrite list_lookup_fmap, list_lookup_imap in Hi, Hj.
    destruct (paths !! i) as [pi|]; [|discriminate].
    destruct (paths !! j) as [pj|]; [|discriminate].
    cbn [fmap option_fmap option_map] in Hi, Hj. rewrite pathDocument_ID in Hi, Hj.
    injection Hi as <-. injection Hj as Hj.
    change (Sprintf_d (Z.of_nat j) = Sprintf_d (Z.of_nat i)) in Hj.
    apply (inj pretty) in Hj. lia.
  - intros i path Hpath. rewrite list_lookup_imap, Hpath. cbn.
    eexists. split; [reflexivity|]. split; [apply pathDocument_ID|].
    split; [reflexivity|]. split; [reflexivity|]. split; [reflexivity|].
    split; [reflexivity|]. split; [reflexivity|]. split; [reflexivity|].
    split.
    + intros Hn. cbn. unfold buildPathDescription. by rewrite Hn.
    + apply buildPathDescription_nonempty.
Qed.


Lemma StronglySorted_take {A} (R : A -> A -> Prop) n : forall l,
  StronglySorted R l -> StronglySorted R (take n l).
Proof.
  induction n as [|n IH]; intros l Hl; [constructor|].
  destruct l as [|x l]; [constructor|].
  apply StronglySorted_inv in Hl as [Hl Hx]. cbn. constructor; [by apply IH|].
  by apply Forall_take.
Qed.

Lemma StronglySorted_impl {A} (R R' : A -> A -> Prop) l :
  (forall a b, R a b -> R' a b) -> StronglySorted R l -> StronglySorted R' l.
Proof.
  intros HR. induction 1 as [|x l Hl IH Hx]; constructor; [exact IH|].
  eapply Forall_impl; [exact Hx|]. apply HR.
Qed.

Lemma moreRelevant_false a b :
  moreRelevant b a = false <-> (relevanceOf b <= relevanceOf a)%Q.
Proof.
  unfold moreRelevant. rewrite fgt_false. split.
  - apply Qnot_lt_le.
  - intros H1 H2. by apply (Qlt_not_le _ _ H2).
Qed.

(** The merge sort meets the guarantee of [sort.Slice] for the order of
    the relevance scores. *)
Lemma mergeSort_sorts : sorts mergeSort moreRelevant.
Proof.
  intros l. unfold mergeSort. split; [apply merge_sort_Permutation|].
  apply StronglySorted_merge_sort.
  - intros a b c. rewrite !moreRelevant_false. intros H1 H2.
    by apply (Qle_trans _ (relevanceOf b)).
  - intros a b. rewrite !moreRelevant_false.
    destruct (Qlt_le_dec (relevanceOf a) (relevanceOf b)) as [H|H].
    + right. by apply Qlt_le_weak.
    + by left.
Qed.

Lemma append_nil_elems {A} (l : list A) :
  elems (append NilSlice l) = l /\
  (length (elems (append NilSlice l)) <= cap (append NilSlice l))%nat /\
  (l = [] -> append NilSlice l = NilSlice).
Proof.
  destruct l as [|x l]; [done|]. unfold append, grow. cbn. repeat split; [lia | done].
Qed.

Section Traversal.

Variable SortSlice : (Document -> Document -> bool) -> list Document -> list Document.
Variable Record_ : Type.
Variable runMultiHop : GraphQuery -> result (list Record_).
Variable runSubgraph : GraphQuery -> result Record_.
Variable parseNeo4jPath : Record_ -> option GraphPath.t.
Variable buildKnowledgeSubgraph : Record_ -> KnowledgeSubgraph.t.
Variable g : GraphRAGRetrieval.
Variable Messages : Type.
Variable Format : string -> result Messages.
Variable Generate : Messages -> result string.
Variable Unmarshal : string -> result QueryAnalysisResult.t.

(** X17: the stages of the graph search.  On a connected store, when the
    prompt template fails to format, as the template of the repository
    does, GraphRAGSearch returns the nil list and the error of the query
    understanding for every topK, and no traversal takes place.
    MultiHopTraversal returns an error without a connection; on a connected
    store only a multi hop plan queries the store, and every other plan
    yields no path and no error; the paths of a multi hop plan are the
    records that parse, in order.  ExtractKnowledgeSubgraph returns the
    empty fallback subgraph with every error.  GraphStructureReasoning
    returns the same three chains whatever the subgraph and the query.
    subgraphToDocuments returns one document, subgraph_0, with a
    non-empty content and the chains and counts as annotations.
    rankByGraphRelevance, provided sort.Slice sorts, returns the same
    documents in an order in which no relevance score exceeds one before
    it. *)
Theorem graph_search_stages query topK :
  (forall d e,
     driver g = Some d -> Format query = Err e ->
     Search SortSlice Record_ runMultiHop runSubgraph parseNeo4jPath
       buildKnowledgeSubgraph g Messages Format Generate Unmarshal query topK
     = Ok (NilSlice, Some ("查询意图理解失败: 模板格式化失败: " +:+ e))) /\
  (forall plan,
     match driver g with
     | None =>
         MultiHopTraversal Record_ runMultiHop parseNeo4jPath g plan
         = ([], Some "Neo4j连接未建立")
     | Some _ =>
         (QueryType_ plan <> MultiHop ->
          MultiHopTraversal Record_ runMultiHop parseNeo4jPath g plan = ([], None)) /\
         (QueryType_ plan = MultiHop ->
          match runMultiHop plan with
          | Err e =>
              MultiHopTraversal Record_ runMultiHop parseNeo4jPath g plan
              = ([], Some ("多跳遍历查询失败: " +:+ e))
          | Val records =>
              exists paths,
                MultiHopTraversal Record_ runMultiHop parseNeo4jPath g plan
                = (paths, None) /\
                paths = omap parseNeo4jPath records /\
                (length paths <= length records)%nat /\
                forall path,
                  path ∈ paths <->
                  exists record, record ∈ records /\ parseNeo4jPath record = Some path
          end)
     end) /\
  (forall plan subgraph e,
     ExtractKnowledgeSubgraph Record_ runSubgraph buildKnowledgeSubgraph g plan
     = (subgraph, Some e) ->
     subgraph = KnowledgeSubgraph.mk [] [] [] (Some ∅) []) /\
  (forall subgraph,
     GraphStructureReasoning subgraph query
     = ["基于因果关系的推理链"; "基于组成关系的推理链"; "基于相似关系的推理链"]) /\
  (forall subgraph reasoningChains,
     exists doc,
       elems (subgraphToDocuments subgraph reasoningChains query) = [doc] /\
       ID doc = "subgraph_0" /\
       Content doc = buildSubgraphDescription subgraph /\
       Content doc <> EmptyString /\
       getMeta doc "search_type" = Some (VStr "knowledge_subgraph") /\
       getMeta doc "reasoning_chains" = Some (VStrings reasoningChains) /\
       getMeta doc "node_count"
       = Some (VInt (Z.of_nat (length (KnowledgeSubgraph.ConnectedNodes subgraph)))) /\
       getMeta doc "relationship_count"
       = Some (VInt (Z.of_nat (length (KnowledgeSubgraph.Relationships subgraph))))) /\
  (sorts SortSlice moreRelevant ->
   forall documents,
     rankByGraphRelevance SortSlice documents ≡ₚ documents /\
     StronglySorted (fun a b => (relevanceOf b <= relevanceOf a)%Q)
       (rankByGraphRelevance SortSlice documents)).
Proof.
  split; [|split; [|split; [|split; [|split]]]].
  - intros d e Hd Hf. unfold Search, GraphRAGSearch, UnderstandGraphQuery.
    by rewrite Hd, Hf.
  - intros plan. unfold MultiHopTraversal.
    destruct (driver g) as [d|]; [|reflexivity]. split.
    + intros Ht. apply String.eqb_neq in Ht. rewrite Ht.
      by repeat destruct (String.eqb (QueryType_ plan) _).
    + intros Ht. rewrite Ht. change (String.eqb MultiHop MultiHop) with true.
      cbv iota. destruct (runMultiHop plan) as [records|e]; [|reflexivity].
      eexists. split; [reflexivity|]. split; [reflexivity|]. split.
      * clear. induction records as [|record records IH]; [done|].
        cbn. destruct (parseNeo4jPath record); cbn; lia.
      * intros path. rewrite list_elem_of_omap. reflexivity.
  - intros plan subgraph e. unfold ExtractKnowledgeSubgraph.
    destruct (driver g) as [d|]; [|by intros [= <- _]].
    destruct (runSubgraph plan) as [record|e']; [discriminate|].
    by intros [= <- _].
  - reflexivity.
  - intros subgraph reasoningChains. eexists. split; [reflexivity|].
    split; [reflexivity|]. split; [reflexivity|]. split; [discriminate|].
    repeat split.
  - intros Hsort documents. unfold rankByGraphRelevance.
    destruct (Hsort documents) as [Hp Hs]. split; [exact Hp|].
    eapply StronglySorted_impl; [|exact Hs].
    intros a b. apply moreRelevant_false.
Qed.

End Traversal.

End GraphDocumentsFacts.

(** ** Keyword extraction, dual level and vector retrieval *)

Module DualLevelFacts.

Import Strings GraphRAG VectorSearch Reference Sorting GraphDocuments DualLevel
  MergeModel GoFacts LoopFacts MergeFacts MergeTheorems GraphDocumentsFacts.

Lemma filter_split {A} (f : A -> bool) l :
  List.filter f l ++ List.filter (fun x => negb (f x)) l ≡ₚ l.
Proof.
  induction l as [|x l IH]; [reflexivity|]. cbn.
  destruct (f x); cbn.
  - by rewrite IH.
  - rewrite <- Permutation_middle. by rewrite IH.
Qed.

Lemma classify_filter keywords : forall entityKeywords topicKeywords,
  classify keywords entityKeywords topicKeywords
  = (entityKeywords
     ++ List.filter isEntityKeyword
          (List.filter (fun keyword => 1 <? strlen keyword) keywords),
     topicKeywords
     ++ List.filter (fun keyword => negb (isEntityKeyword keyword))
          (List.filter (fun keyword => 1 <? strlen keyword) keywords)).
Proof.
  induction keywords as [|keyword rest IH]; intros es ts; cbn [classify List.filter].
  - by rewrite !app_nil_r.
  - destruct (1 <? strlen keyword); [|apply IH].
    cbn [List.filter]. destruct (isEntityKeyword keyword); cbn [negb];
      rewrite IH, <- app_assoc; reflexivity.
Qed.

Section Retrieval.

Variable ToLower : string -> string.
Variable TrimSpace : string -> string.
Variable TrimPrefix : string -> string -> string.
Variable TrimSuffix : string -> string -> string.
Variable SortSlice :
  (RetrievalResult -> RetrievalResult -> bool) ->
  list RetrievalResult -> list RetrievalResult.
Variable llmClient : option unit.
Variable Generate : string -> result string.
Variable Unmarshal : string -> result (list string * list string).
Variable driver : option Driver.
Variable runNeighborQuery : string -> Z -> result (list value).
Variable neo4jEntityLevelSearch :
  list string -> Z -> outcome (list RetrievalResult * error).
Variable neo4jTopicLevelSearch :
  list string -> Z -> outcome (list RetrievalResult * error).

Lemma ExtractQueryKeywords_no_error query entityKeywords topicKeywords err :
  ExtractQueryKeywords TrimSpace TrimPrefix TrimSuffix llmClient Generate Unmarshal query
  = Ok (entityKeywords, topicKeywords, err) ->
  err = None.
Proof.
  unfold ExtractQueryKeywords.
  destruct llmClient as [c|].
  - destruct (extractWithLLM _ _ _ _ _ _ _) as [[[es ts] [e|]]|p]; cbn;
      [| |discriminate].
    + destruct (fallbackKeywords query). intros H. by injection H as _ _ <-.
    + intros H. by injection H as _ _ <-.
  - destruct (fallbackKeywords query). intros H. by injection H as _ _ <-.
Qed.

(** X18: ExtractQueryKeywords never returns an error.  Without a language
    model, and when the model call fails, it returns the keywords of the
    fallback rule: of the white space separated tokens of the query those
    of more than one byte, in their order, the ones that contain 菜, 肉 or
    蛋 as entity keywords and the others as topic keywords; tokens of a
    single byte are dropped. *)
Theorem extract_query_keywords query :
  let long := List.filter (fun keyword => 1 <? strlen keyword) (Fields query) in
  fallbackKeywords query
  = (List.filter isEntityKeyword long,
     List.filter (fun keyword => negb (isEntityKeyword keyword)) long) /\
  fst (fallbackKeywords query) ++ snd (fallbackKeywords query) ≡ₚ long /\
  (forall entityKeywords topicKeywords err,
     ExtractQueryKeywords TrimSpace TrimPrefix TrimSuffix llmClient Generate Unmarshal
       query
     = Ok (entityKeywords, topicKeywords, err) ->
     err = None) /\
  (llmClient = None \/ (exists e, Generate query = Err e) ->
   ExtractQueryKeywords TrimSpace TrimPrefix TrimSuffix llmClient Generate Unmarshal
     query
   = Ok (fst (fallbackKeywords query), snd (fallbackKeywords query), None)).
Proof.
  cbv zeta.
  assert (Hf : fallbackKeywords query
               = (List.filter isEntityKeyword
                    (List.filter (fun keyword => 1 <? strlen keyword) (Fields query)),
                  List.filter (fun keyword => negb (isEntityKeyword keyword))
                    (List.filter (fun keyword => 1 <? strlen keyword) (Fields query)))).
  { unfold fallbackKeywords. by rewrite classify_filter. }
  split; [exact Hf|]. split; [rewrite Hf; apply filter_split|].
  split; [apply ExtractQueryKeywords_no_error|].
  intros H. unfold ExtractQueryKeywords, extractWithLLM.
  destruct llmClient as [c|].
  - destruct H as [H|[e He]]; [discriminate|]. rewrite He. cbn.
    by destruct (fallbackKeywords query).
  - by destruct (fallbackKeywords query).
Qed.

Lemma truncate_Ok {A} (results out : list A) topK :
  truncate results topK = Ok out ->
  0 <= topK /\ out = take (Z.to_nat topK) results.
Proof.
  unfold truncate. destruct (topK <? Z.of_nat (length results)) eqn:E.
  - destruct (topK <? 0) eqn:E0; [discriminate|].
    apply Z.ltb_ge in E0. intros H. by injection H as <-.
  - apply Z.ltb_ge in E. intros H. injection H as <-.
    split; [lia|]. rewrite take_ge; [reflexivity | lia].
Qed.

Lemma EntityLevelRetrievalIn_Ok scans entityKeywords topK results err :
  EntityLevelRetrievalIn ToLower SortSlice driver runNeighborQuery
    neo4jEntityLevelSearch scans entityKeywords topK
  = Ok (results, err) ->
  0 <= topK /\ err = None /\ (Z.of_nat (length results) <= topK).
Proof.
  unfold EntityLevelRetrievalIn.
  destruct (foldM _ scans []) as [found|p]; [|discriminate]. cbn.
  match goal with
  | |- context [mbind _ ?m] => destruct m as [all|p]; [|discriminate]
  end.
  cbn. destruct (truncate _ topK) as [out|p] eqn:Et; [|discriminate].
  cbn. intros H. injection H as <- <-.
  apply truncate_Ok in Et as [Hk ->]. split; [exact Hk|]. split; [reflexivity|].
  rewrite length_take. lia.
Qed.

Lemma elems_foldl_append1 {A} (l : list A) : forall s,
  elems (foldl append1 s l) = elems s ++ l.
Proof.
  induction l as [|x l IH]; intros s; cbn [foldl]; [by rewrite app_nil_r|].
  by rewrite IH, elems_append1, <- app_assoc.
Qed.

Lemma dualDocument_spec r :
  ID (dualDocument r) = EmptyString /\ Content (dualDocument r) = rContent r /\
  MetaData (dualDocument r) <> None /\
  getMeta (dualDocument r) "node_id" = Some (VStr (NodeID r)) /\
  getMeta (dualDocument r) "node_type" = Some (VStr (NodeType r)) /\
  getMeta (dualDocument r) "retrieval_level" = Some (VStr (RetrievalLevel r)) /\
  getMeta (dualDocument r) "relevance_score" = Some (VFloat (RelevanceScore r)) /\
  getMeta (dualDocument r) "recipe_name" = Some (VStr (recipeNameOf (Metadata r))) /\
  getMeta (dualDocument r) "search_type" = Some (VStr "dual_level") /\
  relevanceOf (dualDocument r) = RelevanceScore r.
Proof.
  unfold relevanceOf, dualDocument, getMeta. cbn [MetaData ID Content].
  repeat split; try done;
    repeat (rewrite lookup_insert_ne by done); by rewrite lookup_insert_eq.
Qed.

Lemma StronglySorted_sublist {A} (R : A -> A -> Prop) l1 l2 :
  l1 `sublist_of` l2 -> StronglySorted R l2 -> StronglySorted R l1.
Proof.
  induction 1 as [|x l1 l2 Hsub IH|x l1 l2 Hsub IH]; intros Hs.
  - constructor.
  - apply StronglySorted_inv in Hs as [Hs Hx]. constructor; [by apply IH|].
    apply Forall_forall. intros y Hy.
    apply (proj1 (Forall_forall _ _) Hx).
    eapply elem_of_sublist; [exact Hy | exact Hsub].
  - apply StronglySorted_inv in Hs as [Hs _]. by apply IH.
Qed.

Lemma StronglySorted_fmap {A B} (f : A -> B) (R : B -> B -> Prop) l :
  StronglySorted (fun a b => R (f a) (f b)) l -> StronglySorted R (f <$> l).
Proof.
  induction 1 as [|x l Hl IH Hx]; cbn; constructor; [exact IH|].
  by apply Forall_fmap.
Qed.

Lemma higherScore_false a b :
  higherScore b a = false <-> (RelevanceScore b <= RelevanceScore a)%Q.
Proof.
  unfold higherScore. rewrite fgt_false. split.
  - apply Qnot_lt_le.
  - intros H1 H2. by apply (Qlt_not_le _ _ H2).
Qed.

Lemma mergeSort_higherScore : sorts mergeSort higherScore.
Proof.
  intros l. unfold mergeSort. split; [apply merge_sort_Permutation|].
  apply StronglySorted_merge_sort.
  - intros a b c. rewrite !higherScore_false. intros H1 H2.
    by apply (Qle_trans _ (RelevanceScore b)).
  - intros a b. rewrite !higherScore_false.
    destruct (Qlt_le_dec (RelevanceScore a) (RelevanceScore b)) as [H|H].
    + right. by apply Qlt_le_weak.
    + by left.
Qed.

(** Of the results of one node the deduplication of a sorted list keeps
    one that no other exceeds. *)
Lemma skipSeen_first l : forall seen r r',
  StronglySorted (fun a b => (RelevanceScore b <= RelevanceScore a)%Q) l ->
  r' ∈ skipSeen NodeID seen l -> r ∈ l -> NodeID r' = NodeID r ->
  (RelevanceScore r <= RelevanceScore r')%Q.
Proof.
  induction l as [|x l IH]; intros seen r r' Hs Hr' Hr Hid;
    [by apply elem_of_nil in Hr|].
  apply StronglySorted_inv in Hs as [Hs Hx]. cbn [skipSeen] in Hr'.
  destruct (decide (NodeID x ∈ seen)) as [Hin|Hout].
  - apply elem_of_cons in Hr as [->|Hr]; [|by apply (IH seen)].
    apply skipSeen_fresh in Hr'. congruence.
  - apply elem_of_cons in Hr' as [->|Hr'].
    + apply elem_of_cons in Hr as [->|Hr]; [apply Qle_refl|].
      by apply (proj1 (Forall_forall _ _) Hx).
    + apply elem_of_cons in Hr as [->|Hr]; [|by apply (IH ({[NodeID x]} ∪ seen))].
      apply skipSeen_fresh in Hr'. exfalso. apply Hr'.
      apply elem_of_union. left. by apply elem_of_singleton.
Qed.

(** The documents of the merge of the two levels. *)
Lemma mergeLevels_spec entityResults topicResults topK :
  sorts SortSlice higherScore ->
  exists chosen,
    elems (mergeLevels SortSlice entityResults topicResults topK)
    = dualDocument <$> chosen /\
    (0 <= topK -> Z.of_nat (length chosen) <= topK) /\
    NoDup (NodeID <$> chosen) /\
    StronglySorted (fun a b => (RelevanceScore b <= RelevanceScore a)%Q) chosen /\
    (forall r, r ∈ chosen -> r ∈ entityResults ++ topicResults) /\
    (forall r r',
       r ∈ entityResults ++ topicResults -> r' ∈ chosen ->
       NodeID r' = NodeID r -> (RelevanceScore r <= RelevanceScore r')%Q).
Proof.
  intros Hsort. destruct (Hsort (entityResults ++ topicResults)) as [Hperm Hsorted].
  set (sorted := SortSlice higherScore (entityResults ++ topicResults)) in *.
  exists (take (Z.to_nat topK) (skipSeen NodeID ∅ sorted)).
  assert (Hss : StronglySorted (fun a b => (RelevanceScore b <= RelevanceScore a)%Q)
                  sorted).
  { eapply StronglySorted_impl; [|exact Hsorted]. intros a b. apply higherScore_false. }
  split; [|split; [|split; [|split; [|split]]]].
  - unfold mergeLevels. fold sorted. by rewrite elems_foldl_append1.
  - intros Hk. rewrite length_take. lia.
  - rewrite fmap_take. eapply sublist_NoDup; [|apply sublist_take].
    apply skipSeen_NoDup.
  - apply StronglySorted_take.
    eapply StronglySorted_sublist; [apply skipSeen_sublist | exact Hss].
  - intros r Hr. rewrite <- Hperm.
    eapply elem_of_sublist; [|apply skipSeen_sublist].
    eapply elem_of_sublist; [exact Hr | apply sublist_take].
  - intros r r' Hr Hr' Hid. rewrite <- Hperm in Hr.
    assert (Hkept : r' ∈ skipSeen NodeID ∅ sorted)
      by (eapply elem_of_sublist; [exact Hr' | apply sublist_take]).
    eapply skipSeen_first; [exact Hss | exact Hkept | exact Hr | exact Hid].
Qed.

Lemma DualLevelRetrievalIn_Ok entityScans topicScans query topK documents err :
  DualLevelRetrievalIn ToLower TrimSpace TrimPrefix TrimSuffix SortSlice llmClient
    Generate Unmarshal driver runNeighborQuery neo4jEntityLevelSearch
    neo4jTopicLevelSearch entityScans topicScans query topK
  = Ok (documents, err) ->
  err = None /\ 0 <= topK /\
  exists entityResults topicResults,
    documents = mergeLevels SortSlice entityResults topicResults topK.
Proof.
  unfold DualLevelRetrievalIn.
  destruct (ExtractQueryKeywords _ _ _ _ _ _ _) as [[[es ts] e]|p]; [|discriminate].
  cbn.
  set (keywords := match e with Some _ => ([query], [query]) | None => (es, ts) end).
  destruct keywords as [es' ts'].
  destruct (EntityLevelRetrievalIn _ _ _ _ _ _ _ _) as [[er e1]|p] eqn:Ee;
    [|discriminate].
  apply EntityLevelRetrievalIn_Ok in Ee as (Hk & _ & _). cbn.
  destruct (TopicLevelRetrievalIn _ _ _ _ _ _) as [[tr e2]|p]; [|discriminate].
  cbn. intros H. injection H as <- <-.
  split; [reflexivity|]. split; [exact Hk|]. by eexists _, _.
Qed.

Lemma DualLevelRetrievalIn_negative entityScans topicScans query topK :
  topK < 0 ->
  exists p,
    DualLevelRetrievalIn ToLower TrimSpace TrimPrefix TrimSuffix SortSlice llmClient
      Generate Unmarshal driver runNeighborQuery neo4jEntityLevelSearch
      neo4jTopicLevelSearch entityScans topicScans query topK
    = Panic p.
Proof.
  intros Hk.
  destruct (DualLevelRetrievalIn _ _ _ _ _ _ _ _ _ _ _ _ _ _ _ _) as [[docs e]|p] eqn:E;
    [|by exists p].
  apply DualLevelRetrievalIn_Ok in E as (_ & H & _). lia.
Qed.

(** X19: whenever DualLevelRetrieval returns, topK is not negative, the
    error is nil and there are at most topK documents; no two documents
    have the same node_id; every document carries an annotation map with
    its node_id, its relevance_score and the search_type dual_level, and
    has no identifier; and, provided sort.Slice sorts, the documents are in
    an order in which no relevance score exceeds one before it.  For a
    negative topK the call panics. *)
Theorem dual_level_documents entityScans topicScans query topK documents err :
  sorts SortSlice higherScore ->
  DualLevelRetrievalIn ToLower TrimSpace TrimPrefix TrimSuffix SortSlice llmClient
    Generate Unmarshal driver runNeighborQuery neo4jEntityLevelSearch
    neo4jTopicLevelSearch entityScans topicScans query topK
  = Ok (documents, err) ->
  err = None /\ 0 <= topK /\ len documents <= topK /\
  NoDup ((fun doc => getMeta doc "node_id") <$> elems documents) /\
  StronglySorted (fun a b => (relevanceOf b <= relevanceOf a)%Q) (elems documents) /\
  Forall (fun doc =>
            ID doc = EmptyString /\ MetaData doc <> None /\
            (exists nodeID, getMeta doc "node_id" = Some (VStr nodeID)) /\
            getMeta doc "relevance_score" = Some (VFloat (relevanceOf doc)) /\
            getMeta doc "search_type" = Some (VStr "dual_level"))
    (elems documents).
Proof.
  intros Hsort Hrun.
  apply DualLevelRetrievalIn_Ok in Hrun as (-> & Hk & er & tr & ->).
  destruct (mergeLevels_spec er tr topK Hsort)
    as (chosen & Hel & Hlen & Hnd & Hsorted & _).
  split; [reflexivity|]. split; [exact Hk|]. unfold len. rewrite Hel.
  split; [rewrite length_fmap; by apply Hlen|]. split; [|split].
  - rewrite <- list_fmap_compose.
    rewrite (list_fmap_ext _ ((fun id => Some (VStr id)) ∘ NodeID) chosen)
      by (intros i r _; apply dualDocument_spec).
    rewrite list_fmap_compose. apply NoDup_fmap_2; [|exact Hnd].
    intros a b H. by injection H.
  - apply StronglySorted_fmap.
    eapply StronglySorted_impl; [|exact Hsorted].
    intros a b. cbn.
    by rewrite (proj2 (proj2 (proj2 (proj2 (proj2 (proj2 (proj2 (proj2 (proj2
                  (dualDocument_spec a)))))))))),
               (proj2 (proj2 (proj2 (proj2 (proj2 (proj2 (proj2 (proj2 (proj2
                  (dualDocument_spec b)))))))))).
  - apply Forall_fmap, Forall_forall. intros r _. cbn.
    destruct (dualDocument_spec r) as (H1 & _ & H3 & H4 & _ & _ & H7 & _ & H9 & H10).
    split; [exact H1|]. split; [exact H3|]. split; [by eexists|].
    split; [by rewrite H10|exact H9].
Qed.

Lemma enhance_score nodeID entity r :
  enhance driver runNeighborQuery nodeID entity = Ok r ->
  RelevanceScore r = (8 # 10)%Q.
Proof.
  unfold enhance.
  destruct (getNodeNeighbors _ _ _ _) as [[neighbors e]|p]; [|discriminate].
  cbn. destruct (0 <? Go.len neighbors).
  - destruct (slice_to _ _ _) as [shown|p]; [|discriminate].
    cbn. intros H. by injection H as <-.
  - cbn. intros H. by injection H as <-.
Qed.

Lemma scanCache_spec entries query topK : forall mockResults results,
  scanCache ToLower driver runNeighborQuery entries query topK mockResults
  = Ok results ->
  (Forall (fun r => RelevanceScore r = (8 # 10)%Q) (elems mockResults) ->
   Forall (fun r => RelevanceScore r = (8 # 10)%Q) (elems results)) /\
  (Go.len mockResults = 0 \/ Go.len mockResults < topK ->
   Go.len results <= Z.max 1 topK).
Proof.
  induction entries as [|[nodeID entity] entries IH]; intros mock results;
    cbn [scanCache].
  - intros H. injection H as <-. split; [done|]. lia.
  - destruct (matches ToLower entity query); [|apply IH].
    destruct (enhance _ _ _ _) as [r|p] eqn:Er; [|discriminate].
    cbn. apply enhance_score in Er.
    destruct (topK <=? Go.len (append1 mock r)) eqn:Ek.
    + intros H. injection H as <-. rewrite elems_append1, len_append1. split.
      * intros Hall. apply Forall_app. split; [exact Hall|]. by constructor.
      * lia.
    + apply Z.leb_gt in Ek. intros Hrun. apply IH in Hrun as [H1 H2].
      rewrite elems_append1 in H1. split.
      * intros Hall. apply H1, Forall_app. split; [exact Hall|]. by constructor.
      * intros _. apply H2. by right.
Qed.

Lemma toDocument_spec r :
  ID (toDocument r) = EmptyString /\ Content (toDocument r) = rContent r /\
  MetaData (toDocument r) <> None /\
  getMeta (toDocument r) "score" = Some (VFloat (RelevanceScore r)) /\
  getMeta (toDocument r) "search_type" = Some (VStr "vector_enhanced").
Proof.
  unfold toDocument, getMeta. cbn [MetaData ID Content].
  repeat split; try done.
  - rewrite lookup_insert_ne by done. by rewrite lookup_insert_eq.
  - by rewrite lookup_insert_eq.
Qed.

Lemma VectorSearchEnhancedIn_Ok entries query topK documents err :
  VectorSearchEnhancedIn ToLower driver runNeighborQuery entries query topK
  = Ok (documents, err) ->
  err = None /\ len documents <= Z.max 1 topK /\
  Forall (fun doc =>
            ID doc = EmptyString /\ MetaData doc <> None /\
            getMeta doc "search_type" = Some (VStr "vector_enhanced") /\
            getMeta doc "score" = Some (VFloat (8 # 10)) /\
            Hybrid.vectorFinalScore doc = VFloat (1 - (8 # 10)))
    (elems documents).
Proof.
  unfold VectorSearchEnhancedIn.
  destruct (scanCache _ _ _ _ _ _ _) as [results|p] eqn:Es; [|discriminate].
  cbn. intros H. injection H as <- <-.
  apply scanCache_spec in Es as [Hscore Hlen].
  split; [reflexivity|]. split.
  - unfold len. rewrite elems_foldl_append1. cbn [elems app].
    rewrite length_map. apply Hlen. by left.
  - rewrite elems_foldl_append1. cbn [elems app].
    change (map toDocument (elems results)) with (toDocument <$> elems results).
    apply Forall_fmap. eapply Forall_impl; [apply Hscore; constructor|].
    intros r Hr. cbn.
    destruct (toDocument_spec r) as (H1 & _ & H3 & H4 & H5).
    split; [exact H1|]. split; [exact H3|]. split; [exact H5|].
    rewrite Hr in H4. split; [exact H4|].
    unfold Hybrid.vectorFinalScore. by rewrite H4.
Qed.

(** X20: whenever VectorSearchEnhanced returns, the error is nil and
    there are at most topK documents, or one when topK is below one; every
    document carries an annotation map with the search_type
    vector_enhanced and the constant score 0.8, whatever the query, so
    that HybridSearch gives every vector document the same final_score
    1 - 0.8: one fifth on the rationals, the binary64 number just below
    0.2 in IEEE 754 arithmetic. *)
Theorem vector_search_documents entries query topK documents err :
  VectorSearchEnhancedIn ToLower driver runNeighborQuery entries query topK
  = Ok (documents, err) ->
  err = None /\ len documents <= Z.max 1 topK /\
  Forall (fun doc =>
            ID doc = EmptyString /\ MetaData doc <> None /\
            getMeta doc "search_type" = Some (VStr "vector_enhanced") /\
            getMeta doc "score" = Some (VFloat (8 # 10)) /\
            Hybrid.vectorFinalScore doc = VFloat (1 - (8 # 10)))
    (elems documents) /\
  (1 - (8 # 10) == 1 # 5)%Q /\
  PrimFloat.ltb vectorSimilarity64
    (PrimFloat.div (Binary64.ofInt 2) (Binary64.ofInt 10)) = true /\
  PrimFloat.ltb (PrimFloat.div (Binary64.ofInt 19) (Binary64.ofInt 100))
    vectorSimilarity64 = true.
Proof.
  intros Hrun. apply VectorSearchEnhancedIn_Ok in Hrun as (H1 & H2 & H3).
  split; [exact H1|]. split; [exact H2|]. split; [exact H3|].
  split; [reflexivity|]. split; by vm_compute.
Qed.

(** X21: HybridSearch over the two retrievals of the repository returns
    exactly when both retrievals return: a panic of either is the panic of
    HybridSearch, and for a negative topK the dual level retrieval panics;
    when both return, HybridSearch returns with a nil error at most topK
    documents, each either a dual level document whose final_score is its
    relevance_score or a vector document whose final_score is 1 - 0.8. *)
Theorem hybrid_search_pipeline Sprintf_v entityScans topicScans entries query topK :
  let Dual :=
    DualLevelRetrievalIn ToLower TrimSpace TrimPrefix TrimSuffix SortSlice llmClient
      Generate Unmarshal driver runNeighborQuery neo4jEntityLevelSearch
      neo4jTopicLevelSearch entityScans topicScans in
  let Vector := VectorSearchEnhancedIn ToLower driver runNeighborQuery entries in
  let Hybrid := Hybrid.HybridSearch Sprintf_v Dual Vector in
  (topK < 0 -> exists p, Hybrid query topK = Panic p) /\
  (forall p, Dual query topK = Panic p -> Hybrid query topK = Panic p) /\
  (forall r p,
     Dual query topK = Ok r -> Vector query topK = Panic p ->
     Hybrid query topK = Panic p) /\
  (forall dualDocs e1 vectorDocs e2,
     Dual query topK = Ok (dualDocs, e1) -> Vector query topK = Ok (vectorDocs, e2) ->
     exists out,
       Hybrid query topK = Ok (out, None) /\ 0 <= len out <= topK /\
       forall doc,
         doc ∈ elems out ->
         (getMeta doc "search_method" = Some (VStr "dual_level") /\
          exists score,
            getMeta doc "relevance_score" = Some (VFloat score) /\
            getMeta doc "final_score" = Some (VFloat score)) \/
         (getMeta doc "search_method" = Some (VStr "vector_enhanced") /\
          getMeta doc "final_score" = Some (VFloat (1 - (8 # 10))))).
Proof.
  cbv zeta.
  set (Dual := DualLevelRetrievalIn _ _ _ _ _ _ _ _ _ _ _ _ entityScans topicScans).
  set (Vector := VectorSearchEnhancedIn ToLower driver runNeighborQuery entries).
  split; [|split; [|split]].
  - intros Hk.
    destruct (DualLevelRetrievalIn_negative entityScans topicScans query topK Hk)
      as [p Hp].
    exists p. unfold Hybrid.HybridSearch. fold Dual in Hp. by rewrite Hp.
  - intros p Hp. unfold Hybrid.HybridSearch. by rewrite Hp.
  - intros [dualDocs e1] p Hd Hv. unfold Hybrid.HybridSearch. rewrite Hd. cbn.
    by rewrite Hv.
  - intros dualDocs e1 vectorDocs e2 Hd Hv.
    unfold Hybrid.HybridSearch. rewrite Hd. cbn. rewrite Hv. cbn.
    apply DualLevelRetrievalIn_Ok in Hd as (-> & Hk & er & tr & ->).
    apply VectorSearchEnhancedIn_Ok in Hv as (-> & _ & Hvec).
    set (dualDocs := mergeLevels SortSlice er tr topK).
    assert (Hdual : Forall (fun doc =>
                       MetaData doc <> None /\
                       getMeta doc "relevance_score" = Some (VFloat (relevanceOf doc)))
                     (elems dualDocs)).
    { unfold dualDocs, mergeLevels. rewrite elems_foldl_append1. cbn [elems app].
      apply Forall_fmap, Forall_forall. intros r _. cbn.
      destruct (dualDocument_spec r) as (_ & _ & H3 & _ & _ & _ & H7 & _ & _ & H10).
      split; [exact H3 | by rewrite H10]. }
    destruct (mergeRoundRobin_roundRobin Sprintf_v dualDocs vectorDocs topK Hk)
      as (out & Hrun & Hel).
    { apply Forall_app. split.
      - eapply Forall_impl; [exact Hdual|]. by intros doc [H _].
      - eapply Forall_impl; [exact Hvec|]. by intros doc (_ & H & _). }
    rewrite Hrun. cbn. exists out. split; [reflexivity|].
    split.
    { unfold len. rewrite Hel, length_imap. unfold roundRobin.
      rewrite length_take. lia. }
    intros doc Hdoc. rewrite Hel in Hdoc.
    apply elem_of_lookup_imap in Hdoc as (j & it & -> & Hit).
    apply list_elem_of_lookup_2 in Hit.
    pose proof (roundRobin_source _ _ _ _ _ Hit) as Hsrc.
    destruct it as [src i d]. cbn in Hsrc.
    assert (Hmethod : getMeta (hybridOut j (mkItem src i d)) "search_method"
                      = Some (VStr (hybridMethod src))).
    { unfold hybridOut, getMeta. cbn [MetaData itemDoc itemSource].
      rewrite !lookup_insert_ne by done. by rewrite lookup_insert_eq. }
    assert (Hfinal : getMeta (hybridOut j (mkItem src i d)) "final_score"
                     = Some (hybridScore src d)).
    { unfold hybridOut, getMeta. cbn [MetaData itemDoc itemSource].
      by rewrite lookup_insert_eq. }
    apply list_elem_of_lookup_2 in Hsrc.
    destruct src.
    + left. split; [exact Hmethod|].
      destruct (proj1 (Forall_forall _ _) Hdual d Hsrc) as [Hm Hs].
      exists (relevanceOf d). split.
      * unfold hybridOut, getMeta. cbn [MetaData itemDoc itemSource].
        rewrite !lookup_insert_ne by done.
        unfold getMeta in Hs. by destruct (MetaData d).
      * rewrite Hfinal. cbn. unfold Hybrid.dualFinalScore. by rewrite Hs.
    + right. split; [exact Hmethod|].
      destruct (proj1 (Forall_forall _ _) Hvec d Hsrc) as (_ & _ & _ & _ & Hs).
      rewrite Hfinal. cbn. by rewrite Hs.
Qed.

End Retrieval.

End DualLevelFacts.

(** ** Answering a question *)

Module AnsweringFacts.

Import Strings Router Dispatch Answering GoFacts RouterFacts RoutingFacts
  MergeTheorems DispatchFacts.

Lemma RouteQuery_no_error HS GS stats query topK calls documents analysis err :
  snd (RouteQuery HS GS stats query topK) = (calls, Ok (documents, analysis, err)) ->
  err = None /\ analysis = ruleBasedAnalysis query.
Proof.
  rewrite RouteQuery_run.
  destruct (dispatch HS GS _ query topK) as [calls0 [[documents0 [e|]]|p]];
    [| |discriminate]; cbn.
  - unfold callHybridSearch. cbn.
    destruct (HS query topK) as [[documents1 err1]|p]; [|discriminate].
    cbn. intros H. by injection H as _ _ <- <-.
  - intros H. by injection H as _ _ <- <-.
Qed.

Section Ask.

Variable HS : string -> Z -> outcome (slice Document * error).
Variable GS : string -> Z -> outcome (slice Document * error).
Variable GenerateAdaptiveAnswer : string -> slice Document -> GraphRAG.result string.
Variable GenerateAdaptiveAnswerStream : string -> slice Document -> list string.

(** X22: AskQuestionWithRouting on a system that is not ready returns the
    error 系统未就绪 without routing the question or touching the
    statistics.  On a ready system, whenever it returns, the question was
    routed once with the configured TopK and counted, the analysis is the
    rule based analysis of the question, and the only error it can return
    is that of the generation module for an answer that is not streamed:
    the branch for a failed routing is never taken; and when the router
    returns no document the answer is the fixed apology, with a nil
    error and without a call to the generation module. *)
Theorem ask_question_with_routing s stats question stream explainRouting :
  let ask :=
    AskQuestionWithRouting HS GS GenerateAdaptiveAnswer GenerateAdaptiveAnswerStream
      s stats question stream explainRouting in
  let routed := RouteQuery HS GS stats question (TopK s) in
  (systemReady s = false ->
   ask = (stats, ([], Ok (EmptyString, None, Some "系统未就绪，请先构建知识库")))) /\
  (systemReady s = true ->
   fst ask = updateRouteStats stats (RecommendedStrategy (ruleBasedAnalysis question)) /\
   fst (snd ask) = fst (snd routed) /\
   (forall p, snd (snd routed) = Panic p -> snd (snd ask) = Panic p) /\
   (forall documents analysis err,
      snd (snd routed) = Ok (documents, analysis, err) ->
      exists answer err',
        snd (snd ask) = Ok (answer, Some (ruleBasedAnalysis question), err') /\
        (len documents <= 0 -> answer = apology /\ err' = None) /\
        (0 < len documents -> stream = true ->
         answer = VectorSearch.Join (GenerateAdaptiveAnswerStream question documents)
                    EmptyString /\ err' = None) /\
        (0 < len documents -> stream = false ->
         match GenerateAdaptiveAnswer question documents with
         | GraphRAG.Val result => answer = result /\ err' = None
         | GraphRAG.Err e =>
             answer = EmptyString /\ err' = Some ("生成回答失败: " +:+ e)
         end))).
Proof.
  cbv zeta. unfold AskQuestionWithRouting. split.
  - intros ->. reflexivity.
  - intros ->. cbn [negb fst snd].
    split; [reflexivity|].
    destruct (snd (RouteQuery HS GS stats question (TopK s)))
      as [calls [[[documents analysis] err]|p]] eqn:Er.
    + destruct (RouteQuery_no_error _ _ _ _ _ _ _ _ _ Er) as [-> ->].
      cbn. destruct (0 <? len documents) eqn:El.
      * apply Z.ltb_lt in El. destruct stream.
        -- cbn. split; [by rewrite app_nil_r|]. split; [discriminate|].
           intros d a e H. injection H as <- <- <-.
           eexists _, _. split; [reflexivity|].
           split; [lia|]. split; [done|]. discriminate.
        -- destruct (GenerateAdaptiveAnswer question documents) as [result|e] eqn:Eg;
             cbn; (split; [by rewrite app_nil_r|]); (split; [discriminate|]);
             intros d a e' H; injection H as <- <- <-;
             eexists _, _; (split; [reflexivity|]);
             (split; [lia|]); (split; [discriminate|]); intros _ _;
             rewrite Eg; done.
      * apply Z.ltb_ge in El. cbn. split; [by rewrite app_nil_r|].
        split; [discriminate|].
        intros d a e H. injection H as <- <- <-.
        eexists _, _. split; [reflexivity|].
        split; [done|]. split; intros; lia.
    + cbn. split; [reflexivity|]. split; [intros q H; by injection H as <-|].
      discriminate.
Qed.

End Ask.

End AnsweringFacts.

(** ** The properties at concrete inputs *)

Module ScenarioFacts.

Import Strings KeywordIndex IndexBuild IndexExchange GraphRAG GraphDocuments
  DualLevel Sorting Dispatch DispatchModel.
Import IndexFacts IndexBuildFacts DedupFacts ExchangeFacts DispatchFacts
  GraphDocumentsFacts DualLevelFacts.

Lemma create_entities_lookup_witness :
  NoDup (NodeID <$> [Scenarios.kungPao] ++ [Scenarios.chickenBreast] ++ []) /\
  GetEntitiesByKey Scenarios.kitchen "鸡胸肉"
  = [ingredientKV Examples.render Scenarios.boxed Scenarios.chickenBreast].
Proof.
  assert (H : NoDup (NodeID <$> [Scenarios.kungPao] ++ [Scenarios.chickenBreast] ++ [])).
  { apply NoDup_cons. split; [|apply NoDup_singleton].
    intros Hin. apply list_elem_of_singleton in Hin. discriminate. }
  split; [exact H|].
  unfold Scenarios.kitchen.
  rewrite (create_entities_lookup Examples.render Scenarios.boxed
             [Scenarios.kungPao] [Scenarios.chickenBreast] [] "鸡胸肉" H).
  vm_compute. reflexivity.
Defined.

(** With the keywords of the language model enabled and a model that
    would answer, the template that does not format leaves the keys of a
    REQUIRES relation without any keyword of the model. *)
Lemma relation_index_keys_witness :
  llmEnhanceRelationKeys unit Scenarios.noTemplate Scenarios.answersKeywords
    Scenarios.oneKeyword
    (recipeKV Examples.render Scenarios.boxed Scenarios.kungPao)
    (ingredientKV Examples.render Scenarios.boxed Scenarios.chickenBreast)
    "REQUIRES"
  = [] /\
  elems (generateRelationIndexKeys (Some Scenarios.llmKeysEnabled) unit
           Scenarios.noTemplate Scenarios.answersKeywords Scenarios.oneKeyword
           (recipeKV Examples.render Scenarios.boxed Scenarios.kungPao)
           (ingredientKV Examples.render Scenarios.boxed Scenarios.chickenBreast)
           "REQUIRES")
  = ["REQUIRES"; "食材搭配"; "烹饪原料"; "宫保鸡丁_食材"; "鸡胸肉"].
Proof.
  destruct (relation_index_keys (Some Scenarios.llmKeysEnabled) unit
              Scenarios.noTemplate Scenarios.answersKeywords Scenarios.oneKeyword
              (recipeKV Examples.render Scenarios.boxed Scenarios.kungPao)
              (ingredientKV Examples.render Scenarios.boxed Scenarios.chickenBreast)
              "REQUIRES") as (_ & _ & _ & _ & _ & Hnone & _).
  split; [apply Hnone; by eexists|]. vm_compute. reflexivity.
Defined.

(** The relation between the recipe and its ingredient is stored under
    its identifier and found under the name of the ingredient. *)
Lemma create_relations_witness :
  let g' :=
    CreateRelationKeyValues None unit Scenarios.noTemplate Examples.modelUnavailable
      Scenarios.noKeywords Scenarios.kitchen [Scenarios.requires] in
  entityKVStore g' = entityKVStore Scenarios.kitchen /\
  exists relationKV,
    relationKVStore g' !! "rel_0_r1_i1" = Some relationKV /\
    rIndexKeys relationKV
    = ["REQUIRES"; "食材搭配"; "烹饪原料"; "宫保鸡丁_食材"; "鸡胸肉"] /\
    relationKV ∈ GetRelationsByKey g' "鸡胸肉".
Proof.
  cbv zeta.
  destruct (create_relations None unit Scenarios.noTemplate
              Examples.modelUnavailable Scenarios.noKeywords Scenarios.kitchen
              [Scenarios.requires]) as (He & _ & _ & Hnew & _).
  split; [exact He|].
  assert (Hkv : { relationKV |
                  relationKVStore
                    (CreateRelationKeyValues None unit Scenarios.noTemplate
                       Examples.modelUnavailable Scenarios.noKeywords
                       Scenarios.kitchen [Scenarios.requires])
                    !! "rel_0_r1_i1" = Some relationKV }).
  { eexists. vm_compute. reflexivity. }
  destruct Hkv as [relationKV Hkv]. exists relationKV.
  split; [exact Hkv|].
  assert (Hkeys : rIndexKeys relationKV
                  = ["REQUIRES"; "食材搭配"; "烹饪原料"; "宫保鸡丁_食材"; "鸡胸肉"]).
  { vm_compute in Hkv. injection Hkv as <-. reflexivity. }
  split; [exact Hkeys|].
  apply (Hnew "rel_0_r1_i1" relationKV "鸡胸肉" Hkv).
  - by vm_compute.
  - rewrite Hkeys. set_solver.
Defined.

Lemma twoChickens_deduplicated :
  DeduplicateEntitiesAndRelations Examples.twoChickens (Ok Scenarios.oneChicken).
Proof.
  exists [("i1", Examples.chickenA); ("i2", Examples.chickenB)],
         [("鸡肉", ["i1"; "i2"])], [], [].
  split; [by rewrite twoChickens_entries|].
  split; [by vm_compute|].
  split; [by rewrite twoChickens_relations|].
  split; [by vm_compute|].
  assert (E : dedupEntities [("鸡肉", ["i1"; "i2"])] (entityKVStore Examples.twoChickens)
              = Ok {["i1" := Scenarios.mergedChicken]}).
  { vm_compute. reflexivity. }
  rewrite E. exists Scenarios.oneChicken. split; [|reflexivity].
  exists [("i1", Scenarios.mergedChicken)], []. cbn [entityKVStore relationKVStore].
  split; [by rewrite map_to_list_singleton|].
  split; [by vm_compute|]. vm_compute. reflexivity.
Qed.

Lemma deduplicate_witness :
  DeduplicateEntitiesAndRelations Examples.twoChickens (Ok Scenarios.oneChicken) /\
  exists g',
    Ok Scenarios.oneChicken = Ok g' /\
    forall id1 id2 kv1 kv2,
      entityKVStore g' !! id1 = Some kv1 -> entityKVStore g' !! id2 = Some kv2 ->
      EntityName kv1 = EntityName kv2 -> id1 = id2.
Proof.
  split; [exact twoChickens_deduplicated|].
  destruct (deduplicate Examples.twoChickens (Ok Scenarios.oneChicken)
              twoChickens_deduplicated) as (g' & Hg & Hunique & _).
  exists g'. split; [exact Hg | exact Hunique].
Defined.

Lemma pantry_imported :
  ImportFromJSON Scenarios.decodeObject Scenarios.decodeNothing Scenarios.pantry
    NewGraphIndexingModule (Scenarios.imported, None).
Proof.
  exists (map_to_list (objectAt Scenarios.pantry "entities")), [], Scenarios.imported.
  split; [reflexivity|]. split; [by vm_compute|]. split; [|reflexivity].
  exists [("i1", Examples.chickenA)], [].
  split; [|split; [|reflexivity]]; by vm_compute.
Qed.

(** The entity object is imported under its identifier and found under
    its key; the string under the second identifier is skipped. *)
Lemma import_from_json_witness :
  ImportFromJSON Scenarios.decodeObject Scenarios.decodeNothing Scenarios.pantry
    NewGraphIndexingModule (Scenarios.imported, None) /\
  exists g',
    (Scenarios.imported, (None : error)) = (g', None) /\
    entityKVStore g'
    = omap Scenarios.decodeObject (objectAt Scenarios.pantry "entities") /\
    entityKVStore g' = {["i1" := Examples.chickenA]} /\
    GetEntitiesByKey g' "鸡肉" = [Examples.chickenA].
Proof.
  split; [exact pantry_imported|].
  destruct (import_from_json Scenarios.decodeObject Scenarios.decodeNothing
              Scenarios.pantry NewGraphIndexingModule (Scenarios.imported, None)
              pantry_imported) as (g' & Hg & He & _).
  exists g'. split; [exact Hg|]. split; [exact He|].
  injection Hg as <-. split; vm_compute; reflexivity.
Defined.

Lemma twoChickens_exported : ExportToJSON Examples.twoChickens (Scenarios.exported, None).
Proof.
  eexists. split; [|reflexivity].
  exists [("i1", Examples.chickenA); ("i2", Examples.chickenB)], [],
         [("i1", Examples.chickenA); ("i2", Examples.chickenB)].
  split; [by rewrite twoChickens_entries|].
  split; [by rewrite twoChickens_relations|].
  split; [by rewrite twoChickens_entries|]. reflexivity.
Qed.

Lemma exported_imported :
  ImportFromJSON Scenarios.decodeObject Scenarios.decodeNothing Scenarios.exported
    Examples.twoChickens (mkGraphIndexingModule ∅ ∅ ∅ ∅, None).
Proof.
  exists [], [], (mkGraphIndexingModule ∅ ∅ ∅ ∅).
  split; [by vm_compute|]. split; [by vm_compute|]. split; [|reflexivity].
  exists [], []. split; [|split; [|reflexivity]]; by vm_compute.
Qed.

Lemma export_then_import_witness :
  ExportToJSON Examples.twoChickens (Scenarios.exported, None) /\
  ImportFromJSON Scenarios.decodeObject Scenarios.decodeNothing Scenarios.exported
    Examples.twoChickens (mkGraphIndexingModule ∅ ∅ ∅ ∅, None) /\
  (None : error) = None.
Proof.
  split; [exact twoChickens_exported|]. split; [exact exported_imported|].
  exact (proj1 (export_then_import Scenarios.decodeObject Scenarios.decodeNothing
                  Examples.twoChickens Scenarios.exported None Examples.twoChickens
                  (mkGraphIndexingModule ∅ ∅ ∅ ∅, None)
                  twoChickens_exported exported_imported)).
Defined.

Lemma long_documents :
  Forall (longFrom (Ascii.ascii_of_nat 229))
    (elems (lit [Scenarios.longPork]) ++ elems (lit [Scenarios.longFish])).
Proof.
  repeat constructor; try (by vm_compute); by eexists.
Qed.

Lemma combined_merge_long_contents_witness :
  Forall (longFrom (Ascii.ascii_of_nat 229))
    (elems (lit [Scenarios.longPork]) ++ elems (lit [Scenarios.longFish])) /\
  exists out doc,
    mergeCombined (lit [Scenarios.longPork]) (lit [Scenarios.longFish]) 5 = Ok out /\
    elems out = [doc].
Proof.
  split; [exact long_documents|].
  apply (proj2 (proj2 (combined_merge_long_contents (Ascii.ascii_of_nat 229)
                         (lit [Scenarios.longPork]) (lit [Scenarios.longFish]) 5
                         long_documents))); [lia | discriminate].
Defined.

(** The graph search of a connected store whose template does not
    format, and the ranking of two documents by the merge sort. *)
Lemma graph_search_stages_witness :
  Search mergeSort unit Scenarios.noRecords Scenarios.noRecord Scenarios.noPath
    Scenarios.emptySubgraph Examples.connected unit Examples.formatFails
    Examples.modelUnavailable Examples.decode Examples.relationalQuery 5
  = Ok (NilSlice, Some "查询意图理解失败: 模板格式化失败: missing variable") /\
  sorts mergeSort moreRelevant /\
  rankByGraphRelevance mergeSort [Examples.porkC; Examples.porkA]
  ≡ₚ [Examples.porkC; Examples.porkA] /\
  StronglySorted (fun a b => (relevanceOf b <= relevanceOf a)%Q)
    (rankByGraphRelevance mergeSort [Examples.porkC; Examples.porkA]) /\
  rankByGraphRelevance mergeSort [Examples.porkC; Examples.porkA]
  = [Examples.porkA; Examples.porkC].
Proof.
  destruct (graph_search_stages mergeSort unit Scenarios.noRecords
              Scenarios.noRecord Scenarios.noPath Scenarios.emptySubgraph
              Examples.connected unit Examples.formatFails
              Examples.modelUnavailable Examples.decode Examples.relationalQuery 5)
    as (Hsearch & _ & _ & _ & _ & Hrank).
  split; [exact (Hsearch Neo4jDriver "missing variable" eq_refl eq_refl)|].
  split; [exact mergeSort_sorts|].
  destruct (Hrank mergeSort_sorts [Examples.porkC; Examples.porkA]) as [Hp Hs].
  split; [exact Hp|]. split; [exact Hs|]. vm_compute. reflexivity.
Defined.

Lemma dualRun_returns :
  { r | Scenarios.dualRun "回锅肉" 5 = Ok r }.
Proof. eexists. vm_compute. reflexivity. Defined.

Lemma dual_level_documents_witness :
  sorts mergeSort higherScore /\
  exists documents err,
    Scenarios.dualRun "回锅肉" 5 = Ok (documents, err) /\
    err = None /\ len documents <= 5.
Proof.
  split; [exact mergeSort_higherScore|].
  destruct dualRun_returns as [[documents err] H].
  exists documents, err. split; [exact H|].
  destruct (dual_level_documents Scenarios.keep Scenarios.keep Scenarios.keep2 Scenarios.keep2 mergeSort
              None Scenarios.noAnswer Scenarios.noDecoding (Some Neo4jDriver)
              Scenarios.noNeighbors Scenarios.noSupplement Scenarios.noSupplement
              [[("n3", Scenarios.pork)]] [] "回锅肉" 5 documents err
              mergeSort_higherScore H) as (H1 & _ & H3 & _).
  auto.
Defined.

Lemma vectorRun_returns :
  { r | Scenarios.vectorRun "回锅肉" 5 = Ok r }.
Proof. eexists. vm_compute. reflexivity. Defined.

Lemma vector_search_documents_witness :
  exists documents err,
    Scenarios.vectorRun "回锅肉" 5 = Ok (documents, err) /\
    err = None /\ len documents <= Z.max 1 5.
Proof.
  destruct vectorRun_returns as [[documents err] H].
  exists documents, err. split; [exact H|].
  destruct (vector_search_documents Scenarios.keep (Some Neo4jDriver)
              Scenarios.noNeighbors [("n3", Scenarios.pork)] "回锅肉" 5 documents err H)
    as (H1 & H2 & _).
  auto.
Defined.

End ScenarioFacts.
